(** * codechat-ai: the query analyzer, the retrieval planner, the context
    assembler and the chat guard of [backend/embed_store_v2.py] and
    [backend/main.py], embedded shallowly.

    Python [str] values are Rocq strings.  The queries considered are ASCII
    text: [lower] folds [A-Z] only, the whitespace of [split] and the word
    characters of the regular expressions are the ASCII ones; a character
    above 127 is kept by [lower], is no whitespace and no word character.
    Python [int] is [Z] ([//] by a positive number is [Z.div]); a [dict]
    with string keys is a [gmap string]; a raised exception is [None]. *)

From Stdlib Require Import ZArith Ascii String DecimalString.
From stdpp Require Import base option list strings gmap.

Local Open Scope Z_scope.

(** ** Strings as the analyzer uses them *)

Module Str.

Definition is_upper (c : ascii) : bool :=
  let n := nat_of_ascii c in (65 <=? n)%nat && (n <=? 90)%nat.

Definition is_lower (c : ascii) : bool :=
  let n := nat_of_ascii c in (97 <=? n)%nat && (n <=? 122)%nat.

Definition is_digit (c : ascii) : bool :=
  let n := nat_of_ascii c in (48 <=? n)%nat && (n <=? 57)%nat.

Definition is_alpha (c : ascii) : bool := is_upper c || is_lower c.

(** [\w]: letters, digits and the underscore. *)
Definition is_word (c : ascii) : bool :=
  is_alpha c || is_digit c || (nat_of_ascii c =? 95)%nat.

(** [str.isspace] on ASCII: tab, line feed, vertical tab, form feed,
    carriage return, the four separators 28..31 and the space. *)
Definition is_space (c : ascii) : bool :=
  let n := nat_of_ascii c in
  ((9 <=? n)%nat && (n <=? 13)%nat) || ((28 <=? n)%nat && (n <=? 32)%nat).

Definition lower_char (c : ascii) : ascii :=
  if is_upper c then ascii_of_nat (nat_of_ascii c + 32) else c.

(** [str.lower()] *)
Fixpoint lower (s : string) : string :=
  match s with
  | EmptyString => EmptyString
  | String c s' => String (lower_char c) (lower s')
  end.

(** [s.startswith(k)] *)
Fixpoint starts_with (k s : string) : bool :=
  match k, s with
  | EmptyString, _ => true
  | String a k', String b s' => Ascii.eqb a b && starts_with k' s'
  | String _ _, EmptyString => false
  end.

(** [k in s] on strings: [k] occurs in [s] as a substring. *)
Fixpoint contains (k s : string) : bool :=
  starts_with k s ||
  match s with
  | EmptyString => false
  | String _ s' => contains k s'
  end.

(** [s.split()]: the maximal runs of non-whitespace characters. *)
Fixpoint split (s : string) : list string :=
  match s with
  | EmptyString => []
  | String c s' =>
      if is_space c then split s'
      else
        match s' with
        | EmptyString => [String c EmptyString]
        | String c' _ =>
            if is_space c' then String c EmptyString :: split s'
            else
              match split s' with
              | w :: ws => String c w :: ws
              | [] => [String c EmptyString]
              end
        end
  end.

(** [c * n] for a one-character string [c]. *)
Fixpoint replicate (n : nat) (c : ascii) : string :=
  match n with
  | O => EmptyString
  | S n' => String c (replicate n' c)
  end.

Definition len (s : string) : Z := Z.of_nat (String.length s).

End Str.

(** ** The fragment of Python's [re] that the analyzer uses

    A backtracking matcher: alternatives are tried left to right, [*] and
    [+] are greedy and give characters back one at a time.  A state is the
    character before the position (for [\b]) and the text after it. *)

Module Re.

Inductive regex : Type :=
| Chr (p : ascii -> bool)        (* a character class *)
| WordB                          (* \b *)
| Seq (r1 r2 : regex)
| Alt (r1 r2 : regex)
| Star (r : regex).

Definition Lit (c : ascii) : regex := Chr (Ascii.eqb c).
Definition Plus (r : regex) : regex := Seq r (Star r).

Definition word_before (prev : option ascii) : bool :=
  match prev with Some c => Str.is_word c | None => false end.

Definition word_after (s : string) : bool :=
  match s with String c _ => Str.is_word c | EmptyString => false end.

(** [rmatch r prev s k]: match [r] at the front of [s], then go on with
    [k]; the answer is the text left after the whole match.  The inner
    loop of [Star] runs at most once per character of [s], since a round
    that consumes nothing is not repeated. *)
Fixpoint rmatch (r : regex) (prev : option ascii) (s : string)
    (k : option ascii -> string -> option string) : option string :=
  match r with
  | Chr p =>
      match s with
      | String c s' => if p c then k (Some c) s' else None
      | EmptyString => None
      end
  | WordB =>
      if xorb (word_before prev) (word_after s) then k prev s else None
  | Seq r1 r2 => rmatch r1 prev s (fun prev' s' => rmatch r2 prev' s' k)
  | Alt r1 r2 =>
      match rmatch r1 prev s k with
      | Some rest => Some rest
      | None => rmatch r2 prev s k
      end
  | Star r1 =>
      (fix star (n : nat) (prev : option ascii) (s : string) : option string :=
         match n with
         | O => k prev s
         | S n' =>
             match rmatch r1 prev s (fun prev' s' =>
                      if (String.length s' <? String.length s)%nat
                      then star n' prev' s' else None) with
             | Some rest => Some rest
             | None => k prev s
             end
         end) (String.length s) prev s
  end.

(** [re.match] at one position: the text left after the match. *)
Definition match_here (r : regex) (prev : option ascii) (s : string)
    : option string :=
  rmatch r prev s (fun _ rest => Some rest).

(** [re.findall(r, s)]: scan left to right; after a match the scan goes
    on behind it ([skip] counts the characters of the match still to
    pass).  Neither pattern below matches the empty string; an empty
    match would be recorded and the scan moved one character on. *)
Fixpoint findall_from (r : regex) (prev : option ascii) (s : string)
    (skip : nat) : list string :=
  match skip with
  | S skip' =>
      match s with
      | String c s' => findall_from r (Some c) s' skip'
      | EmptyString => []
      end
  | O =>
      match match_here r prev s with
      | Some rest =>
          let n := (String.length s - String.length rest)%nat in
          String.substring 0 n s ::
            match s with
            | String c s' => findall_from r (Some c) s' (n - 1)
            | EmptyString => []
            end
      | None =>
          match s with
          | String c s' => findall_from r (Some c) s' 0
          | EmptyString => []
          end
      end
  end.

Definition findall (r : regex) (s : string) : list string :=
  findall_from r None s 0.

End Re.

Import Re.

(** ** QueryAnalyzer *)

(** [__init__]: the four keyword lists. *)
Definition summary_keywords : list string :=
  ["summary"; "summarize"; "overview"; "explain"; "describe"; "what is";
   "tell me about"].
Definition analysis_keywords : list string :=
  ["analyze"; "analysis"; "architecture"; "pattern"; "structure"; "design";
   "flow"].
Definition bug_keywords : list string :=
  ["bug"; "error"; "issue"; "problem"; "fix"; "debug"; "vulnerability";
   "security"; "improvements"].
Definition specific_keywords : list string :=
  ["function"; "method"; "class"; "variable"; "import"; "specific"; "find"].

(** [any(keyword in query for keyword in keywords)] *)
Definition any_keyword (keywords : list string) (query : string) : bool :=
  existsb (fun keyword => Str.contains keyword query) keywords.

Definition _classify_intent (query : string) : string :=
  if any_keyword summary_keywords query then "summary"
  else if any_keyword analysis_keywords query then "analysis"
  else if any_keyword bug_keywords query then "bug_check"
  else if any_keyword specific_keywords query then "specific"
  else "general".

Definition question_word_list : list string :=
  ["what"; "how"; "why"; "when"; "where"; "which"].

(** [len(query.split())] *)
Definition word_count (query : string) : Z :=
  Z.of_nat (length (Str.split query)).

(** [len([w for w in query.split() if w in [...]])] *)
Definition question_words (query : string) : Z :=
  Z.of_nat (length (filter (fun w => w ∈ question_word_list) (Str.split query))).

Definition _assess_complexity (query : string) : string :=
  if (word_count query >? 15) || (question_words query >? 2) then "high"
  else if (word_count query >? 8) || (question_words query >? 1) then "medium"
  else "low".

(** [\b[A-Z][a-z]*[A-Z][a-zA-Z]*\b] *)
Definition camel_case_re : regex :=
  Seq WordB (Seq (Chr Str.is_upper) (Seq (Star (Chr Str.is_lower))
    (Seq (Chr Str.is_upper) (Seq (Star (Chr Str.is_alpha)) WordB)))).

Definition word_or_dot (c : ascii) : bool :=
  Str.is_word c || Ascii.eqb c "."%char.

(** [\b\w+\(\)|[\w\.]+\.\w+|\w+\[\]] *)
Definition code_pattern_re : regex :=
  Alt (Seq WordB (Seq (Plus (Chr Str.is_word))
         (Seq (Lit "("%char) (Lit ")"%char))))
   (Alt (Seq (Plus (Chr word_or_dot))
           (Seq (Lit "."%char) (Plus (Chr Str.is_word))))
        (Seq (Plus (Chr Str.is_word)) (Seq (Lit "["%char) (Lit "]"%char)))).

Definition specific_terms (query : string) : Z :=
  Z.of_nat (length (findall camel_case_re query)).

Definition code_patterns (query : string) : Z :=
  Z.of_nat (length (findall code_pattern_re query)).

Definition _assess_specificity (query : string) : string :=
  if (specific_terms query >? 2) || (code_patterns query >? 1) then "high"
  else if (specific_terms query >? 0) || (code_patterns query >? 0) then "medium"
  else "low".

(** The table of [_calculate_base_k], a dict of dicts. *)
Definition k_row (low medium high : Z) : gmap string Z :=
  <["low" := low]> (<["medium" := medium]> (<["high" := high]> ∅)).

Definition base_values : gmap string (gmap string Z) :=
  <["specific" := k_row 3 5 8]>
  (<["general" := k_row 5 8 12]>
  (<["summary" := k_row 8 15 25]>
  (<["analysis" := k_row 10 18 30]>
  (<["bug_check" := k_row 12 20 35]> ∅)))).

(** [base_values.get(intent, {...})[complexity]]; [None] is the
    [KeyError] of the subscript. *)
Definition _calculate_base_k (intent complexity : string) : option Z :=
  default (k_row 5 8 12) (base_values !! intent) !! complexity.

Record QueryAnalysis : Type := mkAnalysis {
  intent : string;
  complexity : string;
  specificity : string;
  base_k : Z;
  should_rerank : bool;
  rerank_top_n : Z
}.

Definition rerank_intents : list string := ["summary"; "analysis"; "bug_check"].

Definition analyze_query (query : string) : option QueryAnalysis :=
  let query_lower := Str.lower query in
  let intent := _classify_intent query_lower in
  let complexity := _assess_complexity query_lower in
  let specificity := _assess_specificity query_lower in
  base_k ← _calculate_base_k intent complexity;
  let should_rerank := bool_decide (intent ∈ rerank_intents) in
  Some {| intent := intent;
          complexity := complexity;
          specificity := specificity;
          base_k := base_k;
          should_rerank := should_rerank;
          rerank_top_n := if should_rerank then Z.max 3 (base_k / 2) else base_k |}.

(** ** EnhancedPineconeManager.smart_retrieve *)

(** [rerank] entry and keyword arguments of [self.index.search]. *)
Record rerank_params : Type := mkRerank {
  rr_model : string;
  rr_top_n : Z;
  rr_rank_fields : list string
}.

Record search_params : Type := mkSearch {
  sp_namespace : string;
  sp_text : string;
  sp_top_k : Z;
  sp_fields : list string;
  sp_rerank : option rerank_params
}.

(** A hit of the search result: [hit['fields']['chunk_text']] is read by
    subscript, the other fields and [_score] by [.get] with a default.  The
    search asks for the field [chunk_text], the one every stored record is
    embedded by; a hit without it is outside the model. *)
Record raw_hit (score_t : Type) : Type := mkHit {
  chunk_text : string;
  hit_file_name : option string;
  hit_file_path : option string;
  hit_language : option string;
  hit_score : option score_t
}.
Arguments mkHit {score_t}.
Arguments chunk_text {score_t}.
Arguments hit_file_name {score_t}.
Arguments hit_file_path {score_t}.
Arguments hit_language {score_t}.
Arguments hit_score {score_t}.

(** An entry of [processed_results]. *)
Record chunk_info (score_t : Type) : Type := mkChunk {
  text : string;
  file_name : string;
  file_path : string;
  language : string;
  score : score_t;
  reranked : bool
}.
Arguments mkChunk {score_t}.
Arguments text {score_t}.
Arguments file_name {score_t}.
Arguments file_path {score_t}.
Arguments language {score_t}.
Arguments score {score_t}.
Arguments reranked {score_t}.

Section Retrieval.

(** The type of relevance scores (a float in the source) and the [0] that
    stands in for a missing [_score]. *)
Context {score_t : Type} (score_zero : score_t).

(** [self.index.search] on the search parameters: [None] when the call raises,
    otherwise the list under [results['result']['hits']] (empty when the
    result or one of the two keys is missing). *)
Variable search : search_params -> option (list (raw_hit score_t)).

(** [len(chunk_text) // 4] *)
Definition estimated_tokens (hit : raw_hit score_t) : Z :=
  Str.len (chunk_text hit) / 4.

Definition process_hit (rerank : bool) (hit : raw_hit score_t)
    : chunk_info score_t :=
  {| text := chunk_text hit;
     file_name := default "unknown" (hit_file_name hit);
     file_path := default "unknown" (hit_file_path hit);
     language := default "unknown" (hit_language hit);
     score := default score_zero (hit_score hit);
     reranked := rerank |}.

(** The [for hit in results['result']['hits']] loop with its two
    accumulators; the first branch is the [break]. *)
Fixpoint token_loop (rerank : bool) (max_tokens : Z)
    (hits : list (raw_hit score_t))
    (processed_results : list (chunk_info score_t)) (total_tokens : Z)
    : list (chunk_info score_t) * Z :=
  match hits with
  | [] => (processed_results, total_tokens)
  | hit :: hits' =>
      if total_tokens + estimated_tokens hit >? max_tokens
      then (processed_results, total_tokens)
      else token_loop rerank max_tokens hits'
             (processed_results ++ [process_hit rerank hit])
             (total_tokens + estimated_tokens hit)
  end.

(** Lines 292-317: the context bundle built from the hits. *)
Definition assemble (rerank : bool) (max_tokens : Z)
    (hits : list (raw_hit score_t)) : list (chunk_info score_t) :=
  fst (token_loop rerank max_tokens hits [] 0).

Definition build_search_params (analysis : QueryAnalysis)
    (query namespace : string) : search_params :=
  {| sp_namespace := namespace;
     sp_text := query;
     sp_top_k := base_k analysis;
     sp_fields := ["chunk_text"; "file_name"; "file_path"; "language"];
     sp_rerank :=
       if should_rerank analysis
       then Some {| rr_model := "bge-reranker-v2-m3";
                    rr_top_n := rerank_top_n analysis;
                    rr_rank_fields := ["chunk_text"] |}
       else None |}.

(** [smart_retrieve]: whatever is raised inside the [try] ends in
    [return []].  [max_tokens] is [None] when the request carried a null
    budget ([Optional[int]] in [QueryRequest]); comparing with it raises
    at the first hit. *)
Definition smart_retrieve (query namespace : string) (max_tokens : option Z)
    : list (chunk_info score_t) :=
  match analyze_query query with
  | None => []
  | Some analysis =>
      match search (build_search_params analysis query namespace) with
      | None => []
      | Some [] => []
      | Some hits =>
          match max_tokens with
          | None => []
          | Some budget => assemble (should_rerank analysis) budget hits
          end
      end
  end.

End Retrieval.

(** ** The session and the chat handler of [main.py] *)

Record Session : Type := mkSession {
  namespace : string;
  path : option string;
  files_processed : Z
}.

Record QueryRequest : Type := mkRequest {
  message : string;
  max_tokens : option Z
}.

(** The value under a file name in [file_summary]. *)
Record file_stat : Type := mkStat {
  count : Z;
  stat_language : string
}.

(** The [metadata] object of a chat answer; a key that the answer does not
    carry is [None]. *)
Record chat_metadata : Type := mkMeta {
  chunks_found : Z;
  files_involved : option Z;
  file_summary : option (list (string * file_stat));
  retrieval_reranked : option bool
}.

Inductive chat_result : Type :=
| JSONResponse (success : bool) (response : string) (metadata : chat_metadata)
| HTTPException500 (detail : string).

(** What the handler calls outside itself. *)
Inductive call : Type :=
| CallSmartRetrieve (query namespace : string) (max_tokens : option Z)
| CallAskLLM (prompt : string).

Definition not_ready_message : string :=
  "No code repository has been uploaded yet. Please upload files or connect a GitHub repository first.".

Definition nothing_found_message : string :=
  "I couldn't find relevant information in the uploaded code. Please try rephrasing your question or check if files were properly uploaded.".

Definition only_chunks_found (n : Z) : chat_metadata :=
  {| chunks_found := n; files_involved := None; file_summary := None;
     retrieval_reranked := None |}.

Definition not_ready_response : chat_result :=
  JSONResponse false not_ready_message (only_chunks_found 0).

Definition nl : string := String "010"%char EmptyString.

Definition str_of_nat (n : nat) : string :=
  NilEmpty.string_of_uint (Nat.to_uint n).

(** [if file_name not in file_summary: ...] followed by the [count += 1];
    the dict keeps its keys in the order of first insertion. *)
Fixpoint track_file (name lang : string) (summary : list (string * file_stat))
    : list (string * file_stat) :=
  match summary with
  | [] => [(name, {| count := 0 + 1; stat_language := lang |})]
  | (n, st) :: rest =>
      if String.eqb n name
      then (n, {| count := count st + 1; stat_language := stat_language st |}) :: rest
      else (n, st) :: track_file name lang rest
  end.

Section Chat.

Context {score_t : Type} (score_zero : score_t).
Variable search : search_params -> option (list (raw_hit score_t)).
(** [ask_llm]: the answer, or the text of the exception it raised. *)
Variable ask_llm : string -> string + string.
(** The [.4f] rendering of a score. *)
Variable format_score : score_t -> string.
(** [os.path.exists] *)
Variable path_exists : string -> bool.

(** Truth value of [current_session.get("path")]. *)
Definition path_truthy (s : Session) : bool :=
  match path s with
  | Some p => negb (String.eqb p "")
  | None => false
  end.

(** [get_session_info]: the [has_data] flag. *)
Definition has_data (s : Session) : bool :=
  match path s with
  | Some p => path_exists p && (files_processed s >? 0)
  | None => false
  end.

Definition context_part (c : chunk_info score_t) : string :=
  ("**File: " +:+ file_name c +:+ "** (Language: " +:+ language c +:+
   ", Score: " +:+ format_score (score c) +:+ ")") +:+ nl +:+ text c.

Definition summarize (chunks : list (chunk_info score_t))
    : list (string * file_stat) :=
  fold_left (fun summary c => track_file (file_name c) (language c) summary)
    chunks [].

Definition enhanced_query (summary : list (string * file_stat))
    (chunks : list (chunk_info score_t)) (msg : string) : string :=
  nl +:+ "Based on the following code context from "
    +:+ str_of_nat (length summary) +:+ " files with "
    +:+ str_of_nat (length chunks) +:+ " relevant chunks:" +:+ nl +:+ nl
    +:+ "FILES INVOLVED: "
    +:+ String.concat ", "
          (map (fun e => fst e +:+ " (" +:+ stat_language (snd e) +:+ ")") summary)
    +:+ nl +:+ nl +:+ "CONTEXT:" +:+ nl
    +:+ String.concat (nl +:+ nl +:+ "---" +:+ nl +:+ nl) (map context_part chunks)
    +:+ nl +:+ nl +:+ "QUESTION: " +:+ msg +:+ nl +:+ nl
    +:+ "Please provide a comprehensive answer based on the code context above. Include file names when referencing specific code snippets."
    +:+ nl.

(** [chat]: the calls made, in order, and the answer. *)
Definition chat (current_session : Session) (request : QueryRequest)
    : list call * chat_result :=
  if negb (path_truthy current_session) || (files_processed current_session =? 0)
  then ([], not_ready_response)
  else
    let retrieve :=
      CallSmartRetrieve (message request) (namespace current_session)
        (max_tokens request) in
    let retrieved_chunks :=
      smart_retrieve score_zero search (message request)
        (namespace current_session) (max_tokens request) in
    match retrieved_chunks with
    | [] => ([retrieve],
             JSONResponse true nothing_found_message (only_chunks_found 0))
    | first :: _ =>
        let summary := summarize retrieved_chunks in
        let prompt := enhanced_query summary retrieved_chunks (message request) in
        match ask_llm prompt with
        | inr detail => ([retrieve; CallAskLLM prompt], HTTPException500 detail)
        | inl response =>
            ([retrieve; CallAskLLM prompt],
             JSONResponse true response
               {| chunks_found := Z.of_nat (length retrieved_chunks);
                  files_involved := Some (Z.of_nat (length summary));
                  file_summary := Some summary;
                  retrieval_reranked := Some (reranked first) |})
        end
    end.

End Chat.

(** ** [os.path] on POSIX paths, and [_get_file_type] *)

Module Path.

(** [s.rfind(c)] for a character [c]: its last index in [s], or -1. *)
Fixpoint rfind (c : ascii) (s : string) : Z :=
  match s with
  | EmptyString => -1
  | String x s' =>
      let r := rfind c s' in
      if 0 <=? r then r + 1 else if Ascii.eqb x c then 0 else -1
  end.

(** [s[n:]] and [s[:n]] for an index that is not negative. *)
Fixpoint sdrop (n : nat) (s : string) : string :=
  match n, s with
  | O, _ => s
  | S n', String _ s' => sdrop n' s'
  | S _, EmptyString => EmptyString
  end.

Fixpoint stake (n : nat) (s : string) : string :=
  match n, s with
  | O, _ => EmptyString
  | S n', String x s' => String x (stake n' s')
  | S _, EmptyString => EmptyString
  end.

(** The [while] loop of [genericpath._splitext], [n] rounds from
    [filenameIndex] on: true when it ends without meeting a character that
    is no dot. *)
Fixpoint leading_dots_only (p : string) (filenameIndex : Z) (n : nat) : bool :=
  match n with
  | O => true
  | S n' =>
      match String.get (Z.to_nat filenameIndex) p with
      | Some x =>
          if Ascii.eqb x "."%char
          then leading_dots_only p (filenameIndex + 1) n'
          else false
      | None => false
      end
  end.

(** [os.path.splitext(p)] *)
Definition splitext (p : string) : string * string :=
  let sepIndex := rfind "/"%char p in
  let dotIndex := rfind "."%char p in
  if (dotIndex >? sepIndex) &&
     negb (leading_dots_only p (sepIndex + 1)
             (Z.to_nat (dotIndex - (sepIndex + 1))))
  then (stake (Z.to_nat dotIndex) p, sdrop (Z.to_nat dotIndex) p)
  else (p, EmptyString).

(** [os.path.basename(p)] *)
Definition basename (p : string) : string :=
  sdrop (Z.to_nat (rfind "/"%char p + 1)) p.

End Path.

(** The dict literal of [_get_file_type], entry by entry; a later entry for
    a key replaces the earlier one. *)
Definition type_map_entries : list (string * string) :=
  [(".py", "python"); (".js", "javascript"); (".jsx", "javascript");
   (".ts", "typescript"); (".tsx", "typescript");
   (".java", "java"); (".cpp", "cpp"); (".c", "c");
   (".html", "html"); (".css", "css"); (".md", "markdown");
   (".json", "json"); (".yaml", "yaml"); (".yml", "yaml");
   (".ipynb", "python"); (".md", "markdown");
   (".sql", "sql"); (".csv", "csv");
   (".go", "go"); (".rs", "rust"); (".php", "php"); (".rb", "ruby");
   (".swift", "swift"); (".kt", "kotlin"); (".cs", "csharp"); (".vb", "vb")].

Definition type_map : gmap string string :=
  fold_left (fun m kv => <[fst kv := snd kv]> m) type_map_entries ∅.

(** [_get_file_type]; [None] is a [file_path] of [None]. *)
Definition _get_file_type (file_path : option string) : string :=
  match file_path with
  | None => "unknown"
  | Some p =>
      if String.eqb p "" then "unknown"
      else
        let ext := Str.lower (snd (Path.splitext p)) in
        default "code" (type_map !! ext)
  end.

(** ** Upserting records: [upsert_documents] and [batch_upsert_documents] *)

(** A LangChain [Document]. *)
Record Document : Type := mkDocument {
  page_content : string;
  metadata : gmap string string
}.

(** A record handed to [index.upsert_records]; the identifier sits under
    the key [rec_id_key], and [rec_file_path] is [None] when the record has
    no such key. *)
Record upsert_record : Type := mkRecord {
  rec_id_key : string;
  rec_id : string;
  rec_chunk_text : string;
  rec_file_name : string;
  rec_file_path : option string;
  rec_chunk_index : Z;
  rec_language : string
}.

(** An index of a slice, as Python adjusts it for a list of length [n]. *)
Definition py_index (n i : Z) : Z :=
  if i <? 0 then Z.max 0 (i + n) else Z.min i n.

(** [l[start:stop]] *)
Definition py_slice {A : Type} (l : list A) (start stop : Z) : list A :=
  let n := Z.of_nat (length l) in
  let a := py_index n start in
  let b := py_index n stop in
  take (Z.to_nat (b - a)) (drop (Z.to_nat a) l).

(** Truth value of [file_path]. *)
Definition path_given (file_path : option string) : bool :=
  match file_path with
  | Some p => negb (String.eqb p "")
  | None => false
  end.

Section Upsert.

(** The identifier that [uuid.uuid4()] draws for the record at a position. *)
Variable uuid4 : nat -> string.

(** [self.index.upsert_records(namespace, records)]: false when it raises. *)
Variable upsert_records : string -> list upsert_record -> bool.

Definition batch_record (namespace : string) (i : nat) (chunk : Document)
    : upsert_record :=
  {| rec_id_key := "_id";
     rec_id := namespace +:+ "-" +:+ uuid4 i;
     rec_chunk_text := page_content chunk;
     rec_file_name := default "unknown" (metadata chunk !! "file_name");
     rec_file_path := None;
     rec_chunk_index := Z.of_nat i;
     rec_language := default "unknown" (metadata chunk !! "language") |}.

(** The [for batch_num in range(total_batches)] loop: the batches handed
    to the index, and whether all of them went through. *)
Fixpoint upsert_batches (namespace : string) (all_records : list upsert_record)
    (batch_size : Z) (batch_nums : list Z)
    : list (string * list upsert_record) * bool :=
  match batch_nums with
  | [] => ([], true)
  | batch_num :: rest =>
      let start_idx := batch_num * batch_size in
      let end_idx :=
        Z.min (start_idx + batch_size) (Z.of_nat (length all_records)) in
      let batch_records := py_slice all_records start_idx end_idx in
      if upsert_records namespace batch_records
      then
        let (calls, ok) := upsert_batches namespace all_records batch_size rest in
        ((namespace, batch_records) :: calls, ok)
      else ([(namespace, batch_records)], false)
  end.

(** [batch_upsert_documents]: the calls made and the boolean returned; a
    [batch_size] of 0 raises in the division and ends in [False]. *)
Definition batch_upsert_documents (chunks : list Document) (namespace : string)
    (batch_size : Z) : list (string * list upsert_record) * bool :=
  match chunks with
  | [] => ([], false)
  | _ :: _ =>
      let all_records := imap (batch_record namespace) chunks in
      if batch_size =? 0 then ([], false)
      else
        let total_batches :=
          (Z.of_nat (length all_records) + batch_size - 1) / batch_size in
        upsert_batches namespace all_records batch_size (seqZ 0 total_batches)
  end.

Definition document_record (namespace : string) (file_path : option string)
    (i : nat) (chunk : Document) : upsert_record :=
  {| rec_id_key := "id";
     rec_id := namespace +:+ "-" +:+ uuid4 i;
     rec_chunk_text := page_content chunk;
     rec_file_name :=
       if path_given file_path
       then Path.basename (default "" file_path) else "unknown";
     rec_file_path :=
       Some (if path_given file_path then default "" file_path else "unknown");
     rec_chunk_index := Z.of_nat i;
     rec_language := _get_file_type file_path |}.

(** [upsert_documents]: one call with all records. *)
Definition upsert_documents (chunks : list Document) (namespace : string)
    (file_path : option string) : list (string * list upsert_record) * bool :=
  match chunks with
  | [] => ([], false)
  | _ :: _ =>
      let records := imap (document_record namespace file_path) chunks in
      ([(namespace, records)], upsert_records namespace records)
  end.

End Upsert.

(** ** [document_loader.py]: which files are loaded *)

(** The list literal [SUPPORTED_EXTENSIONS].  No comma stands between
    [".txt"] and [".sql"] in the source, so the two literals are one
    string. *)
Definition SUPPORTED_EXTENSIONS : list string :=
  [".py"; ".js"; ".ts"; ".jsx"; ".tsx"; ".java"; ".c"; ".cpp"; ".go"; ".rs";
   ".php"; ".rb"; ".swift"; ".kt"; ".cs"; ".vb";
   ".html"; ".css"; ".json"; ".xml"; ".yml"; ".yaml";
   ".ipynb"; ".md"; ".txt" +:+ ".sql"; ".csv"].

Definition SKIP_DIRS : list string :=
  ["node_modules"; ".git"; "__pycache__"; ".venv"; "env"; "venv";
   ".mypy_cache"; ".pytest_cache"; ".vscode"; ".idea"; ".next";
   "dist"; "build"; "out"; ".nuxt"; "coverage"; ".nyc_output";
   "target"; "bin"; "obj"; ".gradle"; ".mvn"].

Definition SKIP_FILES : list string :=
  ["package-lock.json"; "package.json"; "yarn.lock"; "pnpm-lock.yaml";
   "poetry.lock"; "Pipfile.lock"; "pyproject.toml"; "setup.py";
   "setup.cfg"; "environment.yml"; "Dockerfile";
   ".gitignore"; ".env"; ".env.local"; ".env.example"].

Definition SKIP_FILE_PATTERNS : list string :=
  ["*.config.js"; "*.config.ts"; "*.config.cjs"; "*.config.mjs";
   "tsconfig*.json"; "*.d.ts"; "*.map"; "*.min.js"; "*.min.css";
   "webpack*.js"; "rollup*.js"; "vite*.js"; "jest*.js";
   "*.lock"; "*.log"; "*.tmp"; "*.cache"; "*.env*"].

(** [fnmatch.fnmatch(name, pat)] on POSIX for patterns of literal
    characters, [*] and [?] (the patterns above hold no bracket): the
    whole name has to match. *)
Fixpoint fnmatch_pat (pat : string) : string -> bool :=
  match pat with
  | EmptyString => fun name => String.eqb name ""
  | String c pat' =>
      if Ascii.eqb c "*"%char then
        fix star (name : string) : bool :=
          fnmatch_pat pat' name ||
          match name with
          | String _ name' => star name'
          | EmptyString => false
          end
      else if Ascii.eqb c "?"%char then
        fun name =>
          match name with
          | String _ name' => fnmatch_pat pat' name'
          | EmptyString => false
          end
      else
        fun name =>
          match name with
          | String x name' => Ascii.eqb x c && fnmatch_pat pat' name'
          | EmptyString => false
          end
  end.

Definition fnmatch (name pat : string) : bool := fnmatch_pat pat name.

(** What [os.walk] finds in a directory, in the order of its listing: a
    file with its text ([None] when reading it as UTF-8 raises), or a
    directory with what it holds. *)
#[warnings="-register-all"]
Inductive entry : Type :=
| File (name : string) (content : option string)
| Dir (name : string) (children : list entry).

(** [os.path.join(root, name)] *)
Definition ends_with_slash (p : string) : bool :=
  String.eqb (Path.sdrop (String.length p - 1) p) "/".

Definition join (root name : string) : string :=
  if Str.starts_with "/" name then name
  else if String.eqb root "" || ends_with_slash root then root +:+ name
  else root +:+ "/" +:+ name.

(** The body of the [for file in files] loop: the tests that let a file
    through to the [open]. *)
Definition keep_file (file : string) : bool :=
  negb (bool_decide (file ∈ SKIP_FILES)) &&
  negb (existsb (fun pattern => fnmatch file pattern) SKIP_FILE_PATTERNS) &&
  bool_decide (Str.lower (snd (Path.splitext file)) ∈ SUPPORTED_EXTENSIONS).

(** The documents of the files of one directory. *)
Fixpoint load_files (root : string) (entries : list entry) : list Document :=
  match entries with
  | [] => []
  | File file (Some content) :: rest =>
      if keep_file file
      then {| page_content := content;
              metadata := {[ "source" := join root file ]} |}
           :: load_files root rest
      else load_files root rest
  | _ :: rest => load_files root rest
  end.

(** [os.walk] from a directory down, the skipped directories pruned: the
    files of the directory first, then its subdirectories in order. *)
Fixpoint walk_entry (root : string) (e : entry) {struct e} : list Document :=
  match e with
  | File _ _ => []
  | Dir name children =>
      if bool_decide (name ∈ SKIP_DIRS) then []
      else
        let path := join root name in
        load_files path children ++
        (fix walk_all (es : list entry) : list Document :=
           match es with
           | [] => []
           | e' :: es' => walk_entry path e' ++ walk_all es'
           end) children
  end.

(** [load_code_files(folder_path)] for a folder that holds [entries]. *)
Definition load_code_files (folder_path : string) (entries : list entry)
    : list Document :=
  load_files folder_path entries ++
  flat_map (walk_entry folder_path) entries.

(** ** The session operations of [main.py]: reset and the two uploads *)

(** [generate_new_session()], [fresh] being the [uuid4] that is drawn. *)
Definition generate_new_session (fresh : string) : Session :=
  {| namespace := fresh; path := None; files_processed := 0 |}.

(** The process state that the handlers share: the session and the paths
    that exist on disk. *)
Record World : Type := mkWorld {
  current_session : Session;
  disk : string -> bool
}.

(** How an upload ends: the JSON answer with its message and namespace, or
    the [HTTPException(500)] into which every exception is turned; its
    detail is the text of that exception. *)
Inductive upload_result : Type :=
| UploadOK (message namespace : string)
| Upload500 (detail : string).

(** [str(HTTPException(400, detail))] *)
Definition http400 (detail : string) : string := "400: " +:+ detail.

Section Uploads.

Variable uuid4 : nat -> string.
Variable upsert_records : string -> list upsert_record -> bool.

(** [RecursiveCharacterTextSplitter(chunk_size, chunk_overlap,
    separators).split_documents(documents)], the external splitter: the
    chunks, or the text of the exception that building or running it
    raises (it refuses an overlap larger than the chunk size). *)
Variable split_documents : Z -> Z -> list Document -> list Document + string.

(** [clone_repo(repo_url, base_dir=DATA_DIR)]: the folder, or the text of
    the exception. *)
Variable clone_repo : string -> string + string.

(** What [os.walk] finds in a folder. *)
Variable folder_entries : string -> list entry.

(** [shutil.rmtree(path, ignore_errors=True)] on the paths that exist. *)
Variable rmtree : string -> (string -> bool) -> string -> bool.

(** [chunk_documents(documents, chunk_size, chunk_overlap)] *)
Definition chunk_documents (documents : list Document)
    (chunk_size chunk_overlap : Z) : list Document + string :=
  split_documents chunk_size chunk_overlap documents.

(** [reset_session]: the new state and the namespace in the answer. *)
Definition reset_session (w : World) (fresh : string) : World * string :=
  let s := current_session w in
  let disk' :=
    match path s with
    | Some p =>
        if negb (String.eqb p "") && disk w p then rmtree p (disk w) else disk w
    | None => disk w
    end in
  ({| current_session := generate_new_session fresh; disk := disk' |}, fresh).

(** [doc.metadata.get('source', 'unknown')] *)
Definition source_of (doc : Document) : string :=
  default "unknown" (metadata doc !! "source").

(** [chunk.metadata.update({...})] in [upload_github]. *)
Definition tag_chunk (file_path : string) (chunk : Document) : Document :=
  {| page_content := page_content chunk;
     metadata :=
       <["language" := _get_file_type (Some file_path)]>
       (<["file_name" := Path.basename file_path]>
       (<["file_path" := file_path]> (metadata chunk))) |}.

(** The [for doc in documents] loop of [upload_github]: [all_chunks], or
    the text of the exception that ends the loop.  The splitter runs with
    the defaults of [chunk_documents], and every chunk is tagged with the
    file it comes from. *)
Fixpoint github_loop (documents : list Document) : list Document + string :=
  match documents with
  | [] => inl []
  | doc :: rest =>
      match chunk_documents [doc] 800 100 with
      | inr detail => inr detail
      | inl chunks =>
          match github_loop rest with
          | inr detail => inr detail
          | inl all_chunks =>
              inl (map (tag_chunk (source_of doc)) chunks ++ all_chunks)
          end
      end
  end.

(** [upload_github]: the session afterwards, the calls to the index, and
    the answer.  The boolean of [batch_upsert_documents] is bound to
    [success] and not read again; the form fields [chunk_size] and
    [chunk_overlap] are not read at all. *)
Definition upload_github (s : Session) (repo_url : string)
    (chunk_size chunk_overlap : Z)
    : Session * list (string * list upsert_record) * upload_result :=
  match clone_repo repo_url with
  | inr detail => (s, [], Upload500 detail)
  | inl folder =>
      let s1 := {| namespace := namespace s; path := Some folder;
                   files_processed := files_processed s |} in
      let documents := load_code_files folder (folder_entries folder) in
      match documents with
      | [] =>
          (s1, [], Upload500 (http400 "No valid code files found in repository"))
      | _ :: _ =>
          match github_loop documents with
          | inr detail => (s1, [], Upload500 detail)
          | inl all_chunks =>
              let processed_files := length documents in
              let calls :=
                match all_chunks with
                | [] => []
                | _ :: _ =>
                    fst (batch_upsert_documents uuid4 upsert_records all_chunks
                           (namespace s) 50)
                end in
              ({| namespace := namespace s; path := Some folder;
                  files_processed := Z.of_nat processed_files |},
               calls,
               UploadOK
                 ("Repository processed: " +:+ str_of_nat (length all_chunks)
                  +:+ " chunks from " +:+ str_of_nat processed_files
                  +:+ " files")
                 (namespace s))
          end
      end
  end.

(** The [for doc in documents] loop of [upload_files]: the calls made, and
    the two counters [total_chunks] and [processed_files] at its end or
    the text of the exception that ends it.  [drawn] counts the
    identifiers drawn so far: every call of [upsert_documents] draws one
    for each of its chunks. *)
Fixpoint upload_loop (ns : string) (chunk_size chunk_overlap : Z)
    (documents : list Document) (drawn total_chunks processed_files : nat)
    : list (string * list upsert_record) * (nat * nat + string) :=
  match documents with
  | [] => ([], inl (total_chunks, processed_files))
  | doc :: rest =>
      match chunk_documents [doc] chunk_size chunk_overlap with
      | inr detail => ([], inr detail)
      | inl [] =>
          upload_loop ns chunk_size chunk_overlap rest drawn total_chunks
            processed_files
      | inl ((_ :: _) as chunks) =>
          let (calls, success) :=
            upsert_documents (fun i => uuid4 (drawn + i)) upsert_records chunks
              ns (Some (source_of doc)) in
          let drawn' := (drawn + length chunks)%nat in
          let (calls', counters) :=
            if success
            then upload_loop ns chunk_size chunk_overlap rest drawn'
                   (total_chunks + length chunks) (processed_files + 1)
            else upload_loop ns chunk_size chunk_overlap rest drawn'
                   total_chunks processed_files in
          (calls ++ calls', counters)
      end
  end.

(** [upload_files] from the directory [temp_dir] that [mkdtemp] made, with
    the chunking parameters read from the config; [save_error] is the text
    of the exception that writing the uploaded files raised, if one did,
    and [uuid4] gives the identifiers in the order in which the request
    draws them. *)
Definition upload_files (s : Session) (temp_dir : string)
    (save_error : option string) (chunk_size chunk_overlap : Z)
    : Session * list (string * list upsert_record) * upload_result :=
  let s1 := {| namespace := namespace s; path := Some temp_dir;
               files_processed := files_processed s |} in
  match save_error with
  | Some detail => (s1, [], Upload500 detail)
  | None =>
      let documents := load_code_files temp_dir (folder_entries temp_dir) in
      match documents with
      | [] => (s1, [], Upload500 (http400 "No valid code files found"))
      | _ :: _ =>
          match upload_loop (namespace s) chunk_size chunk_overlap documents
                  0 0 0 with
          | (calls, inr detail) => (s1, calls, Upload500 detail)
          | (calls, inl (total_chunks, processed_files)) =>
              ({| namespace := namespace s; path := Some temp_dir;
                  files_processed := Z.of_nat processed_files |},
               calls,
               UploadOK
                 ("Processed " +:+ str_of_nat total_chunks +:+ " chunks from "
                  +:+ str_of_nat processed_files +:+ " files")
                 (namespace s))
          end
      end
  end.

End Uploads.

(** ** Reading a file for [explain_file] *)

(** A file on disk as [read_file_with_limit] sees it: the size that
    [os.path.getsize] reports and the lines that iterating over it gives,
    each with its line end (decoding errors are ignored, so the text is
    their concatenation). *)
Record disk_file : Type := mkFile {
  file_size : Z;
  file_lines : list string
}.

Definition str_of_Z (n : Z) : string :=
  NilEmpty.string_of_int (Z.to_int n).

(** [''.join(lines)] *)
Definition join_lines (lines : list string) : string :=
  foldr String.append EmptyString lines.

(** [read_file_with_limit]; a file of [None] is one whose [getsize] or
    [open] raises, and the answer [None] is the [return None] of the
    handler. *)
Definition read_file_with_limit (f : option disk_file)
    (max_size_kb max_lines : Z) : option string :=
  match f with
  | None => None
  | Some file =>
      if file_size file >? max_size_kb * 1024
      then
        let lines := take (Z.to_nat max_lines) (file_lines file) in
        Some (join_lines lines +:+ nl +:+ nl
              +:+ "... (File truncated - showing first " +:+ str_of_Z max_lines
              +:+ " lines of " +:+ str_of_Z (file_size file / 1024)
              +:+ "KB file)")
      else Some (join_lines (file_lines file))
  end.

(** The [metadata] of the answers of [try_direct_explanation]. *)
Inductive direct_metadata : Type :=
| ReadError
| DirectRead (file_name : string) (file_size_kb : Z) (was_truncated : bool)
| DirectError.

Definition direct_prompt (file_name : string) (file_size_kb : Z)
    (content : string) (is_truncated : bool) : string :=
  nl +:+ "Please explain the file **" +:+ file_name +:+ "** (Size: "
  +:+ str_of_Z file_size_kb +:+ "KB):" +:+ nl +:+ nl +:+ content +:+ nl +:+ nl
  +:+ nl
  +:+ ("Note: This file was not embedded in the vector database, so I'm reading it directly."
       +:+ (if is_truncated then " Content is truncated due to size." else ""))
  +:+ nl +:+ nl +:+ "Please provide:" +:+ nl
  +:+ "1. **Purpose**: What this file does" +:+ nl
  +:+ "2. **Key Components**: Main functions, classes, sections" +:+ nl
  +:+ "3. **Dependencies**: Imports and external dependencies  " +:+ nl
  +:+ "4. **Configuration**: If it's a config file, explain the settings" +:+ nl
  +:+ "5. **Role**: How it fits in the project" +:+ nl.

(** [try_direct_explanation]: the prompts sent to the model, the success
    flag, the response text and the metadata. *)
Definition try_direct_explanation (ask_llm : string -> string + string)
    (abs_path : string) (f : option disk_file)
    : list string * (bool * string * direct_metadata) :=
  match read_file_with_limit f 150 600 with
  | None | Some EmptyString =>
      ([], (false,
            "Could not read file " +:+ Path.basename abs_path
            +:+ ". It may be binary or corrupted.",
            ReadError))
  | Some content =>
      let file_name := Path.basename abs_path in
      let file_size_kb := default 0 (file_size <$> f) / 1024 in
      let is_truncated := Str.contains "truncated" (Str.lower content) in
      let prompt := direct_prompt file_name file_size_kb content is_truncated in
      match ask_llm prompt with
      | inl response =>
          ([prompt],
           (true, response, DirectRead file_name file_size_kb is_truncated))
      | inr detail =>
          ([prompt], (false, "Error reading file: " +:+ detail, DirectError))
      end
  end.

(** * Vocabulary of the statements, and sample data *)

(** [k] occurs in [s]: some text, then [k], then some text. *)
Definition occurs_in (k s : string) : Prop :=
  exists pre post : string, s = pre +:+ k +:+ post.

(** Some keyword of the list occurs in the query. *)
Definition mentions (keywords : list string) (q : string) : Prop :=
  exists k : string, k ∈ keywords /\ occurs_in k q.

(** The keys of the table: its rows, in the order of the source, and the
    columns of every row. *)
Definition intents : list string :=
  ["specific"; "general"; "summary"; "analysis"; "bug_check"].

Definition levels : list string := ["low"; "medium"; "high"].

(** Case analysis on membership in a list that is written out. *)
Ltac list_cases H :=
  repeat (apply elem_of_cons in H as [H | H]; [subst |]);
  try (apply elem_of_nil in H; destruct H).

(** The queries of the scenarios. *)
Definition architecture_query : string :=
  "explain the architecture of this project".

(** A question of twenty words, three of them interrogatives. *)
Definition twenty_word_question : string :=
  "what does the loader do and how does it pick files and why does it skip some of them here".

Definition three_classes : string := "MyClass MyClass MyClass".

(** The estimated tokens of a list of hits, and of a bundle. *)
Definition cost_sum {score_t : Type} (hits : list (raw_hit score_t)) : Z :=
  foldr (fun hit acc => estimated_tokens hit + acc) 0 hits.

Definition bundle_tokens {score_t : Type} (bundle : list (chunk_info score_t)) : Z :=
  foldr (fun c acc => Str.len (text c) / 4 + acc) 0 bundle.

(** A hit whose text has [n] characters. *)
Definition hit_of_length (n : nat) : raw_hit Z :=
  {| chunk_text := Str.replicate n "a"%char;
     hit_file_name := Some "main.py";
     hit_file_path := None;
     hit_language := Some "python";
     hit_score := None |}.

(** A search that answers two hits, a model that answers, a rendering of
    scores, a session after an upload and a request. *)
Definition two_hits (_ : search_params) : option (list (raw_hit Z)) :=
  Some [hit_of_length 8; hit_of_length 12].

Definition llm_ok (_ : string) : string + string := inl "ok".

Definition no_score (_ : Z) : string := "0.0000".

Definition bound_session : Session :=
  {| namespace := "ns-1"; path := Some "/tmp/rag-data/tmpab12";
     files_processed := 2 |}.

Definition summary_request : QueryRequest :=
  {| message := "Summarize the loader"; max_tokens := Some 8000 |}.

(** A disk on which no path exists, a search without hits, and the session
    of a fresh server. *)
Definition nothing_on_disk (_ : string) : bool := false.

Definition no_hits (_ : search_params) : option (list (raw_hit Z)) := Some [].

Definition fresh_session : Session :=
  {| namespace := "ns-0"; path := None; files_processed := 0 |}.

(** [s.isascii()]: every character is below 128. *)
Definition isascii_char (c : ascii) : bool :=
  match c with
  | Ascii _ _ _ _ _ _ _ b7 => negb b7
  end.

Fixpoint isascii (s : string) : bool :=
  match s with
  | EmptyString => true
  | String c s' => isascii_char c && isascii s'
  end.

(** [str.upper()] on ASCII text. *)
Definition upper_char (c : ascii) : ascii :=
  if Str.is_lower c then ascii_of_nat (nat_of_ascii c - 32) else c.

Fixpoint upper (s : string) : string :=
  match s with
  | EmptyString => EmptyString
  | String c s' => String (upper_char c) (upper s')
  end.

(** Nothing but whitespace (or nothing at all): [not s.strip()]. *)
Fixpoint blank (s : string) : bool :=
  match s with
  | EmptyString => true
  | String c s' => Str.is_space c && blank s'
  end.

(** A keyword begins with a character that is no whitespace. *)
Definition starts_solid (k : string) : bool :=
  match k with
  | EmptyString => false
  | String c _ => negb (Str.is_space c)
  end.

(** Membership in a list that is written out. *)
Ltac list_mem :=
  repeat first [apply list_elem_of_here | apply list_elem_of_further].

(** The characters of the texts of a bundle. *)
Definition bundle_chars {score_t : Type} (bundle : list (chunk_info score_t)) : Z :=
  foldr (fun c acc => Str.len (text c) + acc) 0 bundle.

(** The value under a file name in [file_summary], its count (0 when the
    name is no key), and the counts of all keys together. *)
Fixpoint summary_get (name : string) (summary : list (string * file_stat))
    : option file_stat :=
  match summary with
  | [] => None
  | (n, st) :: rest =>
      if String.eqb n name then Some st else summary_get name rest
  end.

Definition get_count (name : string) (summary : list (string * file_stat)) : Z :=
  match summary_get name summary with
  | Some st => count st
  | None => 0
  end.

Definition total_count (summary : list (string * file_stat)) : Z :=
  foldr (fun e acc => count (snd e) + acc) 0 summary.

(** The number of chunks of a bundle that come from a file. *)
Definition chunks_of_file {score_t : Type} (name : string)
    (chunks : list (chunk_info score_t)) : Z :=
  Z.of_nat (length (filter (fun c => file_name c = name) chunks)).

(** The guard of [chat] lets the request through. *)
Definition chat_open (s : Session) : bool :=
  path_truthy s && negb (files_processed s =? 0).

(** A model whose call raises. *)
Definition llm_down (_ : string) : string + string := inr "Connection error.".

(** A character occurs in a string; a string of dots only. *)
Fixpoint has_char (c : ascii) (s : string) : bool :=
  match s with
  | EmptyString => false
  | String x s' => Ascii.eqb x c || has_char c s'
  end.

Fixpoint all_dots (s : string) : bool :=
  match s with
  | EmptyString => true
  | String x s' => Ascii.eqb x "."%char && all_dots s'
  end.

(** A directory prefix: nothing, or a path that ends in a slash. *)
Definition dir_prefix (d : string) : Prop :=
  d = "" \/ exists d' : string, d = d' +:+ "/".

(** A readable file [file] with text [content] sits in the directory [dir]
    that [os.walk] reaches from [root] through directories that are not
    skipped. *)
Inductive visible : string -> list entry -> string -> string -> string -> Prop :=
| visible_here (root : string) (entries : list entry) (file content : string) :
    File file (Some content) ∈ entries ->
    visible root entries root file content
| visible_below (root : string) (entries : list entry) (name : string)
    (children : list entry) (dir file content : string) :
    Dir name children ∈ entries -> name ∉ SKIP_DIRS ->
    visible (join root name) children dir file content ->
    visible root entries dir file content.

(** The document made of a file. *)
Definition document_of (dir file content : string) : Document :=
  {| page_content := content; metadata := {[ "source" := join dir file ]} |}.

(** Induction on a tree of entries. *)
Fixpoint entry_nested_ind (P : entry -> Prop)
    (HF : forall name content, P (File name content))
    (HD : forall name children, Forall P children -> P (Dir name children))
    (e : entry) {struct e} : P e :=
  match e with
  | File name content => HF name content
  | Dir name children =>
      HD name children
        ((fix all (es : list entry) : Forall P es :=
            match es with
            | [] => Forall_nil_2 P
            | e' :: es' =>
                Forall_cons_2 P e' es' (entry_nested_ind P HF HD e') (all es')
            end) children)
  end.

(** The extensions that a file name can really have among
    [SUPPORTED_EXTENSIONS]. *)
Definition loadable_extensions : list string :=
  [".py"; ".js"; ".ts"; ".jsx"; ".tsx"; ".java"; ".c"; ".cpp"; ".go"; ".rs";
   ".php"; ".rb"; ".swift"; ".kt"; ".cs"; ".vb";
   ".html"; ".css"; ".json"; ".xml"; ".yml"; ".yaml";
   ".ipynb"; ".md"; ".csv"].

(** The endings that the skip patterns of the form [*ending] name. *)
Definition skipped_endings : list string :=
  [".config.js"; ".config.ts"; ".config.cjs"; ".config.mjs"; ".d.ts"; ".map";
   ".min.js"; ".min.css"; ".lock"; ".log"; ".tmp"; ".cache"].

(** A pattern without [*] and [?]. *)
Fixpoint plain (pat : string) : bool :=
  match pat with
  | EmptyString => true
  | String c pat' =>
      negb (Ascii.eqb c "*"%char) && negb (Ascii.eqb c "?"%char) && plain pat'
  end.

(** The splitter takes a document without raising, and the chunks it then
    makes of it. *)
Definition splits
    (split_documents : Z -> Z -> list Document -> list Document + string)
    (chunk_size chunk_overlap : Z) (doc : Document) : bool :=
  match chunk_documents split_documents [doc] chunk_size chunk_overlap with
  | inl _ => true
  | inr _ => false
  end.

Definition chunks_of
    (split_documents : Z -> Z -> list Document -> list Document + string)
    (chunk_size chunk_overlap : Z) (doc : Document) : list Document :=
  match chunk_documents split_documents [doc] chunk_size chunk_overlap with
  | inl chunks => chunks
  | inr _ => []
  end.

(** A record and a call without the identifiers that were drawn. *)
Definition anonymous (r : upsert_record) : upsert_record :=
  {| rec_id_key := rec_id_key r;
     rec_id := "";
     rec_chunk_text := rec_chunk_text r;
     rec_file_name := rec_file_name r;
     rec_file_path := rec_file_path r;
     rec_chunk_index := rec_chunk_index r;
     rec_language := rec_language r |}.

Definition anonymous_call (call : string * list upsert_record)
    : string * list upsert_record :=
  (fst call, map anonymous (snd call)).

(** In [upload_files]: the records made of a document (without their
    identifiers), whether the document has chunks, and whether the index
    took a call. *)
Definition file_records
    (split_documents : Z -> Z -> list Document -> list Document + string)
    (ns : string) (chunk_size chunk_overlap : Z) (doc : Document)
    : list upsert_record :=
  map anonymous
    (imap (document_record (fun _ => "") ns (Some (source_of doc)))
       (chunks_of split_documents chunk_size chunk_overlap doc)).

Definition has_chunks
    (split_documents : Z -> Z -> list Document -> list Document + string)
    (chunk_size chunk_overlap : Z) (doc : Document) : bool :=
  match chunks_of split_documents chunk_size chunk_overlap doc with
  | [] => false
  | _ :: _ => true
  end.

Definition accepted (upsert_records : string -> list upsert_record -> bool)
    (call : string * list upsert_record) : bool :=
  upsert_records (fst call) (snd call).

(** All chunks that [upload_github] makes of the documents, each tagged
    with its file. *)
Definition github_chunks
    (split_documents : Z -> Z -> list Document -> list Document + string)
    (documents : list Document) : list Document :=
  flat_map
    (fun doc =>
       map (tag_chunk (source_of doc)) (chunks_of split_documents 800 100 doc))
    documents.

(** An index that takes nothing. *)
Definition index_down (_ : string) (_ : list upsert_record) : bool := false.

(** A splitter that makes one chunk of every document, a clone that puts
    the repository into a folder, and a folder with one Python file and a
    text file. *)
Definition one_chunk (_ _ : Z) (documents : list Document)
    : list Document + string :=
  inl documents.

Definition clone_to_tmp (_ : string) : string + string := inl "/tmp/rag-data/tmpk3".

Definition small_repo (_ : string) : list entry :=
  [File "app.py" (Some "print(1)"); File "notes.txt" (Some "todo");
   Dir "node_modules" [File "x.js" (Some "x")]].

(** * Properties *)

(** ** Substrings and keyword lists *)

Lemma starts_with_spec (k s : string) :
  Str.starts_with k s = true <-> exists post : string, s = k +:+ post.
Proof.
  revert s. induction k as [|a k IH]; intros s; simpl.
  - split; [intros _; now exists s | reflexivity].
  - destruct s as [|b s].
    + split; [discriminate | intros [post Hp]; discriminate].
    + rewrite andb_true_iff, Ascii.eqb_eq, IH. split.
      * intros [-> [post ->]]. now exists post.
      * intros [post Hp]. injection Hp as -> ->. split; [reflexivity | now exists post].
Qed.

Lemma contains_spec (k s : string) :
  Str.contains k s = true <-> occurs_in k s.
Proof.
  unfold occurs_in. induction s as [|c s IH].
  - cbn [Str.contains]. rewrite orb_false_r, starts_with_spec. split.
    + intros [post Hp]. now exists EmptyString, post.
    + intros [pre [post Hp]]. destruct pre; [now exists post | discriminate].
  - cbn [Str.contains]. rewrite orb_true_iff, starts_with_spec, IH. split.
    + intros [[post Hp] | [pre [post Hp]]].
      * now exists EmptyString, post.
      * exists (String c pre), post. simpl. now rewrite Hp.
    + intros [pre [post Hp]]. destruct pre as [|c' pre].
      * left. now exists post.
      * right. simpl in Hp. injection Hp as _ Hp. now exists pre, post.
Qed.

Lemma any_keyword_spec (keywords : list string) (q : string) :
  any_keyword keywords q = true <-> mentions keywords q.
Proof.
  unfold any_keyword, mentions. rewrite existsb_exists. split.
  - intros [k [Hin Hc]]. exists k. split; [now apply list_elem_of_In | now apply contains_spec].
  - intros [k [Hin Hc]]. exists k. split; [now apply list_elem_of_In | now apply contains_spec].
Qed.

Lemma any_keyword_false (keywords : list string) (q : string) :
  any_keyword keywords q = false <-> ~ mentions keywords q.
Proof. rewrite <- any_keyword_spec. now destruct (any_keyword keywords q). Qed.

(** ** The analyzer always answers *)

Lemma classify_intent_range (q : string) : _classify_intent q ∈ intents.
Proof.
  unfold _classify_intent, intents.
  repeat (match goal with |- context [if ?b then _ else _] => destruct b end);
    set_solver.
Qed.

Lemma assess_complexity_range (q : string) : _assess_complexity q ∈ levels.
Proof.
  unfold _assess_complexity, levels.
  repeat (match goal with |- context [if ?b then _ else _] => destruct b end);
    set_solver.
Qed.

Lemma calculate_base_k_defined (i c : string) :
  i ∈ intents -> c ∈ levels -> is_Some (_calculate_base_k i c).
Proof.
  intros Hi Hc. list_cases Hi; list_cases Hc; vm_compute; eauto.
Qed.

(** [analyze_query] never raises: for every query it returns the record
    built from the three classifications and the looked-up [base_k]. *)
Lemma analyze_query_total (query : string) :
  exists k : Z,
    _calculate_base_k (_classify_intent (Str.lower query))
      (_assess_complexity (Str.lower query)) = Some k /\
    analyze_query query =
      Some {| intent := _classify_intent (Str.lower query);
              complexity := _assess_complexity (Str.lower query);
              specificity := _assess_specificity (Str.lower query);
              base_k := k;
              should_rerank :=
                bool_decide (_classify_intent (Str.lower query) ∈ rerank_intents);
              rerank_top_n :=
                if bool_decide (_classify_intent (Str.lower query) ∈ rerank_intents)
                then Z.max 3 (k / 2) else k |}.
Proof.
  destruct (calculate_base_k_defined _ _
              (classify_intent_range (Str.lower query))
              (assess_complexity_range (Str.lower query))) as [k Hk].
  exists k. split; [exact Hk |]. unfold analyze_query. now rewrite Hk.
Qed.

(** ** Lower-casing and word counts *)

Lemma is_space_lower_char (c : ascii) :
  Str.is_space (Str.lower_char c) = Str.is_space c.
Proof. destruct c as [[] [] [] [] [] [] [] []]; reflexivity. Qed.

Lemma is_upper_lower_char (c : ascii) :
  Str.is_upper (Str.lower_char c) = false.
Proof. destruct c as [[] [] [] [] [] [] [] []]; reflexivity. Qed.

Lemma split_lower (s : string) :
  Str.split (Str.lower s) = map Str.lower (Str.split s).
Proof.
  induction s as [|c s IH]; [reflexivity |].
  cbn [Str.lower Str.split]. rewrite is_space_lower_char.
  destruct (Str.is_space c); [exact IH |].
  destruct s as [|c' s']; [reflexivity |].
  cbn [Str.lower] in *. rewrite is_space_lower_char.
  destruct (Str.is_space c').
  - rewrite IH. reflexivity.
  - rewrite IH. destruct (Str.split (String c' s')); reflexivity.
Qed.

Lemma word_count_lower (s : string) :
  word_count (Str.lower s) = word_count s.
Proof. unfold word_count. now rewrite split_lower, length_map. Qed.

(** ** The lookup table, row by row *)

Lemma k_row_lookup (lo me hi : Z) (c : string) (k : Z) :
  k_row lo me hi !! c = Some k <->
  (c = "low" /\ k = lo) \/ (c = "medium" /\ k = me) \/ (c = "high" /\ k = hi).
Proof.
  unfold k_row. rewrite !lookup_insert_Some, lookup_empty. split.
  - intros [[<- <-] | [_ [[<- <-] | [_ [[<- <-] | [_ H]]]]]]; auto. discriminate.
  - intros [[-> ->] | [[-> ->] | [-> ->]]].
    + now left.
    + right. split; [discriminate |]. now left.
    + right. split; [discriminate |]. right. split; [discriminate |]. now left.
Qed.

Lemma base_values_lookup (i : string) (row : gmap string Z) :
  base_values !! i = Some row <->
  (i = "specific" /\ row = k_row 3 5 8) \/
  (i = "general" /\ row = k_row 5 8 12) \/
  (i = "summary" /\ row = k_row 8 15 25) \/
  (i = "analysis" /\ row = k_row 10 18 30) \/
  (i = "bug_check" /\ row = k_row 12 20 35).
Proof.
  unfold base_values. rewrite !lookup_insert_Some, lookup_empty. split.
  - intros [[<- <-] | [_ [[<- <-] | [_ [[<- <-] | [_ [[<- <-] | [_ [[<- <-] | [_ H]]]]]]]]]];
      auto 6. discriminate.
  - intros [[-> ->] | [[-> ->] | [[-> ->] | [[-> ->] | [-> ->]]]]].
    + now left.
    + right. split; [discriminate |]. now left.
    + do 2 (right; split; [discriminate |]). now left.
    + do 3 (right; split; [discriminate |]). now left.
    + do 4 (right; split; [discriminate |]). now left.
Qed.

Lemma rerank_depth_bounds (i c : string) (k : Z) :
  i ∈ rerank_intents -> _calculate_base_k i c = Some k ->
  3 <= Z.max 3 (k / 2) <= k.
Proof.
  intros Hi Hk. unfold _calculate_base_k, rerank_intents in *.
  assert (Hrow : exists lo me hi : Z,
            base_values !! i = Some (k_row lo me hi) /\
            6 <= lo /\ 6 <= me /\ 6 <= hi).
  { list_cases Hi.
    - exists 8, 15, 25. split; [reflexivity | lia].
    - exists 10, 18, 30. split; [reflexivity | lia].
    - exists 12, 20, 35. split; [reflexivity | lia]. }
  destruct Hrow as [lo [me [hi [Hrow Hge]]]]. rewrite Hrow in Hk.
  cbn [default] in Hk. apply k_row_lookup in Hk.
  assert (Hk6 : 6 <= k) by (destruct Hk as [[_ ->] | [[_ ->] | [_ ->]]]; lia).
  assert (Hhalf : 3 <= k / 2) by (apply Z.div_le_lower_bound; lia).
  assert (Hup : k / 2 <= k) by (apply Z.div_le_upper_bound; lia).
  lia.
Qed.

(** ** Claims about the analyzer and the planner *)

(** C1, as the specification words it (intent [analysis], [base_k] 10 and
    rerank depth 5), does not hold of the code. *)
Lemma C1_counterexample :
  ~ (exists a : QueryAnalysis,
       analyze_query architecture_query = Some a /\
       intent a = "analysis" /\ complexity a = "low" /\ base_k a = 10 /\
       should_rerank a = true /\ rerank_top_n a = 5).
Proof.
  intros [a [Ha [Hi _]]]. vm_compute in Ha. injection Ha as <-.
  cbn in Hi. discriminate.
Qed.

(** C1 (amended): for the query "explain the architecture of this project"
    the summary keyword "explain" is found before the analysis keyword
    "architecture" is looked for, so [analyze_query] returns intent
    [summary], complexity [low] (6 words, 0 interrogatives), [base_k] 8,
    [should_rerank] true and [rerank_top_n] = max(3, 8 // 2) = 4. *)
Theorem C1_architecture_query_plan :
  analyze_query architecture_query =
    Some {| intent := "summary"; complexity := "low"; specificity := "low";
            base_k := 8; should_rerank := true; rerank_top_n := 4 |} /\
  word_count (Str.lower architecture_query) = 6 /\
  question_words (Str.lower architecture_query) = 0 /\
  Z.max 3 (8 / 2) = 4 /\
  "explain" ∈ summary_keywords /\
  Str.contains "explain" (Str.lower architecture_query) = true /\
  "architecture" ∈ analysis_keywords /\
  Str.contains "architecture" (Str.lower architecture_query) = true.
Proof.
  repeat split; try (vm_compute; reflexivity);
    unfold summary_keywords, analysis_keywords; set_solver.
Qed.

(** C5: the intent of a query is [summary] when a summary keyword occurs in
    the lower-cased query; otherwise [analysis] when an analysis keyword
    does; otherwise [bug_check] when a bug keyword does; otherwise
    [specific] when a code-identifier keyword does; otherwise [general] -
    as for "xyz123". *)
Theorem C5_intent_priority_order :
  (forall query : string,
     exists a : QueryAnalysis,
       analyze_query query = Some a /\
       let q := Str.lower query in
       (intent a = "summary" <-> mentions summary_keywords q) /\
       (intent a = "analysis" <->
          ~ mentions summary_keywords q /\ mentions analysis_keywords q) /\
       (intent a = "bug_check" <->
          ~ mentions summary_keywords q /\ ~ mentions analysis_keywords q /\
          mentions bug_keywords q) /\
       (intent a = "specific" <->
          ~ mentions summary_keywords q /\ ~ mentions analysis_keywords q /\
          ~ mentions bug_keywords q /\ mentions specific_keywords q) /\
       (intent a = "general" <->
          ~ mentions summary_keywords q /\ ~ mentions analysis_keywords q /\
          ~ mentions bug_keywords q /\ ~ mentions specific_keywords q)) /\
  (exists a : QueryAnalysis,
     analyze_query "xyz123" = Some a /\ intent a = "general").
Proof.
  split.
  - intros query. destruct (analyze_query_total query) as [k [_ Ha]].
    eexists. split; [exact Ha |]. cbn [intent]. cbv zeta.
    unfold _classify_intent.
    destruct (any_keyword summary_keywords (Str.lower query)) eqn:E1;
      [apply any_keyword_spec in E1 | apply any_keyword_false in E1];
      [intuition congruence |].
    destruct (any_keyword analysis_keywords (Str.lower query)) eqn:E2;
      [apply any_keyword_spec in E2 | apply any_keyword_false in E2];
      [intuition congruence |].
    destruct (any_keyword bug_keywords (Str.lower query)) eqn:E3;
      [apply any_keyword_spec in E3 | apply any_keyword_false in E3];
      [intuition congruence |].
    destruct (any_keyword specific_keywords (Str.lower query)) eqn:E4;
      [apply any_keyword_spec in E4 | apply any_keyword_false in E4];
      intuition congruence.
  - eexists. split; [vm_compute; reflexivity | reflexivity].
Qed.

(** C6: [should_rerank] is true exactly for the intents [summary],
    [analysis] and [bug_check]; [rerank_top_n] is max(3, base_k // 2) when
    reranking and [base_k] otherwise; and on every cell of the table whose
    intent is reranked, 3 <= max(3, base_k // 2) <= base_k. *)
Theorem C6_rerank_plan :
  (forall query : string,
     exists a : QueryAnalysis,
       analyze_query query = Some a /\
       (should_rerank a = true <->
          intent a ∈ ["summary"; "analysis"; "bug_check"]) /\
       rerank_top_n a =
         (if should_rerank a then Z.max 3 (base_k a / 2) else base_k a) /\
       (should_rerank a = true -> 3 <= rerank_top_n a <= base_k a)) /\
  (forall (i c : string) (row : gmap string Z) (k : Z),
     i ∈ ["summary"; "analysis"; "bug_check"] ->
     base_values !! i = Some row -> row !! c = Some k ->
     3 <= Z.max 3 (k / 2) <= k).
Proof.
  split.
  - intros query. destruct (analyze_query_total query) as [k [Hk Ha]].
    eexists. split; [exact Ha |].
    cbn [should_rerank intent rerank_top_n base_k].
    split; [apply bool_decide_eq_true |]. split; [reflexivity |].
    intros Hr. rewrite Hr. apply bool_decide_eq_true in Hr.
    exact (rerank_depth_bounds _ _ _ Hr Hk).
  - intros i c row k Hi Hrow Hk.
    apply (rerank_depth_bounds i c k Hi).
    unfold _calculate_base_k. rewrite Hrow. exact Hk.
Qed.

Lemma C6_rerank_plan_witness :
  3 <= Z.max 3 (15 / 2) <= 15.
Proof.
  apply (proj2 C6_rerank_plan "summary" "medium" (k_row 8 15 25) 15).
  - unfold rerank_intents. apply elem_of_cons. now left.
  - vm_compute. reflexivity.
  - vm_compute. reflexivity.
Defined.

(** C7: [_assess_complexity] answers [high] iff the word count exceeds 15
    or the interrogative count exceeds 2, otherwise [medium] iff the word
    count exceeds 8 or the interrogative count exceeds 1, otherwise [low];
    [analyze_query] applies it to the lower-cased query, whose word count
    is that of the query; "what" is [low] and a 20-word question with 3
    interrogatives is [high]. *)
Theorem C7_complexity_thresholds :
  (forall q : string,
     let hi := word_count q > 15 \/ question_words q > 2 in
     let me := word_count q > 8 \/ question_words q > 1 in
     (_assess_complexity q = "high" <-> hi) /\
     (_assess_complexity q = "medium" <-> ~ hi /\ me) /\
     (_assess_complexity q = "low" <-> ~ hi /\ ~ me)) /\
  (forall query : string,
     exists a : QueryAnalysis,
       analyze_query query = Some a /\
       complexity a = _assess_complexity (Str.lower query) /\
       word_count (Str.lower query) = word_count query) /\
  (exists a : QueryAnalysis,
     analyze_query "what" = Some a /\ complexity a = "low") /\
  (word_count twenty_word_question = 20 /\
   question_words twenty_word_question = 3 /\
   exists a : QueryAnalysis,
     analyze_query twenty_word_question = Some a /\ complexity a = "high").
Proof.
  split; [| split; [| split]].
  - intros q. cbv zeta. unfold _assess_complexity.
    destruct (Z.gtb_spec (word_count q) 15), (Z.gtb_spec (question_words q) 2),
      (Z.gtb_spec (word_count q) 8), (Z.gtb_spec (question_words q) 1);
      cbn [orb]; repeat split; intros; try discriminate; try lia.
  - intros query. destruct (analyze_query_total query) as [k [_ Ha]].
    eexists. split; [exact Ha |]. split; [reflexivity | apply word_count_lower].
  - eexists. split; [vm_compute; reflexivity | reflexivity].
  - split; [vm_compute; reflexivity |]. split; [vm_compute; reflexivity |].
    eexists. split; [vm_compute; reflexivity | reflexivity].
Qed.

(** C9: every row of the table grows strictly from [low] over [medium] to
    [high]; the rows are those of the five intents; and for every
    complexity level [base_k] grows strictly along specific, general,
    summary, analysis, bug_check. *)
Theorem C9_base_k_strictly_monotone :
  (forall (i : string) (row : gmap string Z),
     base_values !! i = Some row ->
     exists lo me hi : Z,
       row !! "low" = Some lo /\ row !! "medium" = Some me /\
       row !! "high" = Some hi /\ lo < me < hi) /\
  (forall i : string, is_Some (base_values !! i) <-> i ∈ intents) /\
  (forall (c i j : string) (n m : nat),
     c ∈ levels ->
     ["specific"; "general"; "summary"; "analysis"; "bug_check"] !! n = Some i ->
     ["specific"; "general"; "summary"; "analysis"; "bug_check"] !! m = Some j ->
     (n < m)%nat ->
     exists ki kj : Z,
       _calculate_base_k i c = Some ki /\ _calculate_base_k j c = Some kj /\
       ki < kj).
Proof.
  split; [| split].
  - intros i row Hrow. apply base_values_lookup in Hrow.
    destruct Hrow as [[_ ->] | [[_ ->] | [[_ ->] | [[_ ->] | [_ ->]]]]];
      do 3 eexists;
      (split; [vm_compute; reflexivity |]); (split; [vm_compute; reflexivity |]);
      (split; [vm_compute; reflexivity |]); split; reflexivity.
  - intros i. unfold intents. split.
    + intros [row Hrow]. apply base_values_lookup in Hrow.
      destruct Hrow as [[-> _] | [[-> _] | [[-> _] | [[-> _] | [-> _]]]]];
        set_solver.
    + intros Hi. list_cases Hi; eexists; reflexivity.
  - intros c i j n m Hc Hn Hm Hlt. unfold levels in Hc.
    destruct n as [|[|[|[|[|n]]]]]; cbn in Hn; try discriminate;
      injection Hn as <-;
      (destruct m as [|[|[|[|[|m]]]]]; cbn in Hm; try discriminate;
       try lia; injection Hm as <-);
      list_cases Hc; do 2 eexists;
      (split; [vm_compute; reflexivity |]); (split; [vm_compute; reflexivity |]);
      reflexivity.
Qed.

Lemma C9_base_k_strictly_monotone_witness :
  exists ki kj : Z,
    _calculate_base_k "general" "high" = Some ki /\
    _calculate_base_k "analysis" "high" = Some kj /\ ki < kj.
Proof.
  apply (proj2 (proj2 C9_base_k_strictly_monotone) "high" "general" "analysis"
           1%nat 3%nat).
  - unfold levels. set_solver.
  - reflexivity.
  - reflexivity.
  - lia.
Defined.

(** ** The CamelCase pattern on a lower-cased query *)

Lemma camel_case_needs_upper (prev : option ascii) (s : string) :
  match s with String c _ => Str.is_upper c = false | EmptyString => True end ->
  match_here camel_case_re prev s = None.
Proof.
  intros Hs. unfold match_here, camel_case_re. cbn [rmatch].
  destruct (xorb (word_before prev) (word_after s)); [| reflexivity].
  destruct s as [|c s]; [reflexivity |]. now rewrite Hs.
Qed.

Lemma camel_case_lower_none (q : string) (prev : option ascii) :
  findall_from camel_case_re prev (Str.lower q) 0 = [].
Proof.
  revert prev. induction q as [|c q IH]; intros prev.
  - cbn [Str.lower findall_from]. now rewrite camel_case_needs_upper.
  - cbn [Str.lower findall_from].
    rewrite camel_case_needs_upper by apply is_upper_lower_char.
    apply IH.
Qed.

Lemma specific_terms_lower (q : string) : specific_terms (Str.lower q) = 0.
Proof. unfold specific_terms, findall. now rewrite camel_case_lower_none. Qed.

(** C2: [analyze_query] hands the lower-cased query to
    [_assess_specificity], so the CamelCase count it sees is 0 for every
    query; three occurrences of "MyClass" give specificity [low], where the
    same function on the query as typed counts 3 and answers [high]. *)
Theorem C2_specificity_sees_lowered_query :
  (forall query : string,
     exists a : QueryAnalysis,
       analyze_query query = Some a /\
       specificity a = _assess_specificity (Str.lower query) /\
       specific_terms (Str.lower query) = 0) /\
  specific_terms three_classes = 3 /\
  _assess_specificity three_classes = "high" /\
  (exists a : QueryAnalysis,
     analyze_query three_classes = Some a /\ specificity a = "low").
Proof.
  split; [| split; [| split]].
  - intros query. destruct (analyze_query_total query) as [k [_ Ha]].
    eexists. split; [exact Ha |]. split; [reflexivity | apply specific_terms_lower].
  - vm_compute. reflexivity.
  - vm_compute. reflexivity.
  - eexists. split; [vm_compute; reflexivity | reflexivity].
Qed.

(** ** The context assembler *)

Section AssemblyFacts.

Context {score_t : Type} (score_zero : score_t).

Lemma estimated_tokens_nonneg (hit : raw_hit score_t) :
  0 <= estimated_tokens hit.
Proof. unfold estimated_tokens, Str.len. apply Z.div_pos; lia. Qed.

Lemma bundle_tokens_process (rerank : bool) (hits : list (raw_hit score_t)) :
  bundle_tokens (map (process_hit score_zero rerank) hits) = cost_sum hits.
Proof.
  induction hits as [|h hits IH]; [reflexivity |].
  unfold bundle_tokens, cost_sum in *. cbn [map foldr]. rewrite IH. reflexivity.
Qed.

(** The loop accepts a prefix of the hits: [n] of them.  Every accepted
    hit fitted under the budget when its turn came, the hit after the
    prefix (if any) did not, and the running total is the start value
    plus the cost of the prefix. *)
Lemma token_loop_spec (rerank : bool) (m : Z) (hits : list (raw_hit score_t)) :
  forall (acc : list (chunk_info score_t)) (total : Z),
  exists n : nat,
    (n <= length hits)%nat /\
    token_loop score_zero rerank m hits acc total =
      (acc ++ map (process_hit score_zero rerank) (take n hits),
       total + cost_sum (take n hits)) /\
    (forall (j : nat) (h : raw_hit score_t),
       hits !! j = Some h -> (j < n)%nat ->
       total + cost_sum (take j hits) + estimated_tokens h <= m) /\
    (forall h : raw_hit score_t,
       hits !! n = Some h ->
       total + cost_sum (take n hits) + estimated_tokens h > m) /\
    (total <= m \/ n <> 0%nat -> total + cost_sum (take n hits) <= m).
Proof.
  induction hits as [|h hits IH]; intros acc total.
  - exists 0%nat. cbn. rewrite app_nil_r, Z.add_0_r.
    repeat split; try lia; intros; discriminate.
  - cbn [token_loop].
    destruct (Z.gtb_spec (total + estimated_tokens h) m) as [Hgt | Hle].
    + exists 0%nat. cbn. rewrite app_nil_r, Z.add_0_r.
      repeat split; try lia.
      intros h' Hh'. injection Hh' as <-. lia.
    + destruct (IH (acc ++ [process_hit score_zero rerank h])
                  (total + estimated_tokens h))
        as [n [Hn [Heq [Hacc [Hstop Hsum]]]]].
      exists (S n). cbn [length take map cost_sum foldr lookup].
      fold (cost_sum (take n hits)).
      split; [lia |]. split; [| split; [| split]].
      * rewrite Heq, <- app_assoc. cbn [app]. f_equal. lia.
      * intros j h' Hj Hlt. destruct j as [|j].
        -- cbn in Hj. injection Hj as <-. cbn. lia.
        -- cbn in Hj. cbn [take cost_sum foldr].
           fold (cost_sum (take j hits)).
           specialize (Hacc j h' Hj). lia.
      * intros h' Hh'. cbn in Hh'. specialize (Hstop h' Hh'). lia.
      * intros _. specialize (Hsum (or_introl Hle)). lia.
Qed.

Lemma assemble_reranked (rerank : bool) (m : Z)
    (hits : list (raw_hit score_t)) (c : chunk_info score_t) :
  c ∈ assemble score_zero rerank m hits -> reranked c = rerank.
Proof.
  unfold assemble.
  destruct (token_loop_spec rerank m hits [] 0) as [n [_ [Heq _]]].
  rewrite Heq. cbn [fst app]. intros Hc.
  apply list_elem_of_fmap in Hc as [h [-> _]]. reflexivity.
Qed.

End AssemblyFacts.

(** C3, as the specification words it, does not hold: a single hit of 8
    characters (2 estimated tokens) under a budget of 1 gives an empty
    bundle. *)
Lemma C3_counterexample :
  ~ (forall (rerank : bool) (budget : Z) (hits : list (raw_hit Z)),
       hits <> [] -> assemble 0 rerank budget hits <> []).
Proof.
  intros H. apply (H false 1 [hit_of_length 8]); [discriminate |].
  vm_compute. reflexivity.
Qed.

(** C3 (amended): for a non-empty list of hits the bundle holds at least
    one hit - the first - exactly when the estimated cost len(text) // 4 of
    the first hit does not exceed the budget; under a smaller budget the
    bundle is empty. *)
Theorem C3_first_hit_needs_budget :
  forall (score_t : Type) (score_zero : score_t) (rerank : bool) (budget : Z)
         (h : raw_hit score_t) (hits : list (raw_hit score_t)),
    (assemble score_zero rerank budget (h :: hits) <> [] <->
       estimated_tokens h <= budget) /\
    (estimated_tokens h <= budget ->
       exists rest : list (chunk_info score_t),
         assemble score_zero rerank budget (h :: hits) =
           process_hit score_zero rerank h :: rest) /\
    (budget < estimated_tokens h ->
       assemble score_zero rerank budget (h :: hits) = []).
Proof.
  intros score_t score_zero rerank budget h hits.
  assert (Hfit : estimated_tokens h <= budget ->
            exists rest, assemble score_zero rerank budget (h :: hits) =
                           process_hit score_zero rerank h :: rest).
  { intros Hle. unfold assemble. cbn [token_loop].
    destruct (Z.gtb_spec (0 + estimated_tokens h) budget) as [Hgt | _]; [lia |].
    destruct (token_loop_spec score_zero rerank budget hits
                ([] ++ [process_hit score_zero rerank h])
                (0 + estimated_tokens h)) as [n [_ [Heq _]]].
    rewrite Heq. cbn [fst app]. eauto. }
  assert (Hnot : budget < estimated_tokens h ->
            assemble score_zero rerank budget (h :: hits) = []).
  { intros Hlt. unfold assemble. cbn [token_loop].
    destruct (Z.gtb_spec (0 + estimated_tokens h) budget) as [_ | Hle];
      [reflexivity | lia]. }
  split; [| split; assumption].
  split.
  - intros Hne. destruct (Z.le_gt_cases (estimated_tokens h) budget) as [Hle | Hgt];
      [exact Hle |]. exfalso. apply Hne, Hnot. lia.
  - intros Hle. destruct (Hfit Hle) as [rest ->]. discriminate.
Qed.

Lemma C3_first_hit_needs_budget_witness :
  exists rest : list (chunk_info Z),
    assemble 0 true 2 [hit_of_length 8; hit_of_length 8] =
      process_hit 0 true (hit_of_length 8) :: rest.
Proof.
  apply (proj1 (proj2 (C3_first_hit_needs_budget Z 0 true 2 (hit_of_length 8)
                         [hit_of_length 8]))).
  vm_compute. discriminate.
Defined.

(** C4, as the specification words it, does not hold for every token
    budget: [max_tokens] is any integer, and under a budget of -1 the loop
    breaks at the first hit, so the bundle is empty and the sum 0 of its
    estimated costs exceeds the budget. *)
Lemma C4_counterexample :
  ~ (forall (rerank : bool) (budget : Z) (hits : list (raw_hit Z)),
       bundle_tokens (assemble 0 rerank budget hits) <= budget).
Proof.
  intros H. specialize (H false (-1) [hit_of_length 8]).
  assert (E : bundle_tokens (assemble 0 false (-1) [hit_of_length 8]) = 0)
    by (vm_compute; reflexivity).
  rewrite E in H. lia.
Qed.

(** C4 (amended): the bundle is the image of a prefix of the ranked hits,
    in their order; each hit of the prefix had running total + cost within
    the budget, the hit after the prefix (if there is one) would have
    exceeded it; the estimated cost of the bundle is within the budget
    whenever the budget is not negative or the bundle holds a hit (under a
    negative budget the bundle is empty); and three hits of cost 100 under
    a budget of 250 leave exactly the first two. *)
Theorem C4_budget_prefix :
  forall (score_t : Type) (score_zero : score_t) (rerank : bool),
    (forall (budget : Z) (hits : list (raw_hit score_t)),
       exists n : nat,
         (n <= length hits)%nat /\
         assemble score_zero rerank budget hits =
           map (process_hit score_zero rerank) (take n hits) /\
         (forall (j : nat) (h : raw_hit score_t),
            hits !! j = Some h -> (j < n)%nat ->
            cost_sum (take j hits) + estimated_tokens h <= budget) /\
         (forall h : raw_hit score_t,
            hits !! n = Some h ->
            cost_sum (take n hits) + estimated_tokens h > budget) /\
         (0 <= budget \/ assemble score_zero rerank budget hits <> [] ->
            bundle_tokens (assemble score_zero rerank budget hits) <= budget)) /\
    (forall h1 h2 h3 : raw_hit score_t,
       estimated_tokens h1 = 100 -> estimated_tokens h2 = 100 ->
       estimated_tokens h3 = 100 ->
       assemble score_zero rerank 250 [h1; h2; h3] =
         [process_hit score_zero rerank h1; process_hit score_zero rerank h2]).
Proof.
  intros score_t score_zero rerank. split.
  - intros budget hits.
    destruct (token_loop_spec score_zero rerank budget hits [] 0)
      as [n [Hn [Heq [Hacc [Hstop Hsum]]]]].
    assert (Ha : assemble score_zero rerank budget hits =
                   map (process_hit score_zero rerank) (take n hits)).
    { unfold assemble. rewrite Heq. reflexivity. }
    exists n. split; [exact Hn |]. split; [exact Ha |].
    split; [| split].
    + intros j h Hj Hlt. specialize (Hacc j h Hj Hlt). lia.
    + intros h Hh. specialize (Hstop h Hh). lia.
    + intros Hb. rewrite Ha, bundle_tokens_process.
      assert (Hor : 0 <= budget \/ n <> 0%nat).
      { destruct Hb as [Hb | Hb]; [now left | right].
        intros ->. apply Hb. rewrite Ha. reflexivity. }
      specialize (Hsum Hor). lia.
  - intros h1 h2 h3 H1 H2 H3. unfold assemble. cbn [token_loop].
    rewrite H1, H2, H3. reflexivity.
Qed.

Lemma C4_budget_prefix_witness :
  assemble 0 false 250 [hit_of_length 400; hit_of_length 401; hit_of_length 403] =
    [process_hit 0 false (hit_of_length 400);
     process_hit 0 false (hit_of_length 401)] /\
  bundle_tokens (assemble 0 false 250 [hit_of_length 400; hit_of_length 400]) <= 250.
Proof.
  split.
  - apply (proj2 (C4_budget_prefix Z 0 false)); vm_compute; reflexivity.
  - destruct (proj1 (C4_budget_prefix Z 0 false) 250
                [hit_of_length 400; hit_of_length 400])
      as [n [_ [_ [_ [_ Hb]]]]].
    apply Hb. left. lia.
Defined.

(** ** One rerank flag per retrieval *)

Lemma smart_retrieve_reranked {score_t : Type} (score_zero : score_t)
    (search : search_params -> option (list (raw_hit score_t)))
    (query ns : string) (mt : option Z) (a : QueryAnalysis)
    (c : chunk_info score_t) :
  analyze_query query = Some a ->
  c ∈ smart_retrieve score_zero search query ns mt ->
  reranked c = should_rerank a.
Proof.
  intros Ha. unfold smart_retrieve. rewrite Ha.
  destruct (search _) as [[|h hits]|]; try (intros Hc; now apply elem_of_nil in Hc).
  destruct mt as [budget|]; [| intros Hc; now apply elem_of_nil in Hc].
  apply assemble_reranked.
Qed.

(** C10: all hits that one [smart_retrieve] call returns carry the
    [should_rerank] flag of the analysis of its query; so the
    [retrieval_reranked] entry of a chat answer, read from the first hit,
    is the flag of every hit retrieved for that answer. *)
Theorem C10_uniform_rerank_flag :
  forall (score_t : Type) (score_zero : score_t)
         (search : search_params -> option (list (raw_hit score_t))),
    (forall (query ns : string) (mt : option Z),
       exists a : QueryAnalysis,
         analyze_query query = Some a /\
         forall c : chunk_info score_t,
           c ∈ smart_retrieve score_zero search query ns mt ->
           reranked c = should_rerank a) /\
    (forall (ask_llm : string -> string + string)
            (format_score : score_t -> string)
            (session : Session) (request : QueryRequest)
            (calls : list call) (ok : bool) (response : string)
            (meta : chat_metadata) (flag : bool),
       chat score_zero search ask_llm format_score session request =
         (calls, JSONResponse ok response meta) ->
       retrieval_reranked meta = Some flag ->
       forall c : chunk_info score_t,
         c ∈ smart_retrieve score_zero search (message request)
               (namespace session) (max_tokens request) ->
         reranked c = flag).
Proof.
  intros score_t score_zero search. split.
  - intros query ns mt. destruct (analyze_query_total query) as [k [_ Ha]].
    eexists. split; [exact Ha |]. intros c. now apply smart_retrieve_reranked.
  - intros ask_llm format_score session request calls ok response meta flag
      Hchat Hflag c Hc.
    destruct (analyze_query_total (message request)) as [k [_ Ha]].
    rewrite (smart_retrieve_reranked _ _ _ _ _ _ _ Ha Hc).
    unfold chat in Hchat.
    destruct (negb (path_truthy session) || (files_processed session =? 0)).
    { injection Hchat as _ _ _ <-. discriminate. }
    destruct (smart_retrieve score_zero search (message request)
                (namespace session) (max_tokens request))
      as [|first rest] eqn:Hret.
    { injection Hchat as _ _ _ <-. discriminate. }
    destruct (ask_llm _) as [answer | detail]; [| discriminate].
    injection Hchat as _ _ _ <-. cbn in Hflag. injection Hflag as <-.
    symmetry. apply (smart_retrieve_reranked score_zero search
                       (message request) (namespace session)
                       (max_tokens request) _ first Ha).
    rewrite Hret. apply elem_of_cons. now left.
Qed.

Lemma C10_uniform_rerank_flag_witness :
  reranked (process_hit 0 true (hit_of_length 12)) = true.
Proof.
  eapply (proj2 (C10_uniform_rerank_flag Z 0 two_hits) llm_ok no_score
            bound_session summary_request).
  - vm_compute. reflexivity.
  - reflexivity.
  - vm_compute. apply list_elem_of_further, list_elem_of_here.
Defined.

(** ** The guard of the chat handler *)

(** C8, as the specification words it, does not hold: with a root path
    that is set but absent from the disk and 2 processed files the session
    is not ready ([has_data] is false), and [chat] still calls
    [smart_retrieve]. *)
Lemma C8_counterexample :
  ~ (forall (search : search_params -> option (list (raw_hit Z)))
            (ask_llm : string -> string + string)
            (format_score : Z -> string) (path_exists : string -> bool)
            (s : Session) (request : QueryRequest),
       has_data path_exists s = false ->
       chat 0 search ask_llm format_score s request = ([], not_ready_response)).
Proof.
  intros H.
  specialize (H no_hits llm_ok no_score nothing_on_disk bound_session
                summary_request eq_refl).
  vm_compute in H. discriminate.
Qed.

(** C8 (amended): [chat] calls [smart_retrieve] exactly when the root path
    of the session is set (not None, not empty) and the processed-file
    count is not 0 - whether the path exists on disk is not looked at; in
    every other session state it makes no call and returns the "not ready"
    answer (success false, a message, chunks_found 0) instead of raising.
    Every ready session passes the guard. *)
Theorem C8_chat_guard :
  forall (score_t : Type) (score_zero : score_t)
         (search : search_params -> option (list (raw_hit score_t)))
         (ask_llm : string -> string + string)
         (format_score : score_t -> string)
         (s : Session) (request : QueryRequest),
    let answer := chat score_zero search ask_llm format_score s request in
    let retrieve :=
      CallSmartRetrieve (message request) (namespace s) (max_tokens request) in
    (path_truthy s = false \/ files_processed s = 0 ->
       answer = ([], not_ready_response)) /\
    (path_truthy s = true /\ files_processed s <> 0 ->
       exists (rest : list call) (result : chat_result),
         answer = (retrieve :: rest, result) /\ result <> not_ready_response) /\
    (retrieve ∈ fst answer <-> path_truthy s = true /\ files_processed s <> 0) /\
    not_ready_response =
      JSONResponse false not_ready_message
        {| chunks_found := 0; files_involved := None; file_summary := None;
           retrieval_reranked := None |} /\
    (forall path_exists : string -> bool,
       path_exists "" = false -> has_data path_exists s = true ->
       path_truthy s = true /\ files_processed s <> 0).
Proof.
  intros score_t score_zero search ask_llm format_score s request answer retrieve.
  assert (Hoff : path_truthy s = false \/ files_processed s = 0 ->
                 answer = ([], not_ready_response)).
  { intros Hg. subst answer. unfold chat.
    destruct Hg as [-> | ->]; [reflexivity |].
    now rewrite Z.eqb_refl, orb_true_r. }
  assert (Hon : path_truthy s = true /\ files_processed s <> 0 ->
                exists rest result,
                  answer = (retrieve :: rest, result) /\
                  result <> not_ready_response).
  { intros [Hp Hf]. subst answer retrieve. unfold chat. rewrite Hp.
    apply Z.eqb_neq in Hf. rewrite Hf. cbn [negb orb].
    destruct (smart_retrieve _ _ _ _ _) as [|first more].
    - do 2 eexists. split; [reflexivity | discriminate].
    - destruct (ask_llm _) as [response | detail];
        do 2 eexists; (split; [reflexivity | discriminate]). }
  split; [exact Hoff |]. split; [exact Hon |]. split; [| split].
  - split.
    + intros Hin. destruct (path_truthy s) eqn:Hp.
      * split; [reflexivity |]. intros Hf.
        rewrite (Hoff (or_intror Hf)) in Hin. now apply elem_of_nil in Hin.
      * rewrite (Hoff (or_introl eq_refl)) in Hin. now apply elem_of_nil in Hin.
    + intros Hg. destruct (Hon Hg) as [rest [result [-> _]]].
      apply list_elem_of_here.
  - reflexivity.
  - intros path_exists Hempty Hd. unfold has_data in Hd. unfold path_truthy.
    destruct (path s) as [root|]; [| discriminate].
    apply andb_true_iff in Hd as [Hex Hpos].
    split.
    + destruct (String.eqb root "") eqn:Hroot; [| reflexivity].
      apply String.eqb_eq in Hroot. rewrite Hroot in Hex. congruence.
    + apply Z.gtb_lt in Hpos. lia.
Qed.

Lemma C8_chat_guard_witness :
  chat 0 two_hits llm_ok no_score fresh_session summary_request =
    ([], not_ready_response) /\
  exists (rest : list call) (result : chat_result),
    chat 0 two_hits llm_ok no_score bound_session summary_request =
      (CallSmartRetrieve "Summarize the loader" "ns-1" (Some 8000) :: rest, result) /\
    result <> not_ready_response.
Proof.
  split.
  - apply (proj1 (C8_chat_guard Z 0 two_hits llm_ok no_score fresh_session
                    summary_request)).
    left. reflexivity.
  - apply (proj1 (proj2 (C8_chat_guard Z 0 two_hits llm_ok no_score bound_session
                           summary_request))).
    split; [reflexivity | discriminate].
Defined.

Lemma C5_intent_priority_order_witness :
  exists a : QueryAnalysis,
    analyze_query "Where is the parser class defined" = Some a /\
    intent a = "specific".
Proof.
  destruct (proj1 C5_intent_priority_order "Where is the parser class defined")
    as [a [Ha [_ [_ [_ [Hs _]]]]]].
  exists a. split; [exact Ha |]. apply Hs.
  repeat split; try (apply any_keyword_false; vm_compute; reflexivity).
  apply any_keyword_spec. vm_compute. reflexivity.
Defined.

Lemma C7_complexity_thresholds_witness :
  _assess_complexity "how does the upload endpoint store the files it gets" = "medium".
Proof.
  apply (proj1 C7_complexity_thresholds
           "how does the upload endpoint store the files it gets").
  split.
  - vm_compute. intros [H | H]; discriminate.
  - left. vm_compute. reflexivity.
Defined.

(** ** The planner on missing keys, and the range of its answers *)

Lemma base_values_missing (i : string) :
  i ∉ intents -> base_values !! i = None.
Proof.
  intros Hi. destruct (base_values !! i) as [row|] eqn:E; [| reflexivity].
  exfalso. apply Hi. apply base_values_lookup in E. unfold intents.
  destruct E as [[-> _] | [[-> _] | [[-> _] | [[-> _] | [-> _]]]]]; set_solver.
Qed.

Lemma table_row_shape (i : string) :
  exists lo me hi : Z,
    default (k_row 5 8 12) (base_values !! i) = k_row lo me hi.
Proof.
  destruct (base_values !! i) as [row|] eqn:E; [| cbn; eauto].
  apply base_values_lookup in E.
  destruct E as [[_ ->] | [[_ ->] | [[_ ->] | [[_ ->] | [_ ->]]]]]; cbn; eauto.
Qed.

Lemma k_row_level (lo me hi : Z) (c : string) :
  k_row lo me hi !! c = None <-> c ∉ levels.
Proof.
  unfold levels. split.
  - intros Hnone Hc.
    assert (Hsome : is_Some (k_row lo me hi !! c)).
    { list_cases Hc; eexists; apply k_row_lookup; auto. }
    rewrite Hnone in Hsome. destruct Hsome as [k Hk]. discriminate.
  - intros Hc. destruct (k_row lo me hi !! c) as [k|] eqn:E; [| reflexivity].
    exfalso. apply Hc. apply k_row_lookup in E.
    destruct E as [[-> _] | [[-> _] | [-> _]]]; set_solver.
Qed.

(** An intent that is no key of the table is planned like [general]; the
    subscript by the complexity raises [KeyError] exactly when the
    complexity is none of [low], [medium], [high], whatever the intent. *)
Theorem calculate_base_k_missing_keys :
  (forall i c : string,
     i ∉ intents -> _calculate_base_k i c = _calculate_base_k "general" c) /\
  (forall i c : string, _calculate_base_k i c = None <-> c ∉ levels).
Proof.
  split.
  - intros i c Hi. unfold _calculate_base_k.
    rewrite (base_values_missing i Hi). reflexivity.
  - intros i c. unfold _calculate_base_k.
    destruct (table_row_shape i) as [lo [me [hi ->]]]. apply k_row_level.
Qed.

Lemma calculate_base_k_missing_keys_witness :
  _calculate_base_k "greeting" "high" = _calculate_base_k "general" "high" /\
  _calculate_base_k "summary" "extreme" = None.
Proof.
  split.
  - apply (proj1 calculate_base_k_missing_keys).
    unfold intents. intros H. list_cases H; discriminate.
  - apply (proj2 calculate_base_k_missing_keys).
    unfold levels. intros H. list_cases H; discriminate.
Defined.

Lemma plan_bounds (i c : string) (k : Z) :
  i ∈ intents -> c ∈ levels -> _calculate_base_k i c = Some k ->
  3 <= k <= 35 /\
  3 <= (if bool_decide (i ∈ rerank_intents) then Z.max 3 (k / 2) else k) <= k.
Proof.
  intros Hi Hc Hk. unfold intents, levels in *.
  list_cases Hi; list_cases Hc; vm_compute in Hk; injection Hk as <-;
    vm_compute; repeat split; discriminate.
Qed.

(** Whatever the query, the number of hits asked for lies between 3 and
    35, and the rerank depth between 3 and that number. *)
Theorem analyze_query_plan_bounds (query : string) :
  exists a : QueryAnalysis,
    analyze_query query = Some a /\
    3 <= base_k a <= 35 /\ 3 <= rerank_top_n a <= base_k a.
Proof.
  destruct (analyze_query_total query) as [k [Hk Ha]].
  eexists. split; [exact Ha |]. cbn [base_k rerank_top_n].
  exact (plan_bounds _ _ _ (classify_intent_range _)
           (assess_complexity_range _) Hk).
Qed.

(** ** Letter case *)

Lemma lower_char_idem (c : ascii) :
  Str.lower_char (Str.lower_char c) = Str.lower_char c.
Proof. destruct c as [[] [] [] [] [] [] [] []]; reflexivity. Qed.

Lemma lower_upper_char (c : ascii) :
  Str.lower_char (upper_char c) = Str.lower_char c.
Proof. destruct c as [[] [] [] [] [] [] [] []]; reflexivity. Qed.

Lemma lower_idem (s : string) : Str.lower (Str.lower s) = Str.lower s.
Proof.
  induction s as [|c s IH]; [reflexivity |].
  cbn [Str.lower]. now rewrite lower_char_idem, IH.
Qed.

Lemma lower_upper (s : string) : Str.lower (upper s) = Str.lower s.
Proof.
  induction s as [|c s IH]; [reflexivity |].
  cbn [Str.lower upper]. now rewrite lower_upper_char, IH.
Qed.

(** The analysis does not see the letter case of an ASCII query: the
    query in small letters and the query in capitals are analysed like
    the query itself.  (Outside ASCII [str.upper] can change the letters,
    as in the ligature "fi", which becomes "FI".) *)
Theorem analyze_query_ignores_case (query : string) :
  isascii query = true ->
  analyze_query (Str.lower query) = analyze_query query /\
  analyze_query (upper query) = analyze_query query.
Proof.
  intros _. unfold analyze_query. now rewrite lower_idem, lower_upper.
Qed.

Lemma analyze_query_ignores_case_witness :
  analyze_query (upper "Fix the Bug in Parser") =
    analyze_query "Fix the Bug in Parser".
Proof.
  exact (proj2 (analyze_query_ignores_case "Fix the Bug in Parser" eq_refl)).
Defined.

(** ** A query of whitespace only *)

Lemma space_is_no_word (c : ascii) :
  Str.is_space c = true ->
  Str.is_word c = false /\ word_or_dot c = false /\ Str.is_upper c = false.
Proof. destruct c as [[] [] [] [] [] [] [] []]; intros H; try discriminate H; auto. Qed.

Lemma blank_lower (s : string) : blank (Str.lower s) = blank s.
Proof.
  induction s as [|c s IH]; [reflexivity |].
  cbn [Str.lower blank]. now rewrite is_space_lower_char, IH.
Qed.

Lemma contains_blank (k s : string) :
  blank s = true -> starts_solid k = true -> Str.contains k s = false.
Proof.
  intros Hs Hk. destruct k as [|a k]; [discriminate |]. cbn in Hk.
  induction s as [|c s IH]; [reflexivity |].
  cbn [blank] in Hs. apply andb_true_iff in Hs as [Hc Hs].
  cbn [Str.contains Str.starts_with]. rewrite (IH Hs), orb_false_r.
  destruct (Ascii.eqb_spec a c) as [-> | _]; [| reflexivity].
  rewrite Hc in Hk. discriminate.
Qed.

Lemma any_keyword_blank (keywords : list string) (s : string) :
  blank s = true -> forallb starts_solid keywords = true ->
  any_keyword keywords s = false.
Proof.
  intros Hs. unfold any_keyword.
  induction keywords as [|k ks IH]; [reflexivity |].
  cbn [forallb existsb]. intros Hk. apply andb_true_iff in Hk as [Hk Hks].
  now rewrite (contains_blank k s Hs Hk), (IH Hks).
Qed.

Lemma split_blank (s : string) : blank s = true -> Str.split s = [].
Proof.
  induction s as [|c s IH]; [reflexivity |].
  cbn [blank Str.split]. intros H. apply andb_true_iff in H as [Hc Hs].
  rewrite Hc. exact (IH Hs).
Qed.

Lemma code_pattern_needs_word (prev : option ascii) (s : string) :
  match s with String c _ => word_or_dot c = false | EmptyString => True end ->
  match_here code_pattern_re prev s = None.
Proof.
  intros Hs. unfold match_here, code_pattern_re, Plus, Lit. cbn [rmatch].
  destruct s as [|c s].
  - now destruct (xorb (word_before prev) (word_after EmptyString)).
  - assert (Hw : Str.is_word c = false).
    { unfold word_or_dot in Hs. now apply orb_false_iff in Hs as [Hw _]. }
    rewrite Hs, Hw.
    now destruct (xorb (word_before prev) (word_after (String c s))).
Qed.

Lemma findall_blank (s : string) (prev : option ascii) :
  blank s = true ->
  findall_from code_pattern_re prev s 0 = [] /\
  findall_from camel_case_re prev s 0 = [].
Proof.
  revert prev. induction s as [|c s IH]; intros prev Hs.
  - cbn [findall_from].
    now rewrite code_pattern_needs_word, camel_case_needs_upper.
  - cbn [blank] in Hs. apply andb_true_iff in Hs as [Hc Hs].
    destruct (space_is_no_word c Hc) as [_ [Hd Hu]].
    cbn [findall_from].
    rewrite code_pattern_needs_word, camel_case_needs_upper by assumption.
    exact (IH (Some c) Hs).
Qed.

(** A query that holds nothing but whitespace - the empty query too - is
    analysed without an error: intent [general], complexity and
    specificity [low], 5 hits asked for, no reranking. *)
Theorem blank_query_plan (query : string) :
  blank query = true ->
  analyze_query query =
    Some {| intent := "general"; complexity := "low"; specificity := "low";
            base_k := 5; should_rerank := false; rerank_top_n := 5 |}.
Proof.
  intros Hq. rewrite <- blank_lower in Hq. unfold analyze_query.
  assert (Hi : _classify_intent (Str.lower query) = "general").
  { unfold _classify_intent.
    now rewrite !(any_keyword_blank _ _ Hq) by reflexivity. }
  assert (Hc : _assess_complexity (Str.lower query) = "low").
  { unfold _assess_complexity, word_count, question_words.
    now rewrite (split_blank _ Hq). }
  assert (Hs : _assess_specificity (Str.lower query) = "low").
  { unfold _assess_specificity, specific_terms, code_patterns, findall.
    destruct (findall_blank (Str.lower query) None Hq) as [-> ->].
    reflexivity. }
  rewrite Hi, Hc, Hs. reflexivity.
Qed.

Lemma blank_query_plan_witness :
  exists a : QueryAnalysis,
    analyze_query "   " = Some a /\ base_k a = 5 /\ should_rerank a = false.
Proof.
  eexists. split; [apply (blank_query_plan "   "); reflexivity |].
  split; reflexivity.
Defined.

(** ** Which queries are reranked, and what specificity sees *)

Lemma classify_intent_reranked (q : string) :
  _classify_intent q ∈ rerank_intents <->
  mentions summary_keywords q \/ mentions analysis_keywords q \/
  mentions bug_keywords q.
Proof.
  unfold _classify_intent, rerank_intents.
  destruct (any_keyword summary_keywords q) eqn:E1;
    [apply any_keyword_spec in E1 | apply any_keyword_false in E1].
  { split; [auto | intros _; list_mem]. }
  destruct (any_keyword analysis_keywords q) eqn:E2;
    [apply any_keyword_spec in E2 | apply any_keyword_false in E2].
  { split; [auto | intros _; list_mem]. }
  destruct (any_keyword bug_keywords q) eqn:E3;
    [apply any_keyword_spec in E3 | apply any_keyword_false in E3].
  { split; [auto | intros _; list_mem]. }
  split; [| tauto].
  destruct (any_keyword specific_keywords q);
    rewrite !elem_of_cons, elem_of_nil; intuition discriminate.
Qed.

(** A query is reranked exactly when its lower-cased text holds a keyword
    of the summary, the analysis or the bug list. *)
Theorem reranked_iff_keyword (query : string) :
  exists a : QueryAnalysis,
    analyze_query query = Some a /\
    (should_rerank a = true <->
       mentions summary_keywords (Str.lower query) \/
       mentions analysis_keywords (Str.lower query) \/
       mentions bug_keywords (Str.lower query)).
Proof.
  destruct (analyze_query_total query) as [k [_ Ha]].
  eexists. split; [exact Ha |]. cbn [should_rerank].
  rewrite bool_decide_eq_true. apply classify_intent_reranked.
Qed.

(** The specificity that [analyze_query] reports is decided by the code
    patterns of the lower-cased query alone: [high] for two or more,
    [medium] for one, [low] for none. *)
Theorem specificity_counts_code_patterns (query : string) :
  exists a : QueryAnalysis,
    analyze_query query = Some a /\
    (specificity a = "high" <-> code_patterns (Str.lower query) > 1) /\
    (specificity a = "medium" <-> code_patterns (Str.lower query) = 1) /\
    (specificity a = "low" <-> code_patterns (Str.lower query) = 0).
Proof.
  destruct (analyze_query_total query) as [k [_ Ha]].
  eexists. split; [exact Ha |]. cbn [specificity].
  unfold _assess_specificity. rewrite specific_terms_lower.
  assert (Hn : 0 <= code_patterns (Str.lower query))
    by (unfold code_patterns; lia).
  change (0 >? 2) with false. change (0 >? 0) with false. cbn [orb].
  destruct (Z.gtb_spec (code_patterns (Str.lower query)) 1),
    (Z.gtb_spec (code_patterns (Str.lower query)) 0);
    repeat split; intros; try discriminate; try lia.
Qed.

(** ** Words of a query that grows *)

Lemma split_cons (c : ascii) (s : string) :
  Str.split (String c s) =
  if Str.is_space c then Str.split s
  else match s with
       | EmptyString => [String c EmptyString]
       | String c' _ =>
           if Str.is_space c' then String c EmptyString :: Str.split s
           else match Str.split s with
                | w :: ws => String c w :: ws
                | [] => [String c EmptyString]
                end
       end.
Proof. reflexivity. Qed.

Lemma split_solid_nonempty (c : ascii) (s : string) :
  Str.is_space c = false -> Str.split (String c s) <> [].
Proof.
  intros Hc. rewrite split_cons, Hc. destruct s as [|c' s']; [discriminate |].
  destruct (Str.is_space c'); [discriminate |].
  destruct (Str.split (String c' s')); discriminate.
Qed.

Lemma split_app_space (w : ascii) (s t : string) :
  Str.is_space w = true ->
  Str.split (s +:+ String w t) = Str.split s ++ Str.split t.
Proof.
  intros Hw. induction s as [|c s IH].
  - change (EmptyString +:+ String w t) with (String w t).
    now rewrite split_cons, Hw.
  - change (String c s +:+ String w t) with (String c (s +:+ String w t)).
    rewrite (split_cons c (s +:+ String w t)), (split_cons c s).
    destruct (Str.is_space c) eqn:Hc; [exact IH |].
    destruct s as [|c' s'].
    + change (EmptyString +:+ String w t) with (String w t) in *.
      cbv beta iota. rewrite Hw, IH. reflexivity.
    + change (String c' s' +:+ String w t)
        with (String c' (s' +:+ String w t)) in *.
      cbv beta iota. destruct (Str.is_space c') eqn:Hc'; [now rewrite IH |].
      rewrite IH. pose proof (split_solid_nonempty c' s' Hc') as Hne.
      destruct (Str.split (String c' s')) as [|x xs]; [congruence | reflexivity].
Qed.

(** Appending whitespace and more text to a query adds the words of the
    text to its words, and never lowers the complexity. *)
Theorem complexity_grows_with_query (w : ascii) (s t : string) :
  Str.is_space w = true ->
  Str.split (s +:+ String w t) = Str.split s ++ Str.split t /\
  word_count (s +:+ String w t) = word_count s + word_count t /\
  question_words (s +:+ String w t) = question_words s + question_words t /\
  (_assess_complexity s = "high" ->
     _assess_complexity (s +:+ String w t) = "high") /\
  (_assess_complexity s = "medium" ->
     _assess_complexity (s +:+ String w t) <> "low").
Proof.
  intros Hw. pose proof (split_app_space w s t Hw) as Hsplit.
  assert (Hwc : word_count (s +:+ String w t) = word_count s + word_count t).
  { unfold word_count. rewrite Hsplit, length_app. lia. }
  assert (Hqw : question_words (s +:+ String w t) =
                question_words s + question_words t).
  { unfold question_words. rewrite Hsplit, filter_app, length_app. lia. }
  split; [exact Hsplit |]. split; [exact Hwc |]. split; [exact Hqw |].
  assert (H0 : 0 <= word_count t) by (unfold word_count; lia).
  assert (H1 : 0 <= question_words t) by (unfold question_words; lia).
  unfold _assess_complexity. rewrite Hwc, Hqw.
  destruct (Z.gtb_spec (word_count s) 15), (Z.gtb_spec (question_words s) 2),
    (Z.gtb_spec (word_count s) 8), (Z.gtb_spec (question_words s) 1),
    (Z.gtb_spec (word_count s + word_count t) 15),
    (Z.gtb_spec (question_words s + question_words t) 2),
    (Z.gtb_spec (word_count s + word_count t) 8),
    (Z.gtb_spec (question_words s + question_words t) 1);
    cbn [orb]; split; intros; try discriminate; try reflexivity; try lia.
Qed.

Lemma complexity_grows_with_query_witness :
  word_count ("how does it work" +:+ String " " "and why") =
    word_count "how does it work" + word_count "and why".
Proof.
  apply (complexity_grows_with_query " " "how does it work" "and why").
  reflexivity.
Defined.

(** ** More on the context assembler and on [smart_retrieve] *)

Section AssemblyMore.

Context {score_t : Type} (score_zero : score_t).

Lemma cost_sum_nonneg (hits : list (raw_hit score_t)) : 0 <= cost_sum hits.
Proof.
  induction hits as [|h hits IH]; [reflexivity |].
  unfold cost_sum in *. cbn [foldr].
  pose proof (estimated_tokens_nonneg h). lia.
Qed.

Lemma token_loop_budget_mono (rerank : bool) (b1 b2 : Z)
    (hits : list (raw_hit score_t)) :
  b1 <= b2 ->
  forall (acc : list (chunk_info score_t)) (total : Z),
    fst (token_loop score_zero rerank b1 hits acc total) `prefix_of`
    fst (token_loop score_zero rerank b2 hits acc total).
Proof.
  intros Hb. induction hits as [|h hits IH]; intros acc total.
  - reflexivity.
  - cbn [token_loop].
    destruct (Z.gtb_spec (total + estimated_tokens h) b1) as [H1 | H1],
      (Z.gtb_spec (total + estimated_tokens h) b2) as [H2 | H2].
    + reflexivity.
    + destruct (token_loop_spec score_zero rerank b2 hits
                  (acc ++ [process_hit score_zero rerank h])
                  (total + estimated_tokens h)) as [n [_ [-> _]]].
      cbn [fst]. rewrite <- app_assoc. apply prefix_app_r. reflexivity.
    + lia.
    + apply IH.
Qed.

Lemma token_loop_all_fit (rerank : bool) (m : Z) (hits : list (raw_hit score_t)) :
  forall (acc : list (chunk_info score_t)) (total : Z),
    total + cost_sum hits <= m ->
    token_loop score_zero rerank m hits acc total =
      (acc ++ map (process_hit score_zero rerank) hits, total + cost_sum hits).
Proof.
  induction hits as [|h hits IH]; intros acc total Hfit.
  - cbn. now rewrite app_nil_r, Z.add_0_r.
  - change (cost_sum (h :: hits)) with (estimated_tokens h + cost_sum hits) in *.
    pose proof (cost_sum_nonneg hits). cbn [token_loop].
    destruct (Z.gtb_spec (total + estimated_tokens h) m) as [Hgt | _]; [lia |].
    rewrite IH by lia. rewrite <- app_assoc. cbn [map app]. f_equal. lia.
Qed.

Lemma assemble_within_budget (rerank : bool) (budget : Z)
    (hits : list (raw_hit score_t)) :
  0 <= budget \/ assemble score_zero rerank budget hits <> [] ->
  bundle_tokens (assemble score_zero rerank budget hits) <= budget.
Proof.
  intros Hb. unfold assemble in *.
  destruct (token_loop_spec score_zero rerank budget hits [] 0)
    as [n [_ [Heq [_ [_ Hsum]]]]].
  rewrite Heq in *. cbn [fst app] in *. rewrite bundle_tokens_process.
  assert (Hor : 0 <= budget \/ n <> 0%nat).
  { destruct Hb as [Hb | Hb]; [now left | right]. intros ->. now apply Hb. }
  specialize (Hsum Hor). lia.
Qed.

Lemma assemble_cons_nonempty (rerank : bool) (budget : Z)
    (h : raw_hit score_t) (hits : list (raw_hit score_t)) :
  assemble score_zero rerank budget (h :: hits) <> [] <->
  estimated_tokens h <= budget.
Proof.
  unfold assemble. cbn [token_loop].
  destruct (Z.gtb_spec (0 + estimated_tokens h) budget) as [Hgt | Hle].
  - cbn [fst]. split; [congruence | lia].
  - destruct (token_loop_spec score_zero rerank budget hits
                ([] ++ [process_hit score_zero rerank h])
                (0 + estimated_tokens h)) as [n [_ [-> _]]].
    cbn [fst app]. split; [lia | discriminate].
Qed.

Lemma bundle_chars_tokens (bundle : list (chunk_info score_t)) :
  bundle_chars bundle <= 4 * bundle_tokens bundle + 3 * Z.of_nat (length bundle).
Proof.
  induction bundle as [|c bundle IH]; [reflexivity |].
  unfold bundle_chars, bundle_tokens in *. cbn [foldr length].
  assert (Hlen : 0 <= Str.len (text c)) by (unfold Str.len; lia).
  pose proof (Z.div_mod (Str.len (text c)) 4 ltac:(lia)) as Hdm.
  pose proof (Z.mod_pos_bound (Str.len (text c)) 4 ltac:(lia)) as Hmod.
  lia.
Qed.

End AssemblyMore.

(** A larger budget never loses a hit: the bundle under the smaller budget
    is a prefix of the bundle under the larger one. *)
Theorem assemble_budget_monotone :
  forall (score_t : Type) (score_zero : score_t) (rerank : bool)
         (b1 b2 : Z) (hits : list (raw_hit score_t)),
    b1 <= b2 ->
    assemble score_zero rerank b1 hits `prefix_of`
      assemble score_zero rerank b2 hits /\
    (length (assemble score_zero rerank b1 hits) <=
       length (assemble score_zero rerank b2 hits))%nat.
Proof.
  intros score_t score_zero rerank b1 b2 hits Hb.
  pose proof (token_loop_budget_mono score_zero rerank b1 b2 hits Hb [] 0) as Hp.
  split; [exact Hp |]. now apply prefix_length.
Qed.

Lemma assemble_budget_monotone_witness :
  assemble 0 true 2 [hit_of_length 8; hit_of_length 12] `prefix_of`
    assemble 0 true 5 [hit_of_length 8; hit_of_length 12].
Proof.
  apply (assemble_budget_monotone Z 0 true 2 5 [hit_of_length 8; hit_of_length 12]).
  lia.
Defined.

(** Nothing is dropped exactly when everything fits: if the estimated
    tokens of all hits together are within the budget, the bundle holds
    every hit, in order; and a bundle that holds every hit of a non-empty
    list shows that they fit. *)
Theorem assemble_keeps_all_iff_fits :
  forall (score_t : Type) (score_zero : score_t) (rerank : bool)
         (budget : Z) (hits : list (raw_hit score_t)),
    (cost_sum hits <= budget ->
       assemble score_zero rerank budget hits =
         map (process_hit score_zero rerank) hits) /\
    (hits <> [] ->
       length (assemble score_zero rerank budget hits) = length hits ->
       cost_sum hits <= budget).
Proof.
  intros score_t score_zero rerank budget hits. split.
  - intros Hfit. unfold assemble.
    rewrite token_loop_all_fit by lia. reflexivity.
  - intros Hne Hlen.
    pose proof (assemble_within_budget score_zero rerank budget hits) as Hb.
    unfold assemble in *.
    destruct (token_loop_spec score_zero rerank budget hits [] 0)
      as [n [Hn [Heq _]]].
    rewrite Heq in *. cbn [fst app] in *.
    rewrite length_map, length_take in Hlen.
    rewrite take_ge in Hb by lia. rewrite bundle_tokens_process in Hb.
    apply Hb. right. destruct hits; [congruence | discriminate].
Qed.

Lemma assemble_keeps_all_iff_fits_witness :
  assemble 0 false 5 [hit_of_length 8; hit_of_length 12] =
    map (process_hit 0 false) [hit_of_length 8; hit_of_length 12].
Proof.
  apply (proj1 (assemble_keeps_all_iff_fits Z 0 false 5
                  [hit_of_length 8; hit_of_length 12])).
  vm_compute. discriminate.
Defined.

(** In characters: the texts of a bundle hold at most 4 characters per
    token of the budget and 3 more per chunk. *)
Theorem assemble_character_bound :
  forall (score_t : Type) (score_zero : score_t) (rerank : bool)
         (budget : Z) (hits : list (raw_hit score_t)),
    0 <= budget \/ assemble score_zero rerank budget hits <> [] ->
    bundle_chars (assemble score_zero rerank budget hits) <=
      4 * budget + 3 * Z.of_nat (length (assemble score_zero rerank budget hits)).
Proof.
  intros score_t score_zero rerank budget hits Hb.
  pose proof (assemble_within_budget score_zero rerank budget hits Hb).
  pose proof (bundle_chars_tokens (assemble score_zero rerank budget hits)).
  lia.
Qed.

Lemma assemble_character_bound_witness :
  bundle_chars (assemble 0 false 4 [hit_of_length 11; hit_of_length 11; hit_of_length 11])
    <= 4 * 4 + 3 * 2.
Proof.
  apply (assemble_character_bound Z 0 false 4
           [hit_of_length 11; hit_of_length 11; hit_of_length 11]).
  left. lia.
Defined.

(** [smart_retrieve] answers a non-empty list exactly when the search
    returned hits, the budget is a number, and the first hit fits into it;
    a search that raises, a search without hits and a null budget all end
    in the empty list. *)
Theorem smart_retrieve_nonempty_iff :
  forall (score_t : Type) (score_zero : score_t)
         (search : search_params -> option (list (raw_hit score_t)))
         (query ns : string) (mt : option Z),
    smart_retrieve score_zero search query ns mt <> [] <->
    exists (a : QueryAnalysis) (h : raw_hit score_t)
           (hits : list (raw_hit score_t)) (budget : Z),
      analyze_query query = Some a /\
      search (build_search_params a query ns) = Some (h :: hits) /\
      mt = Some budget /\ estimated_tokens h <= budget.
Proof.
  intros score_t score_zero search query ns mt.
  destruct (analyze_query_total query) as [k [_ Ha]].
  unfold smart_retrieve. rewrite Ha. split.
  - intros Hne.
    destruct (search _) as [[|h hits]|] eqn:Hs; try congruence.
    destruct mt as [budget|]; [| congruence].
    apply assemble_cons_nonempty in Hne.
    eexists _, h, hits, budget. repeat split; eauto.
  - intros [a [h [hits [budget [Ha' [Hs [-> Hfit]]]]]]].
    injection Ha' as <-. rewrite Hs. now apply assemble_cons_nonempty.
Qed.

(** What [smart_retrieve] asks of the index: the query as typed, in the
    given namespace, for [base_k] hits (3 to 35); a rerank entry exactly
    when the analysis says so, keeping [rerank_top_n] hits - at least 3, at
    most the number asked for; and the answer depends on the index through
    this one request only. *)
Theorem smart_retrieve_request :
  forall (query ns : string),
    exists a : QueryAnalysis,
      analyze_query query = Some a /\
      let p := build_search_params a query ns in
      sp_text p = query /\ sp_namespace p = ns /\
      sp_top_k p = base_k a /\ 3 <= sp_top_k p <= 35 /\
      (sp_rerank p = None <-> should_rerank a = false) /\
      (forall r : rerank_params,
         sp_rerank p = Some r ->
         rr_model r = "bge-reranker-v2-m3" /\ rr_top_n r = rerank_top_n a /\
         3 <= rr_top_n r <= sp_top_k p) /\
      (forall (score_t : Type) (score_zero : score_t)
              (search1 search2 : search_params -> option (list (raw_hit score_t)))
              (mt : option Z),
         search1 p = search2 p ->
         smart_retrieve score_zero search1 query ns mt =
           smart_retrieve score_zero search2 query ns mt).
Proof.
  intros query ns. destruct (analyze_query_total query) as [k [Hk Ha]].
  destruct (plan_bounds _ _ _ (classify_intent_range _)
              (assess_complexity_range _) Hk) as [Hk3 Hr].
  eexists. split; [exact Ha |]. cbv zeta.
  unfold build_search_params.
  cbn [sp_text sp_namespace sp_top_k sp_rerank base_k should_rerank rerank_top_n].
  split; [reflexivity |]. split; [reflexivity |]. split; [reflexivity |].
  split; [exact Hk3 |]. split; [| split].
  - destruct (bool_decide _); split; intros; congruence.
  - intros r Hrr. destruct (bool_decide _); [| discriminate].
    injection Hrr as <-. cbn. repeat split; try reflexivity; apply Hr.
  - intros score_t score_zero search1 search2 mt Heq.
    unfold smart_retrieve. rewrite Ha. unfold build_search_params in *.
    cbn [base_k should_rerank rerank_top_n] in *. now rewrite Heq.
Qed.

Lemma smart_retrieve_request_witness :
  smart_retrieve 0 two_hits "Summarize the loader" "ns-1" (Some 8000) =
    smart_retrieve 0 (fun _ => Some [hit_of_length 8; hit_of_length 12])
      "Summarize the loader" "ns-1" (Some 8000).
Proof.
  destruct (smart_retrieve_request "Summarize the loader" "ns-1")
    as [a [_ [_ [_ [_ [_ [_ [_ H]]]]]]]].
  apply H. reflexivity.
Defined.

(** ** The file summary of a chat answer *)

Lemma track_file_get_same (name lang : string) (summary : list (string * file_stat)) :
  get_count name (track_file name lang summary) = get_count name summary + 1.
Proof.
  unfold get_count. induction summary as [|[n st] rest IH].
  - cbn. now rewrite String.eqb_refl.
  - cbn [track_file summary_get].
    destruct (String.eqb n name) eqn:E; cbn [summary_get]; rewrite E.
    + reflexivity.
    + exact IH.
Qed.

Lemma track_file_get_other (name lang other : string)
    (summary : list (string * file_stat)) :
  name <> other ->
  summary_get other (track_file name lang summary) = summary_get other summary.
Proof.
  intros Hne. induction summary as [|[n st] rest IH].
  - cbn. apply String.eqb_neq in Hne. now rewrite Hne.
  - cbn [track_file summary_get].
    destruct (String.eqb n name) eqn:E; cbn [summary_get].
    + apply String.eqb_eq in E. subst n.
      apply String.eqb_neq in Hne. now rewrite Hne.
    + now rewrite IH.
Qed.

Lemma track_file_keys (name lang : string) (summary : list (string * file_stat)) :
  map fst (track_file name lang summary) =
  if bool_decide (name ∈ map fst summary) then map fst summary
  else map fst summary ++ [name].
Proof.
  induction summary as [|[n st] rest IH].
  - reflexivity.
  - cbn [track_file map fst].
    destruct (String.eqb_spec n name) as [-> | Hne].
    + rewrite bool_decide_eq_true_2 by apply list_elem_of_here. reflexivity.
    + cbn [map fst]. rewrite IH.
      destruct (bool_decide (name ∈ map fst rest)) eqn:E.
      * apply bool_decide_eq_true in E.
        rewrite bool_decide_eq_true_2 by now apply list_elem_of_further.
        reflexivity.
      * apply bool_decide_eq_false in E.
        rewrite bool_decide_eq_false_2; [reflexivity |].
        intros Hin. apply elem_of_cons in Hin as [-> | Hin]; [congruence | auto].
Qed.

Lemma track_file_total (name lang : string) (summary : list (string * file_stat)) :
  total_count (track_file name lang summary) = total_count summary + 1.
Proof.
  unfold total_count. induction summary as [|[n st] rest IH].
  - reflexivity.
  - cbn [track_file]. destruct (String.eqb n name); cbn [foldr snd count].
    + lia.
    + rewrite IH. lia.
Qed.

Lemma track_file_language (name lang other : string)
    (summary : list (string * file_stat)) (st : file_stat) :
  summary_get other (track_file name lang summary) = Some st ->
  match summary_get other summary with
  | Some st0 => stat_language st = stat_language st0
  | None => other = name /\ stat_language st = lang
  end.
Proof.
  induction summary as [|[n st0] rest IH].
  - cbn. destruct (String.eqb_spec name other) as [-> | _]; [| discriminate].
    intros H. injection H as <-. auto.
  - cbn [track_file summary_get].
    destruct (String.eqb n name) eqn:E; cbn [summary_get];
      destruct (String.eqb n other) eqn:E'; auto.
    + intros H. injection H as <-. reflexivity.
    + intros H. rewrite H. reflexivity.
    + intros H. injection H as <-. reflexivity.
Qed.

Section SummaryFacts.

Context {score_t : Type}.

Local Abbreviation step :=
  (fun (summary : list (string * file_stat)) (c : chunk_info score_t) =>
     track_file (file_name c) (language c) summary).

Lemma chunks_of_file_cons (name : string) (c : chunk_info score_t)
    (chunks : list (chunk_info score_t)) :
  chunks_of_file name (c :: chunks) =
  (if bool_decide (file_name c = name) then 1 else 0) + chunks_of_file name chunks.
Proof.
  unfold chunks_of_file. rewrite filter_cons.
  destruct (decide (file_name c = name)) as [H | H].
  - rewrite bool_decide_eq_true_2 by exact H. cbn [length]. lia.
  - rewrite bool_decide_eq_false_2 by exact H. lia.
Qed.

Lemma fold_track_count (name : string) (chunks : list (chunk_info score_t)) :
  forall summary : list (string * file_stat),
    get_count name (fold_left step chunks summary) =
    get_count name summary + chunks_of_file name chunks.
Proof.
  induction chunks as [|c chunks IH]; intros summary.
  - cbn. unfold chunks_of_file. cbn. lia.
  - cbn [fold_left]. rewrite IH, chunks_of_file_cons.
    destruct (decide (file_name c = name)) as [H | H].
    + rewrite bool_decide_eq_true_2 by exact H. subst name.
      rewrite track_file_get_same. lia.
    + rewrite bool_decide_eq_false_2 by exact H.
      unfold get_count at 1. rewrite track_file_get_other by exact H.
      fold (get_count name summary). lia.
Qed.

Lemma fold_track_total (chunks : list (chunk_info score_t)) :
  forall summary : list (string * file_stat),
    total_count (fold_left step chunks summary) =
    total_count summary + Z.of_nat (length chunks).
Proof.
  induction chunks as [|c chunks IH]; intros summary.
  - cbn [fold_left length]. lia.
  - cbn [fold_left length]. rewrite IH, track_file_total. lia.
Qed.

Lemma fold_track_keys (chunks : list (chunk_info score_t)) :
  forall summary : list (string * file_stat),
    NoDup (map fst summary) ->
    NoDup (map fst (fold_left step chunks summary)) /\
    (length (fold_left step chunks summary) <= length summary + length chunks)%nat /\
    (forall name : string,
       name ∈ map fst (fold_left step chunks summary) <->
       name ∈ map fst summary \/ exists c, c ∈ chunks /\ file_name c = name).
Proof.
  induction chunks as [|c chunks IH]; intros summary Hnd.
  - cbn. split; [exact Hnd |]. split; [lia |].
    intros name. split; [auto |].
    intros [H | [c [Hc _]]]; [exact H | now apply elem_of_nil in Hc].
  - cbn [fold_left length].
    pose proof (track_file_keys (file_name c) (language c) summary) as Hk.
    assert (Hnd' : NoDup (map fst (track_file (file_name c) (language c) summary))).
    { rewrite Hk. destruct (bool_decide _) eqn:E; [exact Hnd |].
      apply bool_decide_eq_false in E. apply NoDup_app. split; [exact Hnd |].
      split; [| apply NoDup_singleton].
      intros x Hx Hx'. apply list_elem_of_singleton in Hx'. now subst x. }
    assert (Hlen : (length (track_file (file_name c) (language c) summary)
                    <= S (length summary))%nat).
    { rewrite <- (length_map fst), Hk.
      destruct (bool_decide _); rewrite ?length_app, length_map; cbn; lia. }
    destruct (IH _ Hnd') as [H1 [H2 H3]].
    split; [exact H1 |]. split; [lia |].
    intros name. rewrite H3, Hk. split.
    + intros [Hin | [c' [Hc' Hn]]].
      * destruct (bool_decide _); [now left |].
        apply elem_of_app in Hin as [Hin | Hin]; [now left |].
        apply list_elem_of_singleton in Hin. right. exists c.
        split; [apply list_elem_of_here | now symmetry].
      * right. exists c'. split; [now apply list_elem_of_further | exact Hn].
    + intros [Hin | [c' [Hc' Hn]]].
      * left. destruct (bool_decide _); [exact Hin |].
        apply elem_of_app. now left.
      * apply elem_of_cons in Hc' as [-> | Hc'].
        -- left. subst name. destruct (bool_decide _) eqn:E.
           ++ now apply bool_decide_eq_true in E.
           ++ apply elem_of_app. right. apply list_elem_of_here.
        -- right. exists c'. auto.
Qed.

Lemma fold_track_language (name : string) (chunks : list (chunk_info score_t)) :
  forall (summary : list (string * file_stat)) (st : file_stat),
    summary_get name (fold_left step chunks summary) = Some st ->
    match summary_get name summary with
    | Some st0 => stat_language st = stat_language st0
    | None =>
        exists (before : list (chunk_info score_t)) (c : chunk_info score_t)
               (after : list (chunk_info score_t)),
          chunks = before ++ c :: after /\ file_name c = name /\
          (forall c' : chunk_info score_t, c' ∈ before -> file_name c' <> name) /\
          stat_language st = language c
    end.
Proof.
  induction chunks as [|c chunks IH]; intros summary st Hget.
  - cbn in Hget. rewrite Hget. reflexivity.
  - cbn [fold_left] in Hget. specialize (IH _ _ Hget).
    destruct (summary_get name (track_file (file_name c) (language c) summary))
      as [st1|] eqn:E1.
    + pose proof (track_file_language _ _ _ _ _ E1) as Hl.
      destruct (summary_get name summary) as [st0|]; [congruence |].
      destruct Hl as [-> Hl]. exists [], c, chunks.
      split; [reflexivity |]. split; [reflexivity |].
      split; [intros c' Hc'; now apply elem_of_nil in Hc' | congruence].
    + assert (Hne : file_name c <> name).
      { intros Heq. subst name.
        pose proof (track_file_get_same (file_name c) (language c) summary) as Hs.
        unfold get_count in Hs. rewrite E1 in Hs.
        destruct (summary_get (file_name c) summary) as [st0|] eqn:E0; [| lia].
        clear Hs. revert E1. clear -E0.
        induction summary as [|[n s0] rest IHs]; [discriminate |].
        cbn [track_file summary_get] in *.
        destruct (String.eqb n (file_name c)) eqn:En; cbn [summary_get];
          rewrite En; [discriminate | auto]. }
      rewrite track_file_get_other in E1 by exact Hne. rewrite E1.
      destruct IH as [before [c0 [after [-> [Hn [Hb Hl]]]]]].
      exists (c :: before), c0, after.
      split; [reflexivity |]. split; [exact Hn |]. split; [| exact Hl].
      intros c' Hc'. apply elem_of_cons in Hc' as [-> | Hc']; auto.
Qed.

End SummaryFacts.

(** ** What [chat] answers, calls and sends *)

Lemma chat_cases {score_t : Type} (score_zero : score_t)
    (search : search_params -> option (list (raw_hit score_t)))
    (ask_llm : string -> string + string) (format_score : score_t -> string)
    (s : Session) (request : QueryRequest) :
  let chunks :=
    smart_retrieve score_zero search (message request) (namespace s)
      (max_tokens request) in
  let prompt :=
    enhanced_query format_score (summarize chunks) chunks (message request) in
  let retrieve :=
    CallSmartRetrieve (message request) (namespace s) (max_tokens request) in
  let answer := chat score_zero search ask_llm format_score s request in
  (chat_open s = false /\ answer = ([], not_ready_response)) \/
  (chat_open s = true /\ chunks = [] /\
   answer = ([retrieve],
             JSONResponse true nothing_found_message (only_chunks_found 0))) \/
  (chat_open s = true /\
   exists (first : chunk_info score_t) (rest : list (chunk_info score_t)),
     chunks = first :: rest /\
     ((exists detail : string,
         ask_llm prompt = inr detail /\
         answer = ([retrieve; CallAskLLM prompt], HTTPException500 detail)) \/
      (exists response : string,
         ask_llm prompt = inl response /\
         answer =
           ([retrieve; CallAskLLM prompt],
            JSONResponse true response
              {| chunks_found := Z.of_nat (length chunks);
                 files_involved := Some (Z.of_nat (length (summarize chunks)));
                 file_summary := Some (summarize chunks);
                 retrieval_reranked := Some (reranked first) |})))).
Proof.
  cbv zeta. unfold chat, chat_open.
  destruct (path_truthy s); [| left; auto].
  destruct (files_processed s =? 0); [left; auto |]. cbn [negb orb andb].
  right.
  destruct (smart_retrieve score_zero search (message request) (namespace s)
              (max_tokens request)) as [|first rest] eqn:Hret.
  - left. auto.
  - right. split; [reflexivity |]. exists first, rest. split; [reflexivity |].
    destruct (ask_llm _) as [response | detail] eqn:Hllm.
    + right. exists response. auto.
    + left. exists detail. auto.
Qed.

(** The [file_summary] of a chat answer: its keys are the file names of the
    retrieved chunks, each once; the count under a name is the number of
    chunks of that file, and the counts add up to [chunks_found]; the
    language under a name is the language of the first chunk of that file;
    [files_involved] is the number of keys, at least 1 and at most
    [chunks_found]. *)
Theorem chat_file_summary :
  forall (score_t : Type) (score_zero : score_t)
         (search : search_params -> option (list (raw_hit score_t)))
         (ask_llm : string -> string + string) (format_score : score_t -> string)
         (s : Session) (request : QueryRequest)
         (calls : list call) (ok : bool) (response : string)
         (meta : chat_metadata) (summary : list (string * file_stat)),
    chat score_zero search ask_llm format_score s request =
      (calls, JSONResponse ok response meta) ->
    file_summary meta = Some summary ->
    let chunks :=
      smart_retrieve score_zero search (message request) (namespace s)
        (max_tokens request) in
    NoDup (map fst summary) /\
    (forall name : string,
       name ∈ map fst summary <-> exists c, c ∈ chunks /\ file_name c = name) /\
    (forall name : string, get_count name summary = chunks_of_file name chunks) /\
    total_count summary = chunks_found meta /\
    (forall (name : string) (st : file_stat),
       summary_get name summary = Some st ->
       exists (before : list (chunk_info score_t)) (c : chunk_info score_t)
              (after : list (chunk_info score_t)),
         chunks = before ++ c :: after /\ file_name c = name /\
         (forall c' : chunk_info score_t, c' ∈ before -> file_name c' <> name) /\
         stat_language st = language c) /\
    files_involved meta = Some (Z.of_nat (length summary)) /\
    1 <= Z.of_nat (length summary) <= chunks_found meta.
Proof.
  intros score_t score_zero search ask_llm format_score s request calls ok
    response meta summary Hchat Hsum chunks.
  destruct (chat_cases score_zero search ask_llm format_score s request)
    as [[_ H] | [[_ [_ H]] | [_ [first [rest [Hch [[d [_ H]] | [r [_ H]]]]]]]]];
    rewrite H in Hchat; try discriminate;
    try (injection Hchat as _ _ _ <-; discriminate).
  injection Hchat as _ _ _ <-. cbn in Hsum. injection Hsum as <-.
  fold chunks in Hch |- *. unfold summarize.
  destruct (fold_track_keys chunks [] (NoDup_nil_2)) as [Hnd [Hlen Hkeys]].
  split; [exact Hnd |]. split; [| split; [| split; [| split; [| split]]]].
  - intros name. rewrite Hkeys. split; [| auto].
    intros [Hin | Hc]; [now apply elem_of_nil in Hin | exact Hc].
  - intros name. now rewrite fold_track_count.
  - cbn [chunks_found]. now rewrite fold_track_total.
  - intros name st Hget. exact (fold_track_language name chunks [] st Hget).
  - reflexivity.
  - cbn [chunks_found]. cbn [length] in Hlen. split; [| lia].
    assert (Hin : file_name first ∈
                    map fst (fold_left (fun summary c =>
                       track_file (file_name c) (language c) summary) chunks [])).
    { apply Hkeys. right. exists first. rewrite Hch.
      split; [apply list_elem_of_here | reflexivity]. }
    destruct (fold_left _ chunks []); [now apply elem_of_nil in Hin | cbn; lia].
Qed.

Lemma chat_file_summary_witness :
  get_count "main.py" [("main.py", {| count := 2; stat_language := "python" |})] =
    chunks_of_file "main.py"
      (smart_retrieve 0 two_hits (message summary_request)
         (namespace bound_session) (max_tokens summary_request)).
Proof.
  eapply (chat_file_summary Z 0 two_hits llm_ok no_score bound_session
            summary_request).
  - vm_compute. reflexivity.
  - reflexivity.
Defined.

(** How [chat] can end: it raises (HTTP 500) only when the model call
    raises, with that error text; the model is called at most once, after
    a retrieval that found chunks, with the prompt built from them; a JSON
    answer reports success exactly when the guard let the request through,
    and its [chunks_found] is the number of retrieved chunks (0 behind a
    closed guard). *)
Theorem chat_outcomes :
  forall (score_t : Type) (score_zero : score_t)
         (search : search_params -> option (list (raw_hit score_t)))
         (ask_llm : string -> string + string) (format_score : score_t -> string)
         (s : Session) (request : QueryRequest),
    let chunks :=
      smart_retrieve score_zero search (message request) (namespace s)
        (max_tokens request) in
    let prompt :=
      enhanced_query format_score (summarize chunks) chunks (message request) in
    let answer := chat score_zero search ask_llm format_score s request in
    (forall detail : string,
       snd answer = HTTPException500 detail ->
       chat_open s = true /\ chunks <> [] /\ ask_llm prompt = inr detail) /\
    (forall p : string,
       CallAskLLM p ∈ fst answer ->
       chat_open s = true /\ chunks <> [] /\ p = prompt) /\
    (forall (ok : bool) (response : string) (meta : chat_metadata),
       snd answer = JSONResponse ok response meta ->
       ok = chat_open s /\
       chunks_found meta =
         (if chat_open s then Z.of_nat (length chunks) else 0)) /\
    (length (fst answer) <= 2)%nat.
Proof.
  intros score_t score_zero search ask_llm format_score s request. cbv zeta.
  pose proof (chat_cases score_zero search ask_llm format_score s request) as H.
  cbv zeta in H.
  set (chunks := smart_retrieve score_zero search (message request)
                   (namespace s) (max_tokens request)) in *.
  set (prompt := enhanced_query format_score (summarize chunks) chunks
                   (message request)) in *.
  destruct H
    as [[Hg H] | [[Hg [Hc H]] | [Hg [first [rest [Hch [[d [Hl H]] | [r [Hl H]]]]]]]]];
    rewrite H; cbn [fst snd]; rewrite Hg.
  - split; [discriminate |]. split; [| split; [| cbn; lia]].
    + intros p Hp. now apply elem_of_nil in Hp.
    + intros ok response meta Hj. injection Hj as <- _ <-. auto.
  - split; [discriminate |]. split; [| split; [| cbn; lia]].
    + intros p Hp. apply list_elem_of_singleton in Hp. discriminate.
    + intros ok response meta Hj. injection Hj as <- _ <-. rewrite Hc. auto.
  - assert (Hne : chunks <> []) by (rewrite Hch; discriminate).
    split; [| split; [| split; [discriminate | cbn; lia]]].
    + intros detail Hd. injection Hd as <-. auto.
    + intros p Hp. apply elem_of_cons in Hp as [Hp | Hp]; [discriminate |].
      apply list_elem_of_singleton in Hp. injection Hp as ->. auto.
  - assert (Hne : chunks <> []) by (rewrite Hch; discriminate).
    split; [discriminate |]. split; [| split; [| cbn; lia]].
    + intros p Hp. apply elem_of_cons in Hp as [Hp | Hp]; [discriminate |].
      apply list_elem_of_singleton in Hp. injection Hp as ->. auto.
    + intros ok response meta Hj. injection Hj as <- _ <-. auto.
Qed.

Lemma chat_outcomes_witness :
  chat_open bound_session = true /\
  smart_retrieve 0 two_hits (message summary_request) (namespace bound_session)
    (max_tokens summary_request) <> [] /\
  llm_down
    (enhanced_query no_score
       (summarize (smart_retrieve 0 two_hits (message summary_request)
                     (namespace bound_session) (max_tokens summary_request)))
       (smart_retrieve 0 two_hits (message summary_request)
          (namespace bound_session) (max_tokens summary_request))
       (message summary_request)) = inr "Connection error.".
Proof.
  apply (proj1 (chat_outcomes Z 0 two_hits llm_down no_score bound_session
                  summary_request) "Connection error.").
  vm_compute. reflexivity.
Defined.

(** ** What the prompt holds *)

Lemma str_app_cons (x : ascii) (a b : string) :
  String x a +:+ b = String x (a +:+ b).
Proof. reflexivity. Qed.

Lemma str_app_assoc (a b c : string) : (a +:+ b) +:+ c = a +:+ (b +:+ c).
Proof.
  induction a as [|x a IH]; [reflexivity |].
  now rewrite !str_app_cons, IH.
Qed.

Lemma str_app_nil_r (a : string) : a +:+ EmptyString = a.
Proof.
  induction a as [|x a IH]; [reflexivity |].
  now rewrite str_app_cons, IH.
Qed.

Lemma occurs_in_refl (x : string) : occurs_in x x.
Proof.
  exists EmptyString, EmptyString.
  change (EmptyString +:+ x +:+ EmptyString) with (x +:+ EmptyString).
  now rewrite str_app_nil_r.
Qed.

Lemma occurs_in_app_l (x a b : string) : occurs_in x a -> occurs_in x (a +:+ b).
Proof.
  intros [pre [post ->]]. exists pre, (post +:+ b).
  now rewrite !str_app_assoc.
Qed.

Lemma occurs_in_app_r (x a b : string) : occurs_in x b -> occurs_in x (a +:+ b).
Proof.
  intros [pre [post ->]]. exists (a +:+ pre), post.
  now rewrite !str_app_assoc.
Qed.

Lemma occurs_in_trans (x y z : string) :
  occurs_in x y -> occurs_in y z -> occurs_in x z.
Proof.
  intros [pre [post ->]] [pre' [post' ->]].
  exists (pre' +:+ pre), (post +:+ post'). now rewrite !str_app_assoc.
Qed.

Lemma occurs_in_concat (sep x : string) (l : list string) :
  x ∈ l -> occurs_in x (String.concat sep l).
Proof.
  induction l as [|y l IH]; intros Hin; [now apply elem_of_nil in Hin |].
  apply elem_of_cons in Hin as [-> | Hin].
  - destruct l as [|z l]; [apply occurs_in_refl |].
    change (String.concat sep (y :: z :: l))
      with (y +:+ sep +:+ String.concat sep (z :: l)).
    apply occurs_in_app_l, occurs_in_refl.
  - destruct l as [|z l]; [now apply elem_of_nil in Hin |].
    change (String.concat sep (y :: z :: l))
      with (y +:+ sep +:+ String.concat sep (z :: l)).
    apply occurs_in_app_r, occurs_in_app_r, IH, Hin.
Qed.

Ltac occurs_by H :=
  first [ exact H
        | apply occurs_in_app_l; exact H
        | apply occurs_in_app_r; occurs_by H ].

(** Every prompt that [chat] sends to the model holds the question as it
    was asked and, for every retrieved chunk, its text and the name of its
    file. *)
Theorem chat_prompt_contents :
  forall (score_t : Type) (score_zero : score_t)
         (search : search_params -> option (list (raw_hit score_t)))
         (ask_llm : string -> string + string) (format_score : score_t -> string)
         (s : Session) (request : QueryRequest) (p : string),
    CallAskLLM p ∈ fst (chat score_zero search ask_llm format_score s request) ->
    occurs_in (message request) p /\
    forall c : chunk_info score_t,
      c ∈ smart_retrieve score_zero search (message request) (namespace s)
            (max_tokens request) ->
      occurs_in (text c) p /\ occurs_in (file_name c) p.
Proof.
  intros score_t score_zero search ask_llm format_score s request p Hp.
  assert (Hprompt :
    p = enhanced_query format_score
          (summarize (smart_retrieve score_zero search (message request)
                        (namespace s) (max_tokens request)))
          (smart_retrieve score_zero search (message request) (namespace s)
             (max_tokens request)) (message request)).
  { pose proof (chat_cases score_zero search ask_llm format_score s request) as H.
    cbv zeta in H.
    destruct H as [[_ H] | [[_ [_ H]] | [_ [first [rest [_ [[d [_ H]] | [r [_ H]]]]]]]]];
      rewrite H in Hp; cbn [fst] in Hp.
    - now apply elem_of_nil in Hp.
    - apply list_elem_of_singleton in Hp. discriminate.
    - apply elem_of_cons in Hp as [Hp | Hp]; [discriminate |].
      apply list_elem_of_singleton in Hp. now injection Hp.
    - apply elem_of_cons in Hp as [Hp | Hp]; [discriminate |].
      apply list_elem_of_singleton in Hp. now injection Hp. }
  subst p. unfold enhanced_query. split.
  - occurs_by (occurs_in_refl (message request)).
  - intros c Hc.
    assert (Hpart : forall x : string,
              occurs_in x (context_part format_score c) ->
              occurs_in x
                (String.concat (nl +:+ nl +:+ "---" +:+ nl +:+ nl)
                   (map (context_part format_score)
                      (smart_retrieve score_zero search (message request)
                         (namespace s) (max_tokens request))))).
    { intros x Hx. eapply occurs_in_trans; [exact Hx |].
      apply occurs_in_concat. apply list_elem_of_fmap. eauto. }
    split.
    + assert (Ht : occurs_in (text c) (context_part format_score c)).
      { unfold context_part. occurs_by (occurs_in_refl (text c)). }
      specialize (Hpart _ Ht). occurs_by Hpart.
    + assert (Hf : occurs_in (file_name c) (context_part format_score c)).
      { unfold context_part. apply occurs_in_app_l.
        occurs_by (occurs_in_refl (file_name c)). }
      specialize (Hpart _ Hf). occurs_by Hpart.
Qed.

Lemma chat_prompt_contents_witness :
  exists p : string,
    occurs_in "Summarize the loader" p /\
    CallAskLLM p ∈
      fst (chat 0 two_hits llm_ok no_score bound_session summary_request).
Proof.
  eexists. split.
  - eapply (chat_prompt_contents Z 0 two_hits llm_ok no_score bound_session
              summary_request).
    vm_compute. apply list_elem_of_further, list_elem_of_here.
  - vm_compute. apply list_elem_of_further, list_elem_of_here.
Defined.

(** ** Paths and file types *)

Lemma str_length_app (a b : string) :
  String.length (a +:+ b) = (String.length a + String.length b)%nat.
Proof.
  induction a as [|x a IH]; [reflexivity |].
  rewrite str_app_cons. cbn [String.length]. now rewrite IH.
Qed.

Lemma rfind_lower_bound (c : ascii) (s : string) : -1 <= Path.rfind c s.
Proof.
  induction s as [|x s IH]; [reflexivity |]. cbn [Path.rfind].
  destruct (Z.leb_spec 0 (Path.rfind c s)); [lia |].
  destruct (Ascii.eqb x c); lia.
Qed.

Lemma rfind_upper_bound (c : ascii) (s : string) :
  Path.rfind c s < Z.of_nat (String.length s).
Proof.
  induction s as [|x s IH]; [reflexivity |]. cbn [Path.rfind String.length].
  destruct (Z.leb_spec 0 (Path.rfind c s)); [lia |].
  destruct (Ascii.eqb x c); lia.
Qed.

Lemma rfind_absent (c : ascii) (s : string) :
  has_char c s = false -> Path.rfind c s = -1.
Proof.
  induction s as [|x s IH]; [reflexivity |]. cbn [has_char Path.rfind].
  intros H. apply orb_false_iff in H as [Hx Hs]. rewrite (IH Hs), Hx. reflexivity.
Qed.

Lemma rfind_app (c : ascii) (a b : string) :
  Path.rfind c (a +:+ b) =
  if 0 <=? Path.rfind c b then Z.of_nat (String.length a) + Path.rfind c b
  else Path.rfind c a.
Proof.
  induction a as [|x a IH].
  - change (EmptyString +:+ b) with b. cbn [String.length Path.rfind].
    pose proof (rfind_lower_bound c b).
    destruct (Z.leb_spec 0 (Path.rfind c b)); lia.
  - rewrite str_app_cons. cbn [Path.rfind String.length]. rewrite IH.
    pose proof (rfind_lower_bound c a).
    destruct (Z.leb_spec 0 (Path.rfind c b)).
    + destruct (Z.leb_spec 0 (Z.of_nat (String.length a) + Path.rfind c b)); lia.
    + reflexivity.
Qed.

Lemma sdrop_app (a b : string) : Path.sdrop (String.length a) (a +:+ b) = b.
Proof. induction a as [|x a IH]; [now destruct b |]. exact IH. Qed.

Lemma stake_app (a b : string) : Path.stake (String.length a) (a +:+ b) = a.
Proof.
  induction a as [|x a IH]; [now destruct b |].
  rewrite str_app_cons. cbn [String.length Path.stake]. now rewrite IH.
Qed.

Lemma get_app_here (a : string) (x : ascii) (r : string) :
  String.get (String.length a) (a +:+ String x r) = Some x.
Proof. induction a as [|y a IH]; [reflexivity | exact IH]. Qed.

Lemma leading_dots_only_app (a s b : string) :
  Path.leading_dots_only (a +:+ s +:+ b) (Z.of_nat (String.length a))
    (String.length s) = all_dots s.
Proof.
  revert a. induction s as [|x s IH]; intros a; [reflexivity |].
  cbn [String.length Path.leading_dots_only all_dots].
  rewrite Nat2Z.id, str_app_cons, get_app_here.
  destruct (Ascii.eqb x "."%char); [| reflexivity]. cbn [andb].
  specialize (IH (a +:+ String x EmptyString)).
  rewrite str_app_assoc, str_length_app in IH. cbn [String.length] in IH.
  change (String x EmptyString +:+ s +:+ b) with (String x (s +:+ b)) in IH.
  rewrite <- IH. f_equal. lia.
Qed.

Lemma rfind_dir_prefix (d : string) :
  dir_prefix d ->
  Path.rfind "/"%char d + 1 = Z.of_nat (String.length d) /\
  Path.rfind "."%char d < Path.rfind "/"%char d \/ d = "".
Proof.
  intros [-> | [d' ->]]; [now right | left].
  rewrite !rfind_app, str_length_app. cbn.
  pose proof (rfind_upper_bound "."%char d'). lia.
Qed.

Lemma lower_dot (e : string) :
  Str.lower (String "."%char e) = String "."%char (Str.lower e).
Proof. reflexivity. Qed.

Lemma splitext_extension (d stem e : string) :
  dir_prefix d -> has_char "/"%char stem = false -> all_dots stem = false ->
  has_char "."%char e = false -> has_char "/"%char e = false ->
  Path.splitext (d +:+ stem +:+ String "."%char e) =
    (d +:+ stem, String "."%char e).
Proof.
  intros Hd Hstem Hdots He1 He2. unfold Path.splitext.
  assert (Hsep : Path.rfind "/"%char (d +:+ stem +:+ String "."%char e) + 1
                 = Z.of_nat (String.length d)).
  { rewrite !rfind_app. cbn [Path.rfind]. rewrite (rfind_absent _ _ He2).
    cbn. rewrite (rfind_absent _ _ Hstem). cbn.
    destruct Hd as [-> | Hd]; [reflexivity |].
    now destruct (rfind_dir_prefix d (or_intror Hd)) as [[H _] | ->]. }
  assert (Hdot : Path.rfind "."%char (d +:+ stem +:+ String "."%char e)
                 = Z.of_nat (String.length (d +:+ stem))).
  { rewrite <- str_app_assoc, rfind_app. cbn [Path.rfind].
    rewrite (rfind_absent _ _ He1). cbn. lia. }
  rewrite Hdot.
  replace (Path.rfind "/"%char (d +:+ stem +:+ String "."%char e))
    with (Z.of_nat (String.length d) - 1) by lia.
  replace (Z.of_nat (String.length d) - 1 + 1)
    with (Z.of_nat (String.length d)) by lia.
  rewrite str_length_app.
  replace (Z.to_nat (Z.of_nat (String.length d + String.length stem)
                     - Z.of_nat (String.length d)))
    with (String.length stem) by lia.
  rewrite leading_dots_only_app, Hdots. cbn [negb andb].
  destruct (Z.gtb_spec (Z.of_nat (String.length d + String.length stem))
              (Z.of_nat (String.length d) - 1)) as [_ | Hle]; [| lia].
  cbn [andb]. rewrite Nat2Z.id, <- str_length_app, <- str_app_assoc.
  now rewrite stake_app, sdrop_app.
Qed.

(** The language of a file is read off the text behind the last dot of its
    name, whatever the letter case and the directory: for a name with a
    stem that is not dots only, the answer is the entry of the table for
    the lower-cased extension, and [code] when the table has none. *)
Theorem get_file_type_by_extension (d stem e : string) :
  dir_prefix d -> has_char "/"%char stem = false -> all_dots stem = false ->
  has_char "."%char e = false -> has_char "/"%char e = false ->
  _get_file_type (Some (d +:+ stem +:+ String "."%char e)) =
    default "code" (type_map !! String "."%char (Str.lower e)).
Proof.
  intros Hd Hstem Hdots He1 He2. unfold _get_file_type.
  rewrite (splitext_extension d stem e Hd Hstem Hdots He1 He2). cbn [snd].
  rewrite lower_dot.
  destruct (String.eqb_spec (d +:+ stem +:+ String "."%char e) "") as [H | _];
    [| reflexivity].
  exfalso. apply (f_equal String.length) in H.
  rewrite !str_length_app in H. cbn in H. lia.
Qed.

Lemma get_file_type_by_extension_witness :
  _get_file_type (Some ("src/backend/" +:+ "Main" +:+ String "."%char "PY")) =
    "python".
Proof.
  rewrite (get_file_type_by_extension "src/backend/" "Main" "PY");
    [reflexivity | right; now exists "src/backend" | reflexivity ..].
Defined.

Lemma all_dots_no_slash (s : string) :
  all_dots s = true -> has_char "/"%char s = false.
Proof.
  induction s as [|x s IH]; [reflexivity |]. cbn [all_dots has_char].
  intros H. apply andb_true_iff in H as [Hx Hs]. rewrite (IH Hs).
  apply Ascii.eqb_eq in Hx. now subst x.
Qed.

Lemma rfind_all_dots (s : string) :
  all_dots s = true -> s <> "" ->
  Path.rfind "."%char s = Z.of_nat (String.length s) - 1.
Proof.
  induction s as [|x s IH]; [congruence |]. cbn [all_dots].
  intros H _. apply andb_true_iff in H as [Hx Hs].
  cbn [Path.rfind String.length]. rewrite Hx.
  destruct s as [|y s]; [reflexivity |].
  rewrite (IH Hs) by discriminate. cbn [String.length].
  destruct (Z.leb_spec 0 (Z.of_nat (S (String.length s)) - 1)); lia.
Qed.

Lemma leading_dots_only_prefix (a s b : string) (n : nat) :
  all_dots s = true -> (n <= String.length s)%nat ->
  Path.leading_dots_only (a +:+ s +:+ b) (Z.of_nat (String.length a)) n = true.
Proof.
  revert a s. induction n as [|n IH]; intros a s Hs Hn; [reflexivity |].
  destruct s as [|x s]; [cbn in Hn; lia |].
  cbn [all_dots] in Hs. apply andb_true_iff in Hs as [Hx Hs].
  cbn [Path.leading_dots_only].
  rewrite Nat2Z.id, str_app_cons, get_app_here, Hx.
  specialize (IH (a +:+ String x EmptyString) s Hs).
  rewrite str_app_assoc, str_length_app in IH. cbn [String.length] in IH, Hn.
  change (String x EmptyString +:+ s +:+ b) with (String x (s +:+ b)) in IH.
  rewrite <- IH by lia. f_equal. lia.
Qed.

Lemma splitext_no_extension (d dots name : string) :
  dir_prefix d -> all_dots dots = true ->
  has_char "."%char name = false -> has_char "/"%char name = false ->
  Path.splitext (d +:+ dots +:+ name) = (d +:+ dots +:+ name, EmptyString).
Proof.
  intros Hd Hdots Hn1 Hn2. unfold Path.splitext.
  set (p := d +:+ dots +:+ name).
  assert (Hsep : Path.rfind "/"%char p + 1 = Z.of_nat (String.length d)).
  { unfold p. rewrite !rfind_app, (rfind_absent _ _ Hn2). cbn.
    rewrite (rfind_absent _ _ (all_dots_no_slash _ Hdots)). cbn.
    destruct Hd as [-> | Hd]; [reflexivity |].
    now destruct (rfind_dir_prefix d (or_intror Hd)) as [[H _] | ->]. }
  destruct dots as [|x dots].
  - assert (Hdot : Path.rfind "."%char p <= Path.rfind "/"%char p).
    { unfold p in *. change (EmptyString +:+ name) with name in *.
      rewrite !rfind_app, (rfind_absent _ _ Hn1), (rfind_absent _ _ Hn2). cbn.
      destruct (rfind_dir_prefix d Hd) as [[_ H] | ->]; [lia | reflexivity]. }
    destruct (Z.gtb_spec (Path.rfind "."%char p) (Path.rfind "/"%char p));
      [lia | reflexivity].
  - assert (Hdot : Path.rfind "."%char p =
                   Z.of_nat (String.length d) +
                   (Z.of_nat (String.length (String x dots)) - 1)).
    { unfold p. rewrite rfind_app, rfind_app, (rfind_absent _ _ Hn1). cbn [Z.leb].
      change (0 <=? -1) with false. cbv beta iota.
      rewrite (rfind_all_dots _ Hdots) by discriminate.
      cbn [String.length].
      destruct (Z.leb_spec 0 (Z.of_nat (S (String.length dots)) - 1)); [reflexivity | lia]. }
    rewrite Hdot.
    replace (Path.rfind "/"%char p) with (Z.of_nat (String.length d) - 1) by lia.
    replace (Z.of_nat (String.length d) - 1 + 1)
      with (Z.of_nat (String.length d)) by lia.
    unfold p.
    rewrite (leading_dots_only_prefix d (String x dots) name _ Hdots)
      by (cbn [String.length]; lia).
    now rewrite andb_false_r.
Qed.

(** A file whose name has no dot, or only dots in front of a name without
    one (a dotfile), has no extension and is typed [code]; a missing or
    empty path is typed [unknown]. *)
Theorem get_file_type_without_extension :
  (forall d dots name : string,
     dir_prefix d -> all_dots dots = true ->
     has_char "."%char name = false -> has_char "/"%char name = false ->
     d +:+ dots +:+ name <> "" ->
     _get_file_type (Some (d +:+ dots +:+ name)) = "code") /\
  _get_file_type None = "unknown" /\ _get_file_type (Some "") = "unknown".
Proof.
  split; [| split; reflexivity].
  intros d dots name Hd Hdots Hn1 Hn2 Hne. unfold _get_file_type.
  apply String.eqb_neq in Hne. rewrite Hne.
  rewrite (splitext_no_extension d dots name Hd Hdots Hn1 Hn2). reflexivity.
Qed.

Lemma get_file_type_without_extension_witness :
  _get_file_type (Some ("config/" +:+ "." +:+ "gitignore")) = "code".
Proof.
  apply (proj1 get_file_type_without_extension "config/" "." "gitignore");
    [right; now exists "config" | reflexivity | reflexivity | reflexivity |
     discriminate].
Defined.

(** ** Batches *)

Lemma py_slice_inside {A : Type} (l : list A) (s b : Z) :
  0 <= s < Z.of_nat (length l) -> 0 < b ->
  py_slice l s (Z.min (s + b) (Z.of_nat (length l))) =
    take (Z.to_nat b) (drop (Z.to_nat s) l).
Proof.
  intros Hs Hb. unfold py_slice, py_index.
  destruct (Z.ltb_spec s 0); [lia |].
  destruct (Z.ltb_spec (Z.min (s + b) (Z.of_nat (length l))) 0); [lia |].
  rewrite (Z.min_l s) by lia.
  rewrite (Z.min_l (Z.min _ _)) by lia.
  destruct (Z.le_gt_cases (s + b) (Z.of_nat (length l))) as [Hle | Hgt].
  - rewrite Z.min_l by lia. f_equal. lia.
  - rewrite Z.min_r by lia.
    rewrite !take_ge; [reflexivity | |]; rewrite length_drop; lia.
Qed.

Section BatchFacts.

Variable uuid4 : nat -> string.
Variable upsert_records : string -> list upsert_record -> bool.

Lemma upsert_batches_spec (ns : string) (l : list upsert_record) (b : Z) :
  0 < b ->
  forall (m : nat) (j : Z),
    0 <= j -> (j + Z.of_nat m - 1) * b < Z.of_nat (length l) ->
    let out := upsert_batches upsert_records ns l b (seqZ j (Z.of_nat m)) in
    concat (map snd (fst out)) `prefix_of` drop (Z.to_nat (j * b)) l /\
    Forall (fun call => fst call = ns /\
                        (1 <= length (snd call) <= Z.to_nat b)%nat) (fst out) /\
    (length (fst out) <= m)%nat /\
    (snd out = true <->
       Forall (fun call => upsert_records (fst call) (snd call) = true) (fst out) /\
       length (fst out) = m) /\
    (snd out = true ->
       concat (map snd (fst out)) =
         take (m * Z.to_nat b) (drop (Z.to_nat (j * b)) l)).
Proof.
  intros Hb m. induction m as [|m IH]; intros j Hj Hlast.
  - cbv zeta. rewrite seqZ_nil by lia. cbn.
    split; [apply prefix_nil |]. split; [constructor |]. split; [lia |].
    split; [split; auto | reflexivity].
  - cbv zeta. rewrite seqZ_cons by lia. cbn [upsert_batches].
    replace (Z.pred (Z.of_nat (S m))) with (Z.of_nat m) by lia.
    assert (Hstart : 0 <= j * b < Z.of_nat (length l)) by nia.
    rewrite (py_slice_inside l (j * b) b Hstart Hb).
    set (D := drop (Z.to_nat (j * b)) l).
    assert (HD : (1 <= length D)%nat) by (unfold D; rewrite length_drop; lia).
    assert (Hbatch : (1 <= length (take (Z.to_nat b) D) <= Z.to_nat b)%nat)
      by (rewrite length_take; lia).
    destruct (upsert_records ns (take (Z.to_nat b) D)) eqn:Hok.
    + destruct m as [|m'].
      * rewrite seqZ_nil by lia. cbn. rewrite app_nil_r.
        split; [apply prefix_take |]. split; [repeat constructor; cbn; lia |].
        split; [lia |]. split.
        -- split; [intros _; split; [repeat constructor; exact Hok | reflexivity] | auto].
        -- intros _. f_equal. lia.
      * specialize (IH (Z.succ j) ltac:(lia) ltac:(nia)). cbv zeta in IH.
        destruct (upsert_batches upsert_records ns l b
                    (seqZ (Z.succ j) (Z.of_nat (S m')))) as [calls ok].
        cbn [fst snd map concat] in *.
        replace (drop (Z.to_nat (Z.succ j * b)) l)
          with (drop (Z.to_nat b) D) in IH
          by (unfold D; rewrite drop_drop; f_equal; nia).
        destruct IH as [Hpre [Hall [Hlen [Hiff Hcat]]]].
        split.
        { rewrite <- (take_drop (Z.to_nat b) D) at 2. now apply prefix_app. }
        split; [constructor; [cbn; split; [reflexivity | lia] | exact Hall] |].
        cbn [length]. split; [lia |]. split.
        { rewrite Hiff. split.
          - intros [Hf Hl]. split; [constructor; [exact Hok | exact Hf] | lia].
          - intros [Hf Hl]. apply Forall_cons in Hf as [_ Hf].
            split; [exact Hf | lia]. }
        intros Hk. rewrite (Hcat Hk), take_take_drop. f_equal; lia.
    + cbn. rewrite app_nil_r.
      split; [apply prefix_take |]. split; [repeat constructor; cbn; lia |].
      split; [lia |]. split; [| discriminate].
      split; [discriminate |]. intros [Hf _].
      apply Forall_cons in Hf as [Hf _]. cbn in Hf. congruence.
Qed.

Lemma batch_records_index (ns : string) (chunks : list Document) (i : nat)
    (r : upsert_record) :
  imap (batch_record uuid4 ns) chunks !! i = Some r ->
  rec_chunk_index r = Z.of_nat i /\
  exists chunk : Document,
    chunks !! i = Some chunk /\ rec_chunk_text r = page_content chunk.
Proof.
  rewrite list_lookup_imap. destruct (chunks !! i) as [chunk|]; [| discriminate].
  cbn. intros H. injection H as <-. split; [reflexivity | eauto].
Qed.

End BatchFacts.

(** With a positive batch size, [batch_upsert_documents] cuts the records
    - one per chunk, in order, numbered from 0 - into batches of at most
    [batch_size], none empty, and hands them to the index in order until
    one is refused: what was sent is a prefix of the records; [True] is
    returned exactly when every batch went through, and then the batches
    are ceil(n / batch_size) many and make up all records, each once. *)
Theorem batch_upsert_partition :
  forall (uuid4 : nat -> string)
         (upsert_records : string -> list upsert_record -> bool)
         (chunks : list Document) (ns : string) (batch_size : Z),
    0 < batch_size -> chunks <> [] ->
    let records := imap (batch_record uuid4 ns) chunks in
    let out := batch_upsert_documents uuid4 upsert_records chunks ns batch_size in
    length records = length chunks /\
    (forall (i : nat) (r : upsert_record),
       records !! i = Some r ->
       rec_chunk_index r = Z.of_nat i /\
       exists chunk, chunks !! i = Some chunk /\ rec_chunk_text r = page_content chunk) /\
    concat (map snd (fst out)) `prefix_of` records /\
    Forall (fun call => fst call = ns /\
                        (1 <= length (snd call))%nat /\
                        Z.of_nat (length (snd call)) <= batch_size) (fst out) /\
    (snd out = true <->
       Forall (fun call => upsert_records (fst call) (snd call) = true) (fst out) /\
       Z.of_nat (length (fst out)) =
         (Z.of_nat (length chunks) + batch_size - 1) / batch_size) /\
    (snd out = true -> concat (map snd (fst out)) = records).
Proof.
  intros uuid4 upsert_records chunks ns b Hb Hne records out.
  assert (Hlen : length records = length chunks) by apply length_imap.
  split; [exact Hlen |]. split; [apply batch_records_index |].
  subst out. unfold batch_upsert_documents.
  destruct chunks as [|c chunks]; [congruence |].
  fold records. destruct (Z.eqb_spec b 0) as [-> | _]; [lia |].
  set (n := Z.of_nat (length records)) in *.
  set (total := (n + b - 1) / b).
  assert (Hn : 1 <= n) by (unfold n; rewrite Hlen; cbn [length]; lia).
  pose proof (Z.div_mod (n + b - 1) b ltac:(lia)) as Hdm.
  pose proof (Z.mod_pos_bound (n + b - 1) b Hb) as Hmod.
  fold total in Hdm.
  assert (Htot : 1 <= total /\ (total - 1) * b < n /\ n <= total * b) by nia.
  pose proof (upsert_batches_spec upsert_records ns records b Hb
                (Z.to_nat total) 0 ltac:(lia)) as H.
  rewrite Z2Nat.id in H by lia. cbv zeta in H.
  specialize (H ltac:(unfold n in *; lia)).
  change (Z.to_nat (0 * b)) with 0%nat in H. rewrite drop_0 in H.
  destruct H as [Hpre [Hall [_ [Hiff Hcat]]]].
  split; [exact Hpre |]. split; [| split].
  - eapply Forall_impl; [exact Hall |]. intros call [H1 H2].
    split; [exact H1 | lia].
  - rewrite Hiff, <- Hlen. fold n. fold total.
    split; intros [H1 H2]; (split; [exact H1 | lia]).
  - intros Hk. rewrite (Hcat Hk). apply take_ge. unfold n in *. nia.
Qed.

Lemma batch_upsert_partition_witness :
  concat (map snd (fst (batch_upsert_documents (fun _ => "id") (fun _ _ => true)
                          [mkDocument "a" ∅; mkDocument "b" ∅; mkDocument "c" ∅]
                          "ns" 2))) =
    imap (batch_record (fun _ => "id") "ns")
      [mkDocument "a" ∅; mkDocument "b" ∅; mkDocument "c" ∅].
Proof.
  destruct (batch_upsert_partition (fun _ => "id") (fun _ _ => true)
              [mkDocument "a" ∅; mkDocument "b" ∅; mkDocument "c" ∅] "ns" 2
              ltac:(lia) ltac:(discriminate)) as [_ [_ [_ [_ [_ H]]]]].
  apply H. vm_compute. reflexivity.
Defined.

Section BatchEdges.

Variable uuid4 : nat -> string.
Variable upsert_records : string -> list upsert_record -> bool.

Lemma py_slice_negative {A : Type} (l : list A) (i b : Z) :
  0 <= i -> b < 0 -> Z.of_nat (length l) + b <= 0 ->
  py_slice l (i * b) (Z.min (i * b + b) (Z.of_nat (length l))) = [].
Proof.
  intros Hi Hb Hn. unfold py_slice, py_index.
  assert (Hib : i * b <= 0) by nia.
  rewrite (Z.min_l (i * b + b)) by lia.
  destruct (Z.ltb_spec (i * b + b) 0); [| lia].
  rewrite (Z.max_l 0 (i * b + b + _)) by lia.
  destruct (Z.ltb_spec (i * b) 0).
  - replace (Z.to_nat (0 - Z.max 0 (i * b + Z.of_nat (length l)))) with 0%nat by lia.
    apply take_0.
  - rewrite Z.min_l by lia.
    replace (Z.to_nat (0 - i * b)) with 0%nat by lia. apply take_0.
Qed.

Lemma upsert_batches_negative (ns : string) (l : list upsert_record) (b : Z)
    (nums : list Z) :
  b < 0 -> Z.of_nat (length l) + b <= 0 -> Forall (fun i => 0 <= i) nums ->
  Forall (fun call => snd call = [])
    (fst (upsert_batches upsert_records ns l b nums)).
Proof.
  intros Hb Hn. induction nums as [|i nums IH]; intros Hnums.
  - constructor.
  - apply Forall_cons in Hnums as [Hi Hnums]. cbn [upsert_batches].
    rewrite (py_slice_negative l i b Hi Hb Hn).
    destruct (upsert_records ns []).
    + specialize (IH Hnums).
      destruct (upsert_batches upsert_records ns l b nums) as [calls ok].
      cbn [fst] in *. constructor; [reflexivity | exact IH].
    + repeat constructor.
Qed.

End BatchEdges.

(** Outside the positive batch sizes nothing is stored: without chunks or
    with a batch size of 0 the index is not called and [False] comes back;
    with a negative batch size every batch that reaches the index is empty
    - and [True] comes back when the index takes them. *)
Theorem batch_upsert_degenerate :
  forall (uuid4 : nat -> string)
         (upsert_records : string -> list upsert_record -> bool)
         (chunks : list Document) (ns : string) (batch_size : Z),
    (chunks = [] \/ batch_size = 0 ->
       batch_upsert_documents uuid4 upsert_records chunks ns batch_size =
         ([], false)) /\
    (batch_size < 0 ->
       Forall (fun call => snd call = [])
         (fst (batch_upsert_documents uuid4 upsert_records chunks ns batch_size)) /\
       ((forall records, upsert_records ns records = true) -> chunks <> [] ->
        snd (batch_upsert_documents uuid4 upsert_records chunks ns batch_size)
          = true)).
Proof.
  intros uuid4 upsert_records chunks ns b. split.
  - intros [-> | ->]; [reflexivity |]. now destruct chunks.
  - intros Hb. unfold batch_upsert_documents.
    destruct chunks as [|c chunks]; [split; [constructor | congruence] |].
    destruct (Z.eqb_spec b 0) as [-> | _]; [lia |].
    set (records := imap (batch_record uuid4 ns) (c :: chunks)).
    set (n := Z.of_nat (length records)).
    set (total := (n + b - 1) / b).
    split.
    + destruct (Z.le_gt_cases total 0) as [Hle | Hgt].
      * rewrite seqZ_nil by exact Hle. constructor.
      * apply upsert_batches_negative; [exact Hb | |].
        -- pose proof (Z.div_mod (n + b - 1) b ltac:(lia)) as Hdm.
           pose proof (Z.mod_neg_bound (n + b - 1) b Hb) as Hmod.
           fold total in Hdm. fold n. nia.
        -- apply Forall_forall. intros i Hi.
           apply list_elem_of_lookup in Hi as [k Hk].
           destruct (Z.le_gt_cases total (Z.of_nat k)) as [H1 | H1].
           ++ rewrite lookup_seqZ_ge in Hk by exact H1. discriminate.
           ++ rewrite lookup_seqZ_lt in Hk by lia. injection Hk as <-. lia.
    + intros Hok _. generalize (seqZ 0 total). intros nums.
      induction nums as [|i nums IH]; [reflexivity |].
      cbn [upsert_batches]. rewrite Hok.
      destruct (upsert_batches upsert_records ns records b nums). exact IH.
Qed.

Lemma batch_upsert_degenerate_witness :
  snd (batch_upsert_documents (fun _ => "id") (fun _ _ => true)
         [mkDocument "a" ∅] "ns" (-5)) = true /\
  batch_upsert_documents (fun _ => "id") (fun _ _ => true)
    [mkDocument "a" ∅] "ns" 0 = ([], false).
Proof.
  split.
  - apply (proj2 (batch_upsert_degenerate (fun _ => "id") (fun _ _ => true)
                    [mkDocument "a" ∅] "ns" (-5)));
      [lia | reflexivity | discriminate].
  - apply (proj1 (batch_upsert_degenerate (fun _ => "id") (fun _ _ => true)
                    [mkDocument "a" ∅] "ns" 0)).
    now right.
Defined.

(** ** The files that [load_code_files] loads *)

Lemma load_files_spec (root : string) (entries : list entry) (d : Document) :
  d ∈ load_files root entries <->
  exists file content : string,
    File file (Some content) ∈ entries /\ keep_file file = true /\
    d = document_of root file content.
Proof.
  induction entries as [|e entries IH].
  - cbn. split; [intros H; now apply elem_of_nil in H |].
    intros [file [content [H _]]]. now apply elem_of_nil in H.
  - assert (Hskip : (exists file content : string,
                       File file (Some content) ∈ entries /\
                       keep_file file = true /\
                       d = document_of root file content) ->
                    exists file content : string,
                      File file (Some content) ∈ e :: entries /\
                      keep_file file = true /\
                      d = document_of root file content).
    { intros [file [content [H1 H2]]]. exists file, content.
      split; [now apply list_elem_of_further | exact H2]. }
    destruct e as [file [content|] | name children]; cbn [load_files].
    + destruct (keep_file file) eqn:Hk.
      * rewrite elem_of_cons, IH. split.
        -- intros [-> | H]; [| auto].
           exists file, content. split; [apply list_elem_of_here | auto].
        -- intros [file' [content' [Hin [Hk' Hd]]]].
           apply elem_of_cons in Hin as [Hin | Hin].
           ++ injection Hin as -> ->. now left.
           ++ right. eauto.
      * rewrite IH. split; [exact Hskip |].
        intros [file' [content' [Hin [Hk' Hd]]]].
        apply elem_of_cons in Hin as [Hin | Hin]; [| eauto].
        injection Hin as -> ->. congruence.
    + rewrite IH. split; [exact Hskip |].
      intros [file' [content' [Hin Hrest]]].
      apply elem_of_cons in Hin as [Hin | Hin]; [discriminate | eauto].
    + rewrite IH. split; [exact Hskip |].
      intros [file' [content' [Hin Hrest]]].
      apply elem_of_cons in Hin as [Hin | Hin]; [discriminate | eauto].
Qed.

Lemma walk_entry_dir (root name : string) (children : list entry) :
  walk_entry root (Dir name children) =
  if bool_decide (name ∈ SKIP_DIRS) then []
  else load_files (join root name) children ++
       flat_map (walk_entry (join root name)) children.
Proof.
  cbn [walk_entry]. destruct (bool_decide (name ∈ SKIP_DIRS)); reflexivity.
Qed.

Lemma elem_of_flat_map {A B : Type} (f : A -> list B) (l : list A) (y : B) :
  y ∈ flat_map f l <-> exists x : A, x ∈ l /\ y ∈ f x.
Proof.
  induction l as [|a l IH]; cbn [flat_map].
  - split; [intros H; now apply elem_of_nil in H |].
    intros [x [H _]]. now apply elem_of_nil in H.
  - rewrite elem_of_app, IH. split.
    + intros [H | [x [Hx Hy]]].
      * exists a. split; [apply list_elem_of_here | exact H].
      * exists x. split; [now apply list_elem_of_further | exact Hy].
    + intros [x [Hx Hy]]. apply elem_of_cons in Hx as [-> | Hx]; eauto.
Qed.

Lemma visible_cases (root : string) (entries : list entry)
    (dir file content : string) :
  visible root entries dir file content <->
  (dir = root /\ File file (Some content) ∈ entries) \/
  (exists (name : string) (children : list entry),
     Dir name children ∈ entries /\ (name ∉ SKIP_DIRS) /\
     visible (join root name) children dir file content).
Proof.
  split.
  - intros H. destruct H; [left; auto | right; eauto].
  - intros [[-> H] | [name [children [H1 [H2 H3]]]]].
    + now apply visible_here.
    + eapply visible_below; eauto.
Qed.

Lemma walk_entry_spec (e : entry) :
  forall (root : string) (d : Document),
    d ∈ walk_entry root e <->
    exists (name : string) (children : list entry),
      e = Dir name children /\ (name ∉ SKIP_DIRS) /\
      exists dir file content : string,
        visible (join root name) children dir file content /\
        keep_file file = true /\ d = document_of dir file content.
Proof.
  induction e as [name content | name children IH] using entry_nested_ind;
    intros root d.
  - cbn. split; [intros H; now apply elem_of_nil in H |].
    intros [n [ch [H _]]]. discriminate.
  - rewrite walk_entry_dir. destruct (bool_decide (name ∈ SKIP_DIRS)) eqn:Hs.
    + apply bool_decide_eq_true in Hs. split; [intros H; now apply elem_of_nil in H |].
      intros [n [ch [Heq [Hn _]]]]. injection Heq as <- <-. contradiction.
    + apply bool_decide_eq_false in Hs.
      rewrite elem_of_app, load_files_spec, elem_of_flat_map. split.
      * intros [[file [content [Hin [Hk ->]]]] | [e' [He' Hd]]].
        -- exists name, children. split; [reflexivity |]. split; [exact Hs |].
           exists (join root name), file, content.
           split; [now apply visible_here | auto].
        -- rewrite Forall_forall in IH. apply (IH e' He') in Hd.
           destruct Hd as [n' [ch' [-> [Hn' [dir [file [content [Hv Hrest]]]]]]]].
           exists name, children. split; [reflexivity |]. split; [exact Hs |].
           exists dir, file, content. split; [| exact Hrest].
           eapply visible_below; eauto.
      * intros [n [ch [Heq [_ [dir [file [content [Hv [Hk ->]]]]]]]]].
        injection Heq as <- <-.
        apply visible_cases in Hv as [[-> Hin] | [n' [ch' [Hin [Hn' Hv]]]]].
        -- left. eauto.
        -- right. exists (Dir n' ch'). split; [exact Hin |].
           rewrite Forall_forall in IH. apply (IH _ Hin).
           exists n', ch'. split; [reflexivity |]. split; [exact Hn' |].
           exists dir, file, content. auto.
Qed.

(** [load_code_files] loads exactly the readable files that [os.walk]
    reaches without entering a skipped directory and that pass the three
    tests on the file name (not in [SKIP_FILES], matching no skip pattern,
    extension supported); each becomes one document with the text of the
    file and its path as [source]. *)
Theorem load_code_files_spec (folder : string) (entries : list entry)
    (d : Document) :
  d ∈ load_code_files folder entries <->
  exists dir file content : string,
    visible folder entries dir file content /\ keep_file file = true /\
    d = document_of dir file content.
Proof.
  unfold load_code_files.
  rewrite elem_of_app, load_files_spec, elem_of_flat_map. split.
  - intros [[file [content [Hin [Hk ->]]]] | [e [He Hd]]].
    + exists folder, file, content. split; [now apply visible_here | auto].
    + apply walk_entry_spec in Hd
        as [name [children [-> [Hn [dir [file [content [Hv Hrest]]]]]]]].
      exists dir, file, content. split; [| exact Hrest].
      eapply visible_below; eauto.
  - intros [dir [file [content [Hv [Hk ->]]]]].
    apply visible_cases in Hv as [[-> Hin] | [name [children [Hin [Hn Hv]]]]].
    + left. eauto.
    + right. exists (Dir name children). split; [exact Hin |].
      apply walk_entry_spec. exists name, children.
      split; [reflexivity |]. split; [exact Hn |].
      exists dir, file, content. auto.
Qed.

(** ** Extensions and skip patterns *)

Lemma loaded_document_kept (folder : string) (entries : list entry)
    (d : Document) :
  d ∈ load_code_files folder entries ->
  exists dir file content : string,
    keep_file file = true /\ d = document_of dir file content.
Proof.
  unfold load_code_files.
  rewrite elem_of_app, load_files_spec, elem_of_flat_map.
  intros [[file [content [Hin [Hk ->]]]] | [e [He Hd]]].
  - exists folder, file, content. auto.
  - apply walk_entry_spec in Hd
      as [name [children [-> [Hn [dir [file [content [Hv Hrest]]]]]]]].
    exists dir, file, content. exact Hrest.
Qed.

Lemma rfind_negative_absent (c : ascii) (s : string) :
  Path.rfind c s < 0 -> has_char c s = false.
Proof.
  induction s as [|x s IH]; [reflexivity |]. cbn [Path.rfind has_char].
  destruct (Z.leb_spec 0 (Path.rfind c s)) as [H | H]; [lia |].
  destruct (Ascii.eqb x c); [lia |]. intros _. now rewrite (IH H).
Qed.

Lemma rfind_sdrop (c : ascii) (s : string) :
  0 <= Path.rfind c s ->
  exists e : string,
    Path.sdrop (Z.to_nat (Path.rfind c s)) s = String c e /\
    has_char c e = false.
Proof.
  induction s as [|x s IH]; [cbn; lia |]. cbn [Path.rfind].
  destruct (Z.leb_spec 0 (Path.rfind c s)) as [H | H].
  - intros _. destruct (IH H) as [e [He1 He2]]. exists e.
    split; [| exact He2].
    replace (Z.to_nat (Path.rfind c s + 1)) with (S (Z.to_nat (Path.rfind c s)))
      by lia.
    exact He1.
  - destruct (Ascii.eqb_spec x c) as [-> | _]; [| lia].
    intros _. exists s. split; [reflexivity | now apply rfind_negative_absent].
Qed.

Lemma splitext_ext_shape (p : string) :
  snd (Path.splitext p) = "" \/
  exists e : string,
    snd (Path.splitext p) = String "."%char e /\ has_char "."%char e = false.
Proof.
  unfold Path.splitext.
  destruct (Z.gtb_spec (Path.rfind "."%char p) (Path.rfind "/"%char p)) as [H | H];
    [| now left].
  cbn [andb]. destruct (negb _); [| now left]. right. cbn [snd].
  apply rfind_sdrop. pose proof (rfind_lower_bound "/"%char p). lia.
Qed.

Lemma lower_char_dot (x : ascii) :
  Ascii.eqb (Str.lower_char x) "."%char = Ascii.eqb x "."%char.
Proof. destruct x as [[] [] [] [] [] [] [] []]; reflexivity. Qed.

Lemma has_dot_lower (e : string) :
  has_char "."%char (Str.lower e) = has_char "."%char e.
Proof.
  induction e as [|x e IH]; [reflexivity |].
  cbn [Str.lower has_char]. now rewrite lower_char_dot, IH.
Qed.

Lemma supported_is_loadable (file : string) :
  Str.lower (snd (Path.splitext file)) ∈ SUPPORTED_EXTENSIONS ->
  Str.lower (snd (Path.splitext file)) ∈ loadable_extensions.
Proof.
  intros Hin. destruct (splitext_ext_shape file) as [He | [e [He Hdot]]].
  - rewrite He in Hin. cbn in Hin. unfold SUPPORTED_EXTENSIONS in Hin.
    list_cases Hin; discriminate.
  - rewrite He in *. rewrite lower_dot in *.
    rewrite <- has_dot_lower in Hdot.
    unfold SUPPORTED_EXTENSIONS, loadable_extensions in *.
    change (".txt" +:+ ".sql") with ".txt.sql" in Hin.
    repeat (apply elem_of_cons in Hin as [Hin | Hin];
            [first [ solve [rewrite Hin; list_mem]
                   | injection Hin as Hin; rewrite Hin in Hdot; discriminate ] |]).
    now apply elem_of_nil in Hin.
Qed.

Lemma fnmatch_plain (lit name : string) :
  plain lit = true -> (fnmatch_pat lit name = true <-> name = lit).
Proof.
  revert name. induction lit as [|c lit IH]; intros name Hp.
  - cbn. apply String.eqb_eq.
  - cbn [plain] in Hp. apply andb_true_iff in Hp as [Hp Hl].
    apply andb_true_iff in Hp as [H1 H2].
    apply negb_true_iff in H1, H2. cbn [fnmatch_pat]. rewrite H1, H2.
    destruct name as [|x name]; [split; discriminate |].
    rewrite andb_true_iff, Ascii.eqb_eq, (IH name Hl). split.
    + intros [-> ->]. reflexivity.
    + intros H. injection H as -> ->. auto.
Qed.

Lemma fnmatch_star_plain (lit name : string) :
  plain lit = true ->
  (fnmatch_pat (String "*"%char lit) name = true <->
   exists pre : string, name = pre +:+ lit).
Proof.
  intros Hp. induction name as [|x name IH].
  - cbn. rewrite orb_false_r, (fnmatch_plain lit "" Hp). split.
    + intros <-. now exists EmptyString.
    + intros [pre H]. destruct pre; [exact H | discriminate].
  - change (fnmatch_pat (String "*"%char lit) (String x name))
      with (fnmatch_pat lit (String x name) ||
            fnmatch_pat (String "*"%char lit) name).
    rewrite orb_true_iff, (fnmatch_plain lit _ Hp), IH. split.
    + intros [<- | [pre ->]]; [now exists EmptyString |].
      now exists (String x pre).
    + intros [pre H]. destruct pre as [|y pre].
      * left. exact H.
      * right. rewrite str_app_cons in H. injection H as _ ->. now exists pre.
Qed.

Lemma skip_pattern_rejects (file pattern : string) :
  pattern ∈ SKIP_FILE_PATTERNS -> fnmatch file pattern = true ->
  keep_file file = false.
Proof.
  intros Hin Hm. unfold keep_file.
  assert (He : existsb (fun pattern => fnmatch file pattern) SKIP_FILE_PATTERNS
               = true).
  { apply existsb_exists. exists pattern. split; [| exact Hm].
    now apply list_elem_of_In. }
  rewrite He. cbn [negb]. now rewrite andb_false_r.
Qed.

(** No text or SQL file is loaded: the extension of a file that is loaded
    is one of 25, among them neither [.txt] nor [.sql] (in the list the two
    stand as the one string that no file name can end in); and a file
    named [stem.txt] or [stem.sql] never passes the tests. *)
Theorem loaded_extensions :
  (forall (folder : string) (entries : list entry) (d : Document),
     d ∈ load_code_files folder entries ->
     exists dir file content : string,
       d = document_of dir file content /\
       Str.lower (snd (Path.splitext file)) ∈ loadable_extensions) /\
  (forall stem : string,
     has_char "/"%char stem = false -> all_dots stem = false ->
     keep_file (stem +:+ ".txt") = false /\
     keep_file (stem +:+ ".sql") = false).
Proof.
  split.
  - intros folder entries d Hd.
    apply loaded_document_kept in Hd as [dir [file [content [Hk ->]]]].
    exists dir, file, content. split; [reflexivity |].
    unfold keep_file in Hk. apply andb_true_iff in Hk as [_ Hk].
    apply bool_decide_eq_true in Hk. now apply supported_is_loadable.
  - intros stem Hs Hd.
    pose proof (splitext_extension "" stem "txt" (or_introl eq_refl) Hs Hd
                  eq_refl eq_refl) as Ht.
    pose proof (splitext_extension "" stem "sql" (or_introl eq_refl) Hs Hd
                  eq_refl eq_refl) as Hq.
    change ("" +:+ stem +:+ String "."%char "txt") with (stem +:+ ".txt") in Ht.
    change ("" +:+ stem +:+ String "."%char "sql") with (stem +:+ ".sql") in Hq.
    unfold keep_file. rewrite Ht, Hq. cbn [snd].
    split; apply andb_false_iff; right; apply bool_decide_eq_false;
      unfold SUPPORTED_EXTENSIONS; intros H; list_cases H; discriminate.
Qed.

Lemma loaded_extensions_witness :
  keep_file ("notes" +:+ ".txt") = false /\
  keep_file ("schema" +:+ ".sql") = false.
Proof.
  split.
  - apply (proj2 loaded_extensions "notes"); reflexivity.
  - apply (proj2 loaded_extensions "schema"); reflexivity.
Defined.

(** Files that the skip patterns name by their ending are never loaded:
    a file whose name ends in one of [.config.js], [.config.ts],
    [.config.cjs], [.config.mjs], [.d.ts], [.map], [.min.js], [.min.css],
    [.lock], [.log], [.tmp], [.cache] fails the tests, and so does every
    file listed in [SKIP_FILES]. *)
Theorem skipped_files_not_loaded :
  (forall pre ending : string,
     ending ∈ skipped_endings -> keep_file (pre +:+ ending) = false) /\
  (forall file : string, file ∈ SKIP_FILES -> keep_file file = false) /\
  (forall (folder : string) (entries : list entry) (d : Document),
     d ∈ load_code_files folder entries ->
     exists dir file content : string,
       d = document_of dir file content /\ (file ∉ SKIP_FILES) /\
       forall pre ending : string,
         ending ∈ skipped_endings -> file <> pre +:+ ending).
Proof.
  assert (Hend : forall pre ending : string,
            ending ∈ skipped_endings -> keep_file (pre +:+ ending) = false).
  { intros pre ending He.
    apply (skip_pattern_rejects _ (String "*"%char ending)).
    - unfold skipped_endings in He. unfold SKIP_FILE_PATTERNS.
      list_cases He; list_mem.
    - unfold fnmatch. apply fnmatch_star_plain; [| now exists pre].
      unfold skipped_endings in He. list_cases He; reflexivity. }
  assert (Hskip : forall file : string,
            file ∈ SKIP_FILES -> keep_file file = false).
  { intros file Hf. unfold keep_file. now rewrite (bool_decide_eq_true_2 _ Hf). }
  split; [exact Hend |]. split; [exact Hskip |].
  intros folder entries d Hd.
  apply loaded_document_kept in Hd as [dir [file [content [Hk ->]]]].
  exists dir, file, content. split; [reflexivity |]. split.
  - intros Hf. rewrite (Hskip file Hf) in Hk. discriminate.
  - intros pre ending He ->. rewrite (Hend pre ending He) in Hk. discriminate.
Qed.

Lemma skipped_files_not_loaded_witness :
  keep_file ("bundle" +:+ ".min.js") = false /\ keep_file "setup.py" = false.
Proof.
  split.
  - apply (proj1 skipped_files_not_loaded "bundle" ".min.js").
    unfold skipped_endings. list_mem.
  - apply (proj1 (proj2 skipped_files_not_loaded) "setup.py").
    unfold SKIP_FILES. list_mem.
Defined.

(** ** The session through reset and upload *)

(** A reset ends every session in the empty state: the namespace is the
    fresh one, no path, no processed files; the next chat request is
    answered "not ready" without any call and [has_data] is false; the
    disk is touched only by the one [rmtree] of a root path that was set
    and existed. *)
Theorem reset_session_clears :
  forall (rmtree : string -> (string -> bool) -> string -> bool)
         (w : World) (fresh : string),
    let w' := fst (reset_session rmtree w fresh) in
    snd (reset_session rmtree w fresh) = fresh /\
    current_session w' = generate_new_session fresh /\
    (forall (score_t : Type) (score_zero : score_t)
            (search : search_params -> option (list (raw_hit score_t)))
            (ask_llm : string -> string + string)
            (format_score : score_t -> string) (request : QueryRequest),
       chat score_zero search ask_llm format_score (current_session w') request
         = ([], not_ready_response)) /\
    (forall path_exists : string -> bool,
       has_data path_exists (current_session w') = false) /\
    (disk w' = disk w \/
     exists p : string,
       path (current_session w) = Some p /\ p <> "" /\ disk w p = true /\
       disk w' = rmtree p (disk w)).
Proof.
  intros rmtree w fresh w'. subst w'. unfold reset_session. cbn [fst snd].
  split; [reflexivity |]. split; [reflexivity |]. split; [reflexivity |].
  split; [reflexivity |]. cbn [disk].
  destruct (path (current_session w)) as [p|]; [| now left].
  destruct (String.eqb_spec p "") as [-> | Hp]; [now left |]. cbn [negb andb].
  destruct (disk w p) eqn:Hd; [| now left].
  right. exists p. auto.
Qed.

Section UploadFacts.

Variable uuid4 : nat -> string.
Variable upsert_records : string -> list upsert_record -> bool.
Variable split_documents : Z -> Z -> list Document -> list Document + string.

Lemma anonymous_records (u u' : nat -> string) (ns : string)
    (file_path : option string) (chunks : list Document) :
  map anonymous (imap (document_record u ns file_path) chunks) =
  map anonymous (imap (document_record u' ns file_path) chunks).
Proof.
  generalize (document_record u ns file_path) (document_record u' ns file_path)
    (fun (i : nat) (c : Document) =>
       eq_refl : anonymous (document_record u ns file_path i c) =
                 anonymous (document_record u' ns file_path i c)).
  induction chunks as [|c chunks IH]; intros f g Hfg; [reflexivity |].
  cbn [imap map]. f_equal; [apply Hfg |].
  apply IH. intros i c'. apply Hfg.
Qed.

Lemma upload_loop_spec (ns : string) (cs co : Z) (documents : list Document) :
  forall drawn total processed : nat,
    let out := upload_loop uuid4 upsert_records split_documents ns cs co
                 documents drawn total processed in
    (forallb (splits split_documents cs co) documents = true ->
     map anonymous_call (fst out) =
       map (fun doc => (ns, file_records split_documents ns cs co doc))
         (List.filter (has_chunks split_documents cs co) documents) /\
     exists total' : nat,
       snd out =
         inl (total',
              (processed +
               length (List.filter (accepted upsert_records) (fst out)))%nat)) /\
    (forallb (splits split_documents cs co) documents = false ->
     exists detail : string, snd out = inr detail).
Proof.
  induction documents as [|doc rest IH]; intros drawn total processed.
  - cbn. split; [| discriminate]. intros _. split; [reflexivity |].
    exists total. now rewrite Nat.add_0_r.
  - cbv zeta. cbn [upload_loop forallb List.filter].
    assert (Hsp : splits split_documents cs co doc =
                  match chunk_documents split_documents [doc] cs co with
                  | inl _ => true | inr _ => false end) by reflexivity.
    assert (Hco : chunks_of split_documents cs co doc =
                  match chunk_documents split_documents [doc] cs co with
                  | inl chunks => chunks | inr _ => [] end) by reflexivity.
    assert (Hr : file_records split_documents ns cs co doc =
                 map anonymous
                   (imap (document_record (fun _ => "") ns
                            (Some (source_of doc)))
                      (chunks_of split_documents cs co doc)))
      by reflexivity.
    assert (Hh : has_chunks split_documents cs co doc =
                 match chunks_of split_documents cs co doc with
                 | [] => false | _ :: _ => true end) by reflexivity.
    destruct (chunk_documents split_documents [doc] cs co)
      as [[|c chunks] | detail].
    + rewrite Hco in Hh. rewrite Hh, Hsp. cbn [andb]. apply IH.
    + rewrite Hco in Hh, Hr. rewrite Hh, Hsp. cbn [andb].
      unfold upsert_documents.
      set (records := imap (document_record (fun i => uuid4 (drawn + i)) ns
                              (Some (source_of doc))) (c :: chunks)).
      assert (Hrec : map anonymous records =
                     file_records split_documents ns cs co doc).
      { rewrite Hr. apply anonymous_records. }
      destruct (upsert_records ns records) eqn:Hup.
      * specialize (IH (drawn + length (c :: chunks))%nat
                       (total + length (c :: chunks))%nat (processed + 1)%nat).
        cbv zeta in IH.
        destruct (upload_loop uuid4 upsert_records split_documents ns cs co rest
                    (drawn + length (c :: chunks))
                    (total + length (c :: chunks)) (processed + 1))
          as [calls' counters].
        cbn [fst snd] in *. destruct IH as [IHok IHbad].
        split; [| exact IHbad].
        intros Hall. destruct (IHok Hall) as [Hcalls [total' ->]].
        change (upsert_records ns records)
          with (accepted upsert_records (ns, records)) in Hup.
        cbn [app map List.filter]. unfold anonymous_call at 1.
        cbn [fst snd]. rewrite Hup, Hrec, Hcalls.
        split; [reflexivity |]. exists total'. cbn [length].
        do 2 f_equal. lia.
      * specialize (IH (drawn + length (c :: chunks))%nat total processed).
        cbv zeta in IH.
        destruct (upload_loop uuid4 upsert_records split_documents ns cs co rest
                    (drawn + length (c :: chunks)) total processed)
          as [calls' counters].
        cbn [fst snd] in *. destruct IH as [IHok IHbad].
        split; [| exact IHbad].
        intros Hall. destruct (IHok Hall) as [Hcalls [total' ->]].
        change (upsert_records ns records)
          with (accepted upsert_records (ns, records)) in Hup.
        cbn [app map List.filter]. unfold anonymous_call at 1.
        cbn [fst snd]. rewrite Hup, Hrec, Hcalls.
        split; [reflexivity |]. now exists total'.
    + rewrite Hsp. cbn [andb fst snd]. split; [discriminate |].
      intros _. now exists detail.
Qed.

Lemma github_loop_spec (documents : list Document) :
  (forallb (splits split_documents 800 100) documents = true ->
   github_loop split_documents documents =
     inl (github_chunks split_documents documents)) /\
  (forallb (splits split_documents 800 100) documents = false ->
   exists detail : string, github_loop split_documents documents = inr detail).
Proof.
  induction documents as [|doc rest [IHok IHbad]].
  - split; [reflexivity | discriminate].
  - cbn [github_loop forallb]. unfold github_chunks. cbn [flat_map].
    fold (github_chunks split_documents rest).
    unfold splits at 1 3, chunks_of at 1.
    destruct (chunk_documents split_documents [doc] 800 100) as [chunks | detail].
    + cbn [andb]. split.
      * intros Hall. now rewrite (IHok Hall).
      * intros Hall. destruct (IHbad Hall) as [detail ->]. now exists detail.
    + split; [discriminate |]. intros _. now exists detail.
Qed.

Lemma accepted_none_when_down (calls : list (string * list upsert_record)) :
  (forall ns records, upsert_records ns records = false) ->
  List.filter (accepted upsert_records) calls = [].
Proof.
  intros Hdown. induction calls as [|x l IH]; [reflexivity |].
  cbn [List.filter]. unfold accepted at 1. now rewrite Hdown.
Qed.

End UploadFacts.

(** [upload_github] keeps the namespace.  When the clone raises, nothing
    changes.  After a clone the root path is the new folder.  The upload
    answers OK exactly when a file was loaded and the splitter took every
    document; every other upload ends in a 500 that leaves the count of
    processed files what it was and has called the index not once.  An
    upload that answers OK sets the count to the number of loaded
    documents and hands all tagged chunks to [batch_upsert_documents] in
    batches of 50 - whatever the index did with the batches - so that a
    later chat request passes the guard.  The session and the answer do
    not depend on the index or on the chunk size and overlap asked for. *)
Theorem upload_github_session :
  forall (uuid4 : nat -> string)
         (upsert_records : string -> list upsert_record -> bool)
         (split_documents : Z -> Z -> list Document -> list Document + string)
         (clone_repo : string -> string + string)
         (folder_entries : string -> list entry)
         (s : Session) (repo_url : string) (chunk_size chunk_overlap : Z),
    let out := upload_github uuid4 upsert_records split_documents clone_repo
                 folder_entries s repo_url chunk_size chunk_overlap in
    let s' := fst (fst out) in
    namespace s' = namespace s /\
    (forall detail : string,
       clone_repo repo_url = inr detail ->
       out = (s, [], Upload500 detail)) /\
    (forall folder : string,
       clone_repo repo_url = inl folder ->
       let documents := load_code_files folder (folder_entries folder) in
       path s' = Some folder /\
       ((exists message : string, snd out = UploadOK message (namespace s)) <->
        documents <> [] /\
        forallb (splits split_documents 800 100) documents = true) /\
       (forall detail : string,
          snd out = Upload500 detail ->
          files_processed s' = files_processed s /\ snd (fst out) = []) /\
       (documents <> [] ->
        forallb (splits split_documents 800 100) documents = true ->
        files_processed s' = Z.of_nat (length documents) /\
        snd (fst out) =
          fst (batch_upsert_documents uuid4 upsert_records
                 (github_chunks split_documents documents) (namespace s) 50) /\
        (folder <> "" -> chat_open s' = true))) /\
    (forall (upsert_records' : string -> list upsert_record -> bool)
            (chunk_size' chunk_overlap' : Z),
       let out' := upload_github uuid4 upsert_records' split_documents
                     clone_repo folder_entries s repo_url chunk_size'
                     chunk_overlap' in
       fst (fst out') = s' /\ snd out' = snd out).
Proof.
  intros uuid4 upsert_records split_documents clone_repo folder_entries s
    repo_url chunk_size chunk_overlap. cbv zeta. unfold upload_github.
  destruct (clone_repo repo_url) as [folder | detail].
  - destruct (load_code_files folder (folder_entries folder)) as [|d docs] eqn:Hd.
    + cbn [fst snd namespace path files_processed].
      split; [reflexivity |]. split; [discriminate |]. split; [| auto].
      intros f Hf. injection Hf as <-. rewrite Hd. split; [reflexivity |].
      split; [| split].
      * split; [intros [m Hm]; discriminate | intros [H _]; congruence].
      * intros _ _. auto.
      * intros H. congruence.
    + destruct (github_loop_spec split_documents (d :: docs)) as [Hok Hbad].
      destruct (forallb (splits split_documents 800 100) (d :: docs)) eqn:Hall.
      * rewrite (Hok eq_refl).
        cbn [fst snd namespace path files_processed].
        split; [reflexivity |]. split; [discriminate |]. split; [| auto].
        intros f Hf. injection Hf as <-. rewrite Hd, Hall.
        split; [reflexivity |]. split; [| split].
        -- split; [intros _; split; [discriminate | reflexivity] | eauto].
        -- intros detail Hdet. discriminate.
        -- intros _ _. split; [reflexivity |]. split.
           ++ destruct (github_chunks split_documents (d :: docs));
                reflexivity.
           ++ intros Hne. unfold chat_open, path_truthy.
              cbn [path files_processed].
              apply String.eqb_neq in Hne. rewrite Hne. cbn [negb andb].
              apply negb_true_iff, Z.eqb_neq. cbn [length]. lia.
      * destruct (Hbad eq_refl) as [detail ->].
        cbn [fst snd namespace path files_processed].
        split; [reflexivity |]. split; [discriminate |]. split; [| auto].
        intros f Hf. injection Hf as <-. rewrite Hd, Hall.
        split; [reflexivity |]. split; [| split].
        -- split; [intros [m Hm]; discriminate | intros [_ H]; discriminate].
        -- intros _ _. auto.
        -- intros _ H. discriminate.
  - cbn [fst snd]. split; [reflexivity |]. split; [| split; [discriminate | auto]].
    intros d Hd. now injection Hd as <-.
Qed.

Lemma upload_github_session_witness :
  chat_open
    (fst (fst (upload_github (fun _ => "id") index_down one_chunk clone_to_tmp
                 small_repo fresh_session "https://github.com/a/b" 800 100)))
    = true.
Proof.
  destruct (upload_github_session (fun _ => "id") index_down one_chunk
              clone_to_tmp small_repo fresh_session "https://github.com/a/b"
              800 100) as [_ [_ [H _]]].
  destruct (H "/tmp/rag-data/tmpk3" eq_refl) as [_ [_ [_ H2]]].
  apply H2; [vm_compute; discriminate | vm_compute; reflexivity | discriminate].
Defined.

(** [upload_files] keeps the namespace and makes the new directory the
    root path.  It answers OK exactly when the files were written, a file
    was loaded and the splitter took every document; every other upload
    ends in a 500 that leaves the count of processed files what it was.
    An upload that answers OK has called the index once for every document
    that has chunks, in order, with the records of that document (one for
    each chunk, whatever identifiers were drawn); and the count of
    processed files it leaves is the number of calls that the index took -
    0 when the index took none, in which case chat stays closed after an
    upload that answered OK. *)
Theorem upload_files_counts :
  forall (uuid4 : nat -> string)
         (upsert_records : string -> list upsert_record -> bool)
         (split_documents : Z -> Z -> list Document -> list Document + string)
         (folder_entries : string -> list entry)
         (s : Session) (temp_dir : string) (save_error : option string)
         (chunk_size chunk_overlap : Z),
    let out := upload_files uuid4 upsert_records split_documents folder_entries
                 s temp_dir save_error chunk_size chunk_overlap in
    let s' := fst (fst out) in
    let calls := snd (fst out) in
    let documents := load_code_files temp_dir (folder_entries temp_dir) in
    namespace s' = namespace s /\ path s' = Some temp_dir /\
    ((exists message : string, snd out = UploadOK message (namespace s)) <->
     save_error = None /\ documents <> [] /\
     forallb (splits split_documents chunk_size chunk_overlap) documents = true) /\
    (forall detail : string,
       snd out = Upload500 detail -> files_processed s' = files_processed s) /\
    (save_error = None -> documents <> [] ->
     forallb (splits split_documents chunk_size chunk_overlap) documents = true ->
     map anonymous_call calls =
       map (fun doc =>
              (namespace s,
               file_records split_documents (namespace s) chunk_size
                 chunk_overlap doc))
         (List.filter (has_chunks split_documents chunk_size chunk_overlap)
            documents) /\
     files_processed s' =
       Z.of_nat (length (List.filter (accepted upsert_records) calls)) /\
     0 <= files_processed s' <= Z.of_nat (length documents) /\
     ((forall ns records, upsert_records ns records = false) ->
      files_processed s' = 0 /\ chat_open s' = false)).
Proof.
  intros uuid4 upsert_records split_documents folder_entries s temp_dir
    save_error cs co.
  cbv zeta. unfold upload_files.
  destruct save_error as [detail |].
  { cbn [fst snd namespace path files_processed].
    split; [reflexivity |]. split; [reflexivity |]. split; [| split].
    - split; [intros [m Hm]; discriminate | intros [H _]; discriminate].
    - intros _ _. reflexivity.
    - intros H. discriminate. }
  destruct (load_code_files temp_dir (folder_entries temp_dir))
    as [|d docs] eqn:Hd.
  { cbn [fst snd namespace path files_processed].
    split; [reflexivity |]. split; [reflexivity |]. split; [| split].
    - split; [intros [m Hm]; discriminate | intros [_ [H _]]; congruence].
    - intros _ _. reflexivity.
    - intros _ H. congruence. }
  pose proof (upload_loop_spec uuid4 upsert_records split_documents
                (namespace s) cs co (d :: docs) 0 0 0) as Hloop.
  cbv zeta in Hloop. destruct Hloop as [Hok Hbad].
  destruct (forallb (splits split_documents cs co) (d :: docs)) eqn:Hall.
  - destruct (Hok eq_refl) as [Hcalls [total' Hcount]].
    destruct (upload_loop uuid4 upsert_records split_documents (namespace s)
                cs co (d :: docs) 0 0 0) as [calls counters].
    cbn [fst snd] in Hcalls, Hcount. subst counters.
    cbn [fst snd namespace path files_processed Nat.add].
    split; [reflexivity |]. split; [reflexivity |]. split; [| split].
    + split; [intros _; repeat split; discriminate | eauto].
    + intros detail Hdet. discriminate.
    + intros _ _ _. split; [exact Hcalls |]. split; [reflexivity |]. split.
      * split; [lia |]. apply inj_le.
        transitivity (length calls);
          [apply (filter_length_le (accepted upsert_records) calls) |].
        apply (f_equal (@length _)) in Hcalls.
        rewrite !length_map in Hcalls. rewrite Hcalls.
        apply (filter_length_le (has_chunks split_documents cs co) (d :: docs)).
      * intros Hdown.
        rewrite (accepted_none_when_down upsert_records calls Hdown).
        cbn [length]. split; [reflexivity |].
        unfold chat_open. cbn [files_processed]. now rewrite andb_false_r.
  - destruct (Hbad eq_refl) as [detail Hdet].
    destruct (upload_loop uuid4 upsert_records split_documents (namespace s)
                cs co (d :: docs) 0 0 0) as [calls counters].
    cbn [snd] in Hdet. subst counters.
    cbn [fst snd namespace path files_processed].
    split; [reflexivity |]. split; [reflexivity |]. split; [| split].
    + split; [intros [m Hm]; discriminate | intros [_ [_ H]]; discriminate].
    + intros _ _. reflexivity.
    + intros _ _ H. discriminate.
Qed.

Lemma upload_files_counts_witness :
  chat_open
    (fst (fst (upload_files (fun _ => "id") index_down one_chunk small_repo
                 fresh_session "/tmp/rag-data/tmpu7" None 800 100))) = false.
Proof.
  destruct (upload_files_counts (fun _ => "id") index_down one_chunk small_repo
              fresh_session "/tmp/rag-data/tmpu7" None 800 100)
    as [_ [_ [_ [_ H]]]].
  destruct (H eq_refl ltac:(vm_compute; discriminate)
              ltac:(vm_compute; reflexivity)) as [_ [_ [_ H2]]].
  apply H2. reflexivity.
Defined.

(** ** Reading a file directly *)

Lemma lower_app (a b : string) :
  Str.lower (a +:+ b) = Str.lower a +:+ Str.lower b.
Proof.
  induction a as [|x a IH]; [reflexivity |].
  rewrite str_app_cons. cbn [Str.lower]. now rewrite IH, str_app_cons.
Qed.

Lemma truncation_note_found (body rest : string) :
  Str.contains "truncated"
    (Str.lower (body +:+ nl +:+ nl
                +:+ "... (File truncated - showing first " +:+ rest)) = true.
Proof.
  apply contains_spec. rewrite !lower_app.
  assert (H : occurs_in "truncated"
                (Str.lower "... (File truncated - showing first "))
    by (apply contains_spec; reflexivity).
  occurs_by H.
Qed.

Lemma app_not_empty (a b : string) : b <> "" -> a +:+ b <> "".
Proof.
  intros Hb H. apply (f_equal String.length) in H.
  rewrite str_length_app in H. destruct b; [congruence | cbn in H; lia].
Qed.

(** Reading a file directly: a file above 150 KB is cut to its first 600
    lines, a note is added, and a successful answer says it was truncated;
    a smaller file is sent whole, and is said to be truncated exactly when
    its own text holds the word (in any letter case); a file that cannot
    be read, and an empty file too, is answered "could not read" without
    a call of the model. *)
Theorem direct_explanation_truncation :
  forall (ask_llm : string -> string + string) (abs_path : string)
         (file : disk_file),
    let text := join_lines (file_lines file) in
    (file_size file > 150 * 1024 ->
       (exists note : string,
          read_file_with_limit (Some file) 150 600 =
            Some (join_lines (take 600 (file_lines file)) +:+ note)) /\
       forall (prompts : list string) (ok : bool) (response name : string)
              (kb : Z) (flag : bool),
         try_direct_explanation ask_llm abs_path (Some file) =
           (prompts, (ok, response, DirectRead name kb flag)) ->
         flag = true /\ kb = file_size file / 1024) /\
    (file_size file <= 150 * 1024 ->
       read_file_with_limit (Some file) 150 600 = Some text /\
       forall (prompts : list string) (ok : bool) (response name : string)
              (kb : Z) (flag : bool),
         try_direct_explanation ask_llm abs_path (Some file) =
           (prompts, (ok, response, DirectRead name kb flag)) ->
         (flag = true <-> occurs_in "truncated" (Str.lower text)) /\
         prompts = [direct_prompt name kb text flag]) /\
    (file_size file <= 150 * 1024 -> text = "" ->
       fst (try_direct_explanation ask_llm abs_path (Some file)) = [] /\
       snd (snd (try_direct_explanation ask_llm abs_path (Some file))) = ReadError) /\
    fst (try_direct_explanation ask_llm abs_path None) = [] /\
    snd (snd (try_direct_explanation ask_llm abs_path None)) = ReadError.
Proof.
  intros ask_llm abs_path file. cbv zeta.
  split; [| split; [| split; [| split; reflexivity]]].
  - intros Hbig. unfold try_direct_explanation, read_file_with_limit.
    destruct (Z.gtb_spec (file_size file) (150 * 1024)) as [_ | H]; [| lia].
    change (Z.to_nat 600) with 600%nat.
    set (body := join_lines (take 600 (file_lines file))).
    set (rest := str_of_Z 600 +:+ " lines of "
                 +:+ str_of_Z (file_size file / 1024) +:+ "KB file)").
    split; [eexists; reflexivity |].
    intros prompts ok response name kb flag.
    pose proof (truncation_note_found body rest) as Hfound.
    destruct (body +:+ nl +:+ nl +:+ "... (File truncated - showing first " +:+ rest)
      as [|c content] eqn:Hc.
    { exfalso. revert Hc. apply app_not_empty, app_not_empty, app_not_empty.
      discriminate. }
    destruct (ask_llm _) as [r | d]; [| discriminate].
    intros Heq. injection Heq as _ _ _ _ <- <-. cbn [fmap option_fmap option_map default].
    split; [exact Hfound | reflexivity].
  - intros Hsmall. unfold try_direct_explanation, read_file_with_limit.
    destruct (Z.gtb_spec (file_size file) (150 * 1024)) as [H | _]; [lia |].
    split; [reflexivity |].
    intros prompts ok response name kb flag.
    pose proof (contains_spec "truncated"
                  (Str.lower (join_lines (file_lines file)))) as Hspec.
    destruct (join_lines (file_lines file)) as [|c content] eqn:Hc;
      [discriminate |].
    destruct (ask_llm _) as [r | d]; [| discriminate].
    intros Heq. injection Heq as <- _ _ <- <- <-.
    split; [exact Hspec | reflexivity].
  - intros Hsmall Hempty. unfold try_direct_explanation, read_file_with_limit.
    destruct (Z.gtb_spec (file_size file) (150 * 1024)) as [H | _]; [lia |].
    rewrite Hempty. split; reflexivity.
Qed.

Lemma direct_explanation_truncation_witness :
  read_file_with_limit (Some (mkFile 12 ["import os"; nl])) 150 600 =
    Some (join_lines ["import os"; nl]).
Proof.
  apply (proj1 (proj2 (direct_explanation_truncation llm_ok "/tmp/a.py"
                         (mkFile 12 ["import os"; nl])))).
  vm_compute. discriminate.
Defined.
